(** * RouterOS-Blocklist-Sync: the escalation engine of [main.go]

    A shallow embedding of the Go program's core (address normalisation,
    whitelist matching, offense-count persistence, escalation decision and
    the per-address loop of [main]) together with the parts of the Go
    standard library it calls ([fmt], [strings], [unicode/utf8], [net],
    [net/netip], [encoding/json]), followed by the properties of the
    specification stated and settled against it.

    Conventions.  A Go [string] is a sequence of bytes: [string] of [ascii].
    A Go [int] is a 64-bit two's-complement integer: [Z] with the wrap-around
    written out where the program does arithmetic.  A Go [map[string]int] is
    [option (gmap string Z)], [None] being the nil map.  A run-time panic is
    an explicit outcome of the [result] type. *)

From Stdlib Require Import ZArith String Ascii List Lia Bool.
From stdpp Require Import base option list gmap strings sorting.

Local Open Scope string_scope.
Local Open Scope list_scope.
Local Open Scope Z_scope.

(* ===================================================================== *)
(** * Part I.  Definitions                                                *)
(* ===================================================================== *)

(** ** Go run-time outcomes *)

Inductive panic : Type :=
| IndexOutOfRange (index : Z) (len : Z)
| NilMapAssignment.

Inductive result (A : Type) : Type :=
| Ok (a : A)
| Panic (p : panic).
Arguments Ok {A} a.
Arguments Panic {A} p.

#[global] Instance result_ret : MRet result := fun A a => Ok a.
#[global] Instance result_bind : MBind result := fun A B k r =>
  match r with
  | Ok a => k a
  | Panic p => Panic p
  end.

(** [s[i]] on a slice: a bounds-checked read. *)
Definition index {A} (s : list A) (i : Z) : result A :=
  if i <? 0 then Panic (IndexOutOfRange i (Z.of_nat (length s)))
  else match s !! Z.to_nat i with
       | Some x => Ok x
       | None => Panic (IndexOutOfRange i (Z.of_nat (length s)))
       end.

(** Go's [int]: 64 bits, silently wrapping. *)
Definition minInt : Z := - 2 ^ 63.
Definition maxInt : Z := 2 ^ 63 - 1.
Definition is_int (z : Z) : Prop := minInt <= z <= maxInt.
Definition wrap_int (z : Z) : Z := (z + 2 ^ 63) mod 2 ^ 64 - 2 ^ 63.

(** ** Bytes and characters *)

Definition byte_of (c : ascii) : Z := Z.of_N (N_of_ascii c).
Definition chr (z : Z) : ascii := ascii_of_N (Z.to_N (z mod 256)).

Definition is_digit (c : ascii) : bool :=
  (48 <=? byte_of c) && (byte_of c <=? 57).

(** ** [unicode/utf8] and [unicode] *)

Module utf8.

Definition RuneSelf : Z := 128.
Definition RuneError : Z := 65533.
Definition MaxRune : Z := 1114111.

(** Continuation bytes lie in [locb, hicb]. *)
Definition locb : Z := 128.
Definition hicb : Z := 191.

(** The table [first] joined with [acceptRanges]: for a leading byte, the
    length of the encoding and the range accepted for the second byte;
    [None] for the bytes that start no multi-byte encoding
    (ASCII and the invalid leading bytes). *)
Definition first (b : Z) : option (nat * Z * Z) :=
  if b <? 194 then None
  else if b <? 224 then Some (2%nat, locb, hicb)
  else if b =? 224 then Some (3%nat, 160, hicb)
  else if b <? 237 then Some (3%nat, locb, hicb)
  else if b =? 237 then Some (3%nat, locb, 159)
  else if b <? 240 then Some (3%nat, locb, hicb)
  else if b =? 240 then Some (4%nat, 144, hicb)
  else if b <? 244 then Some (4%nat, locb, hicb)
  else if b =? 244 then Some (4%nat, locb, 143)
  else None.

Definition cont (b : Z) : bool := (locb <=? b) && (b <=? hicb).

(** [utf8.DecodeRuneInString]: the first rune of [s] and its width in bytes;
    [(RuneError, 0)] for the empty string and [(RuneError, 1)] for an
    invalid or truncated encoding. *)
Definition DecodeRuneInString (s : string) : Z * nat :=
  match s with
  | "" => (RuneError, 0%nat)
  | String c0 s1 =>
      let b0 := byte_of c0 in
      match first b0 with
      | None => if b0 <? RuneSelf then (b0, 1%nat) else (RuneError, 1%nat)
      | Some (sz, lo, hi) =>
          if (String.length s <? sz)%nat then (RuneError, 1%nat) else
          match s1 with
          | "" => (RuneError, 1%nat)
          | String c1 s2 =>
              let b1 := byte_of c1 in
              if (b1 <? lo) || (hi <? b1) then (RuneError, 1%nat)
              else if (sz <=? 2)%nat then
                (Z.lor (Z.shiftl (Z.land b0 31) 6) (Z.land b1 63), 2%nat)
              else
              match s2 with
              | "" => (RuneError, 1%nat)
              | String c2 s3 =>
                  let b2 := byte_of c2 in
                  if negb (cont b2) then (RuneError, 1%nat)
                  else if (sz <=? 3)%nat then
                    (Z.lor (Z.lor (Z.shiftl (Z.land b0 15) 12)
                                  (Z.shiftl (Z.land b1 63) 6))
                           (Z.land b2 63), 3%nat)
                  else
                  match s3 with
                  | "" => (RuneError, 1%nat)
                  | String c3 _ =>
                      let b3 := byte_of c3 in
                      if negb (cont b3) then (RuneError, 1%nat)
                      else
                        (Z.lor (Z.lor (Z.lor (Z.shiftl (Z.land b0 7) 18)
                                             (Z.shiftl (Z.land b1 63) 12))
                                      (Z.shiftl (Z.land b2 63) 6))
                               (Z.land b3 63), 4%nat)
                  end
              end
          end
      end
  end.

(** [utf8.RuneStart]: the byte is not a continuation byte. *)
Definition RuneStart (b : Z) : bool := negb (Z.land b 192 =? 128).

(** The last [n] bytes of [s]. *)
Definition suffix (n : nat) (s : string) : string :=
  String.substring (String.length s - n) n s.

Definition byte_at_end (j : nat) (s : string) : option Z :=
  if (String.length s <? j)%nat then None
  else byte_of <$> String.get (String.length s - j) s.

(** [utf8.DecodeLastRuneInString]: the last rune of [s] and its width.  The
    backwards search for the start of the rune looks at most [UTFMax = 4]
    bytes back; the rune found must end exactly at the end of [s]. *)
Definition DecodeLastRuneInString (s : string) : Z * nat :=
  match byte_at_end 1 s with
  | None => (RuneError, 0%nat)
  | Some r =>
      if r <? RuneSelf then (r, 1%nat) else
      let try (j : nat) :=
        let (r', size) := DecodeRuneInString (suffix j s) in
        if (size =? j)%nat then (r', size) else (RuneError, 1%nat) in
      let starts (j : nat) :=
        match byte_at_end j s with
        | Some b => RuneStart b
        | None => false
        end in
      if starts 2%nat then try 2%nat
      else if starts 3%nat then try 3%nat
      else if starts 4%nat then try 4%nat
      else (RuneError, 1%nat)
  end.

(** [utf8.EncodeRune] (as [AppendRune]): the UTF-8 encoding of a rune, an
    out-of-range or surrogate rune being encoded as [RuneError]. *)
Definition enc3 (r : Z) : string :=
  String (chr (Z.lor 224 (Z.shiftr r 12)))
    (String (chr (Z.lor 128 (Z.land (Z.shiftr r 6) 63)))
       (String (chr (Z.lor 128 (Z.land r 63))) "")).

Definition EncodeRune (r : Z) : string :=
  if (0 <=? r) && (r <=? 127) then String (chr r) ""
  else if (0 <=? r) && (r <=? 2047) then
    String (chr (Z.lor 192 (Z.shiftr r 6)))
      (String (chr (Z.lor 128 (Z.land r 63))) "")
  else if (r <? 0) || (MaxRune <? r) || ((55296 <=? r) && (r <=? 57343))
  then enc3 RuneError
  else if r <=? 65535 then enc3 r
  else
    String (chr (Z.lor 240 (Z.shiftr r 18)))
      (String (chr (Z.lor 128 (Z.land (Z.shiftr r 12) 63)))
         (String (chr (Z.lor 128 (Z.land (Z.shiftr r 6) 63)))
            (String (chr (Z.lor 128 (Z.land r 63))) ""))).

End utf8.

Module unicode.

(** [unicode.IsSpace]: the Latin-1 cases, then the [White_Space] table. *)
Definition IsSpace (r : Z) : bool :=
  if (0 <=? r) && (r <=? 255) then
    ((9 <=? r) && (r <=? 13)) || (r =? 32) || (r =? 133) || (r =? 160)
  else
    (r =? 5760) || ((8192 <=? r) && (r <=? 8202)) || (r =? 8232) ||
    (r =? 8233) || (r =? 8239) || (r =? 8287) || (r =? 12288).

End unicode.

(** ** [strings] *)

Module strings.

Definition eqb_ascii (a b : ascii) : bool := Ascii.eqb a b.

(** [len(s) == 0], [len(s) > 0 && s[0] == c] and [s[1:]]. *)
Definition is_empty (s : string) : bool :=
  match s with
  | "" => true
  | String _ _ => false
  end.

Definition starts_with (s : string) (c : ascii) : bool :=
  match s with
  | "" => false
  | String a _ => eqb_ascii a c
  end.

Definition tail (s : string) : string :=
  match s with
  | "" => ""
  | String _ s' => s'
  end.

(** [strings.Contains(s, sep)] for a one-byte [sep]
    (the program asks for [","] and ["/"]). *)
Fixpoint Contains (s : string) (sep : ascii) : bool :=
  match s with
  | "" => false
  | String c s' => if eqb_ascii c sep then true else Contains s' sep
  end.

(** [strings.Split(s, sep)] for a one-byte [sep]: the pieces between the
    separators, at least one piece. *)
Fixpoint Split (s : string) (sep : ascii) : list string :=
  match s with
  | "" => [""]
  | String c s' =>
      if eqb_ascii c sep then "" :: Split s' sep
      else match Split s' sep with
           | piece :: pieces => String c piece :: pieces
           | [] => [String c ""]
           end
  end.

Fixpoint trimLeftByte (s : string) (c : ascii) : string :=
  match s with
  | "" => ""
  | String a s' => if eqb_ascii a c then trimLeftByte s' c else s
  end.

Fixpoint trimRightByte (s : string) (c : ascii) : string :=
  match s with
  | "" => ""
  | String a s' =>
      match trimRightByte s' c with
      | "" => if eqb_ascii a c then "" else String a ""
      | t => String a t
      end
  end.

(** [strings.Trim(s, cutset)] for a cutset of one ASCII byte
    (the program trims the double quote). *)
Definition Trim (s : string) (cutset : ascii) : string :=
  trimLeftByte (trimRightByte s cutset) cutset.

(** The table [asciiSpace]: tab, line feed, vertical tab, form feed,
    carriage return, space. *)
Definition asciiSpace (c : ascii) : bool :=
  let b := byte_of c in ((9 <=? b) && (b <=? 13)) || (b =? 32).

(** [strings.TrimLeftFunc(s, unicode.IsSpace)]: runes are decoded one after
    the other; [skip] counts the bytes of the current rune still to pass. *)
Fixpoint trimLeftSpace (skip : nat) (s : string) : string :=
  match s with
  | "" => ""
  | String c s' =>
      match skip with
      | S k => trimLeftSpace k s'
      | O =>
          let (r, size) := utf8.DecodeRuneInString s in
          if unicode.IsSpace r then trimLeftSpace (Nat.pred size) s' else s
      end
  end.

Definition TrimLeftFunc_IsSpace (s : string) : string := trimLeftSpace 0 s.

(** [lastIndexFunc(s, unicode.IsSpace, false)]: the index where the last
    non-space rune starts, scanning backwards from [i]; [None] for -1. *)
Fixpoint lastIndexNotSpace (fuel : nat) (s : string) (i : nat) : option nat :=
  match fuel with
  | O => None
  | S fuel' =>
      if (i =? 0)%nat then None else
      let (r, size) := utf8.DecodeLastRuneInString (String.substring 0 i s) in
      let i' := (i - size)%nat in
      if negb (unicode.IsSpace r) then Some i'
      else lastIndexNotSpace fuel' s i'
  end.

(** [strings.TrimRightFunc(s, unicode.IsSpace)]. *)
Definition TrimRightFunc_IsSpace (s : string) : string :=
  match lastIndexNotSpace (String.length s) s (String.length s) with
  | None => ""
  | Some i =>
      match String.get i s with
      | Some c =>
          if utf8.RuneSelf <=? byte_of c then
            let (_, wid) :=
              utf8.DecodeRuneInString
                (String.substring i (String.length s - i) s) in
            String.substring 0 (i + wid) s
          else String.substring 0 (S i) s
      | None => String.substring 0 (S i) s
      end
  end.

(** The backwards ASCII loop of [TrimSpace]: trailing ASCII spaces are
    dropped up to the first byte that is not one. *)
Fixpoint trimRightAscii (s : string) : string :=
  match s with
  | "" => ""
  | String a s' =>
      match trimRightAscii s' with
      | "" => if asciiSpace a then "" else String a ""
      | t => String a t
      end
  end.

Definition last_byte (s : string) : option Z :=
  utf8.byte_at_end 1 s.

(** The second half of [TrimSpace], entered with the start already
    trimmed: when the backwards loop stops at a non-ASCII byte the rest is
    handed to [TrimRightFunc]. *)
Definition trimSpaceRight (s : string) : string :=
  let t := trimRightAscii s in
  match last_byte t with
  | Some b => if utf8.RuneSelf <=? b then TrimRightFunc_IsSpace t else t
  | None => t
  end.

(** [strings.TrimSpace]: a fast path over ASCII, falling back to the
    Unicode-aware [TrimFunc(s[start:], unicode.IsSpace)] at the first
    non-ASCII byte. *)
Fixpoint TrimSpace (s : string) : string :=
  match s with
  | "" => ""
  | String c s' =>
      if utf8.RuneSelf <=? byte_of c then
        TrimRightFunc_IsSpace (TrimLeftFunc_IsSpace s)
      else if asciiSpace c then TrimSpace s'
      else trimSpaceRight s
  end.

(** [strings.HasPrefix(s, prefix)]. *)
Fixpoint HasPrefix (s prefix : string) : bool :=
  match prefix with
  | "" => true
  | String p prefix' =>
      match s with
      | "" => false
      | String c s' => eqb_ascii c p && HasPrefix s' prefix'
      end
  end.

(** [strings.SplitN(s, sep, 2)] for a one-byte [sep]: the text before the
    first separator and the text after it, or the text alone when it holds
    no separator. *)
Fixpoint SplitN2 (s : string) (sep : ascii) : list string :=
  match s with
  | "" => [""]
  | String c s' =>
      if eqb_ascii c sep then [""; s']
      else match SplitN2 s' sep with
           | piece :: pieces => String c piece :: pieces
           | [] => [String c ""]
           end
  end.

End strings.

(** ** [net/netip]: parsing and printing addresses *)

Module netip.

(** An address as [ParseAddr] builds it: four bytes, or sixteen bytes with
    a zone. *)
Inductive Addr : Type :=
| Addr4 (fields : list Z)
| Addr6 (ip : list Z) (zone : string).

(** [uint8(x)] and [byte(x)]: the low eight bits. *)
Definition byte (x : Z) : Z := Z.land x 255.

(** [parseIPv4Fields]: the loop over the characters of a dotted quad.
    [first] says that the character is the first of the text, [prevdot]
    that the one before it is a dot; [val], [pos], [digLen] and [fields]
    are the variables of the Go loop.  The result is the state at the end
    of the text. *)
Fixpoint v4loop (s : string) (first prevdot : bool)
         (val : Z) (pos : nat) (digLen : nat) (fields : list Z)
  : option (Z * nat * list Z) :=
  match s with
  | "" => Some (val, pos, fields)
  | String c s' =>
      if is_digit c then
        if (digLen =? 1)%nat && (val =? 0) then None
        else
          let val' := val * 10 + (byte_of c - 48) in
          if 255 <? val' then None
          else v4loop s' false false val' pos (S digLen) fields
      else if strings.eqb_ascii c "." then
        if first || strings.is_empty s' || prevdot then None
        else if (pos =? 3)%nat then None
        else v4loop s' false true 0 (S pos) 0%nat (<[pos := byte val]> fields)
      else None
  end.

Definition parseIPv4Fields (s : string) : option (list Z) :=
  match v4loop s true false 0 0%nat 0%nat [0; 0; 0; 0] with
  | None => None
  | Some (val, pos, fields) =>
      if (pos <? 3)%nat then None
      else Some (<[3%nat := byte val]> fields)
  end.

Definition parseIPv4 (s : string) : option Addr :=
  Addr4 <$> parseIPv4Fields s.

Definition hexval (c : ascii) : option Z :=
  let b := byte_of c in
  if (48 <=? b) && (b <=? 57) then Some (b - 48)
  else if (97 <=? b) && (b <=? 102) then Some (b - 97 + 10)
  else if (65 <=? b) && (b <=? 70) then Some (b - 65 + 10)
  else None.

(** The inner loop of [parseIPv6] reading one hexadecimal group: [None]
    for a group of more than four digits or a value above [0xffff],
    otherwise the value, the number of digits and the text left. *)
Fixpoint hexLoop (s : string) (off : nat) (acc : Z)
  : option (Z * nat * string) :=
  match s with
  | "" => Some (acc, off, "")
  | String c s' =>
      match hexval c with
      | None => Some (acc, off, s)
      | Some v =>
          let acc' := Z.shiftl acc 4 + v in
          if (3 <? off)%nat then None
          else if 65535 <? acc' then None
          else hexLoop s' (S off) acc'
      end
  end.

(** The state of [parseIPv6] when its main loop is left:
    the text not consumed, the index [i], the bytes and the position of
    the ellipsis ([None] for -1). *)
Definition loop_state : Type := string * nat * list Z * option nat.

(** [copy(ip[i:i+4], fields)]. *)
Definition set4 (ip : list Z) (i : nat) (fields : list Z) : list Z :=
  take i ip ++ fields ++ drop (i + 4) ip.

(** The main loop of [parseIPv6], [for i < 16 { ... }].  Every round
    advances [i] by two, so eight rounds are all there can be. *)
Fixpoint loop6 (fuel : nat) (s : string) (i : nat) (ip : list Z)
         (ellipsis : option nat) : option loop_state :=
  if (16 <=? i)%nat then Some (s, i, ip, ellipsis) else
  match fuel with
  | O => None
  | S fuel' =>
      match hexLoop s 0 0 with
      | None => None
      | Some (acc, off, rest) =>
          if (off =? 0)%nat then None
          (* followed by a dot: the trailing IPv4 *)
          else if strings.starts_with rest "." then
            if bool_decide (ellipsis = None) && negb (i =? 12)%nat then None
            else if (16 <? i + 4)%nat then None
            else
              match parseIPv4Fields s with
              | None => None
              | Some fields =>
                  Some ("", (i + 4)%nat, set4 ip i fields, ellipsis)
              end
          else
            (* save this 16-bit chunk *)
            let ip' :=
              <[S i := byte acc]> (<[i := byte (Z.shiftr acc 8)]> ip) in
            let i' := (i + 2)%nat in
            (* stop at the end of the text *)
            if strings.is_empty rest then Some ("", i', ip', ellipsis)
            (* otherwise a colon and more must follow *)
            else if negb (strings.starts_with rest ":") then None
            else
              let rest1 := strings.tail rest in
              if strings.is_empty rest1 then None
              (* look for the ellipsis *)
              else if strings.starts_with rest1 ":" then
                match ellipsis with
                | Some _ => None
                | None =>
                    let rest2 := strings.tail rest1 in
                    if strings.is_empty rest2
                    then Some ("", i', ip', Some i')
                    else loop6 fuel' rest2 i' ip' (Some i')
                end
              else loop6 fuel' rest1 i' ip' ellipsis
      end
  end.

(** [for j := i - 1; j >= ellipsis; j-- { ip[j+n] = ip[j] }], [count]
    rounds starting below [i]. *)
Fixpoint shift_up (count : nat) (i : nat) (n : nat) (ip : list Z) : list Z :=
  match count with
  | O => ip
  | S count' =>
      let j := Nat.pred i in
      shift_up count' j n (<[(j + n)%nat := ip !!! j]> ip)
  end.

(** [clear(ip[from : from+n])]. *)
Fixpoint clear (n : nat) (from : nat) (ip : list Z) : list Z :=
  match n with
  | O => ip
  | S n' => clear n' (S from) (<[from := 0]> ip)
  end.

Definition zero16 : list Z := replicate 16 0.

(** Splitting the zone off: the text before the first [%] and, when there
    is one, the text after it. *)
Fixpoint split_zone (s : string) : string * option string :=
  match s with
  | "" => ("", None)
  | String c s' =>
      if strings.eqb_ascii c "%" then ("", Some s')
      else let (a, z) := split_zone s' in (String c a, z)
  end.

Definition parseIPv6 (input : string) : option Addr :=
  let (s, z) := split_zone input in
  if bool_decide (z = Some "") then None else
  let zone := default "" z in
  (* might have a leading ellipsis *)
  let leading :=
    strings.starts_with s ":" && strings.starts_with (strings.tail s) ":" in
  let s0 := if leading then strings.tail (strings.tail s) else s in
  let ellipsis0 := if leading then Some 0%nat else None in
  (* might be only the ellipsis *)
  if leading && strings.is_empty s0 then Some (Addr6 zero16 zone)
  else
    match loop6 8 s0 0 zero16 ellipsis0 with
    | None => None
    | Some (rest, i, ip, ellipsis) =>
        if negb (strings.is_empty rest) then None
        else if (i <? 16)%nat then
          match ellipsis with
          | None => None
          | Some e =>
              let n := (16 - i)%nat in
              Some (Addr6 (clear n e (shift_up (i - e) i n ip)) zone)
          end
        else
          match ellipsis with
          | Some _ => None
          | None => Some (Addr6 ip zone)
          end
    end.

(** [netip.ParseAddr]: the first of [.], [:] and [%] in the text decides
    how it is read. *)
Fixpoint dispatch (s : string) (whole : string) : option Addr :=
  match s with
  | "" => None
  | String c s' =>
      if strings.eqb_ascii c "." then parseIPv4 whole
      else if strings.eqb_ascii c ":" then parseIPv6 whole
      else if strings.eqb_ascii c "%" then None
      else dispatch s' whole
  end.

Definition ParseAddr (s : string) : option Addr := dispatch s s.

Definition v4InV6Prefix : list Z := [0; 0; 0; 0; 0; 0; 0; 0; 0; 0; 255; 255].

Definition As16 (a : Addr) : list Z :=
  match a with
  | Addr4 fields => v4InV6Prefix ++ fields
  | Addr6 ip _ => ip
  end.

Definition Zone (a : Addr) : string :=
  match a with
  | Addr4 _ => ""
  | Addr6 _ zone => zone
  end.

Definition BitLen (a : Addr) : Z :=
  match a with
  | Addr4 _ => 32
  | Addr6 _ _ => 128
  end.

(** The table ["0123456789abcdef"]. *)
Definition digit_char (d : Z) : ascii :=
  if d <? 10 then chr (48 + d) else chr (87 + d).

Definition appendDecimal (x : Z) : string :=
  (if 100 <=? x then String (digit_char (x / 100)) "" else "") +:+
  (if 10 <=? x then String (digit_char (x / 10 mod 10)) "" else "") +:+
  String (digit_char (x mod 10)) "".

Definition appendHex (x : Z) : string :=
  (if 4096 <=? x then String (digit_char (Z.shiftr x 12)) "" else "") +:+
  (if 256 <=? x then String (digit_char (Z.land (Z.shiftr x 8) 15)) ""
   else "") +:+
  (if 16 <=? x then String (digit_char (Z.land (Z.shiftr x 4) 15)) ""
   else "") +:+
  String (digit_char (Z.land x 15)) "".

(** [Addr.string4] on the four bytes. *)
Definition string4 (b : list Z) : string :=
  appendDecimal (b !!! 0%nat) +:+ "." +:+ appendDecimal (b !!! 1%nat) +:+
  "." +:+ appendDecimal (b !!! 2%nat) +:+ "." +:+ appendDecimal (b !!! 3%nat).

(** [Addr.v6u16(i)]: the [i]-th 16-bit group. *)
Definition v6u16 (ip : list Z) (i : nat) : Z :=
  Z.lor (Z.shiftl (ip !!! (2 * i)%nat) 8) (ip !!! (2 * i + 1)%nat).

(** [for j < 8 && ip.v6u16(j) == 0 { j++ }]. *)
Fixpoint zero_run_end (fuel : nat) (ip : list Z) (j : nat) : nat :=
  match fuel with
  | O => j
  | S fuel' =>
      if (j <? 8)%nat && (v6u16 ip j =? 0) then zero_run_end fuel' ip (S j)
      else j
  end.

(** The first loop of [appendTo6]: the longest run of at least two zero
    groups, the earliest among the longest; [(255, 255)] when there is none. *)
Fixpoint longest_zero_run (fuel : nat) (ip : list Z) (i : nat)
         (zeroStart zeroEnd : nat) : nat * nat :=
  match fuel with
  | O => (zeroStart, zeroEnd)
  | S fuel' =>
      let j := zero_run_end 8 ip i in
      let l := (j - i)%nat in
      if (2 <=? l)%nat && (zeroEnd - zeroStart <? l)%nat
      then longest_zero_run fuel' ip (S i) i j
      else longest_zero_run fuel' ip (S i) zeroStart zeroEnd
  end.

(** The second loop of [appendTo6]. *)
Fixpoint print6 (fuel : nat) (ip : list Z) (i : nat)
         (zeroStart zeroEnd : nat) : string :=
  match fuel with
  | O => ""
  | S fuel' =>
      if (8 <=? i)%nat then ""
      else if (i =? zeroStart)%nat then
        "::" +:+
        (if (8 <=? zeroEnd)%nat then ""
         else appendHex (v6u16 ip zeroEnd) +:+
              print6 fuel' ip (S zeroEnd) zeroStart zeroEnd)
      else
        (if (0 <? i)%nat then ":" else "") +:+
        appendHex (v6u16 ip i) +:+ print6 fuel' ip (S i) zeroStart zeroEnd
  end.

(** [Addr.string6] without a zone. *)
Definition string6 (ip : list Z) : string :=
  let (zeroStart, zeroEnd) := longest_zero_run 8 ip 0 255 255 in
  print6 8 ip 0 zeroStart zeroEnd.

End netip.

(** ** [net]: [IP], [IPNet], [ParseIP], [ParseCIDR] *)

Module net.

Definition IPv4len : nat := 4.
Definition IPv6len : nat := 16.

(** An [IP] or an [IPMask] is a slice of bytes; [None] stands for nil
    where a function can return it. *)
Definition IP : Type := list Z.
Definition IPMask : Type := list Z.

Record IPNet : Type := { IPNet_IP : option IP; IPNet_Mask : IPMask }.

(** [net.ParseIP]: [netip.ParseAddr], refusing a zone, as sixteen bytes. *)
Definition ParseIP (s : string) : option IP :=
  match netip.ParseAddr s with
  | None => None
  | Some a =>
      if negb (bool_decide (netip.Zone a = "")) then None
      else Some (netip.As16 a)
  end.

Definition isZeros (p : list Z) : bool := forallb (Z.eqb 0) p.

(** [IP.To4]. *)
Definition To4 (ip : IP) : option IP :=
  if (length ip =? IPv4len)%nat then Some ip
  else if (length ip =? IPv6len)%nat && isZeros (take 10 ip) &&
          (ip !!! 10%nat =? 255) && (ip !!! 11%nat =? 255)
  then Some (drop 12 ip)
  else None.

(** [IP.String] on the sixteen bytes [ParseIP] returns (the other lengths
    print as ["<nil>"] or as a question mark followed by hexadecimal
    digits and do not arise in the program). *)
Definition String_ (ip : IP) : string :=
  match To4 ip with
  | Some p4 => netip.string4 p4
  | None => netip.string6 ip
  end.

(** [dtoi]: a decimal number at the start of the text, with the number of
    characters read; it gives up at [big = 0xFFFFFF]. *)
Definition big : Z := 16777215.

Fixpoint dtoi_loop (s : string) (n : Z) (i : nat) : Z * nat * bool :=
  match s with
  | "" => (n, i, negb (i =? 0)%nat)
  | String c s' =>
      if is_digit c then
        let n' := n * 10 + (byte_of c - 48) in
        if big <=? n' then (big, i, false)
        else dtoi_loop s' n' (S i)
      else
        if (i =? 0)%nat then (0, 0%nat, false) else (n, i, true)
  end.

Definition dtoi (s : string) : Z * nat * bool := dtoi_loop s 0 0%nat.

(** [net.CIDRMask(ones, bits)] for [bits] of 32 or 128 and
    [0 <= ones <= bits]: the loop over the [l = bits / 8] bytes. *)
Fixpoint mask_bytes (l : nat) (n : Z) : IPMask :=
  match l with
  | O => []
  | S l' =>
      if 8 <=? n then 255 :: mask_bytes l' (n - 8)
      else Z.land (Z.lnot (Z.shiftr 255 n)) 255 :: mask_bytes l' 0
  end.

Definition CIDRMask (ones bits : Z) : option IPMask :=
  if negb (bits =? 32) && negb (bits =? 128) then None
  else if (ones <? 0) || (bits <? ones) then None
  else Some (mask_bytes (Z.to_nat (bits / 8)) ones).

Definition allFF (p : list Z) : bool := forallb (Z.eqb 255) p.

(** [IP.Mask]. *)
Definition Mask (ip : IP) (mask : IPMask) : option IP :=
  let mask1 :=
    if (length mask =? IPv6len)%nat && (length ip =? IPv4len)%nat &&
       allFF (take 12 mask)
    then drop 12 mask else mask in
  let ip1 :=
    if (length mask1 =? IPv4len)%nat && (length ip =? IPv6len)%nat &&
       bool_decide (take 12 ip = netip.v4InV6Prefix)
    then drop 12 ip else ip in
  if negb (length ip1 =? length mask1)%nat then None
  else Some (zip_with Z.land ip1 mask1).

(** The text before the first [/] and the text after it. *)
Fixpoint cut_slash (s : string) : option (string * string) :=
  match s with
  | "" => None
  | String c s' =>
      if strings.eqb_ascii c "/" then Some ("", s')
      else match cut_slash s' with
           | Some (a, m) => Some (String c a, m)
           | None => None
           end
  end.

(** [net.ParseCIDR], keeping the network ([None] is the error). *)
Definition ParseCIDR (s : string) : option IPNet :=
  match cut_slash s with
  | None => None
  | Some (addr, mask) =>
      match netip.ParseAddr addr with
      | None => None
      | Some ipAddr =>
          if negb (bool_decide (netip.Zone ipAddr = "")) then None else
          let '(n, i, ok) := dtoi mask in
          if negb ok || negb (i =? String.length mask)%nat ||
             (n <? 0) || (netip.BitLen ipAddr <? n)
          then None
          else
            match CIDRMask n (netip.BitLen ipAddr) with
            | None => None
            | Some m =>
                Some {| IPNet_IP := Mask (netip.As16 ipAddr) m;
                        IPNet_Mask := m |}
            end
      end
  end.

(** [networkNumberAndMask]. *)
Definition networkNumberAndMask (n : IPNet) : option (IP * IPMask) :=
  match IPNet_IP n with
  | None => None
  | Some nip =>
      match (match To4 nip with
             | Some p4 => Some p4
             | None => if (length nip =? IPv6len)%nat then Some nip else None
             end) with
      | None => None
      | Some ip =>
          let m := IPNet_Mask n in
          if (length m =? IPv4len)%nat then
            if (length ip =? IPv4len)%nat then Some (ip, m) else None
          else if (length m =? IPv6len)%nat then
            if (length ip =? IPv4len)%nat then Some (ip, drop 12 m)
            else Some (ip, m)
          else None
      end
  end.

(** [for i := 0; i < l; i++ { if nn[i]&m[i] != ip[i]&m[i] { return false } }]. *)
Fixpoint same_network (nn m ip : list Z) : bool :=
  match nn, m, ip with
  | a :: nn', k :: m', b :: ip' =>
      if negb (Z.land a k =? Z.land b k) then false
      else same_network nn' m' ip'
  | _, _, _ => true
  end.

(** [IPNet.Contains]. *)
Definition Contains (n : IPNet) (ip : IP) : bool :=
  match networkNumberAndMask n with
  | None => false
  | Some (nn, m) =>
      let ip1 := default ip (To4 ip) in
      if negb (length ip1 =? length nn)%nat then false
      else same_network nn m ip1
  end.

End net.

(** ** [fmt]: the verb [%02d] *)

Module fmt.

(** The digit loop of [fmt.fmtInteger] for base 10:
    [for u >= 10 { i--; next := u / 10; buf[i] = '0' + u - next*10; u = next }]
    followed by the last digit.  [acc] is the part of the buffer already
    written; twenty rounds cover every 64-bit value. *)
Fixpoint digits10 (fuel : nat) (u : Z) (acc : string) : string :=
  match fuel with
  | O => String (chr (48 + u)) acc
  | S fuel' =>
      if 10 <=? u then
        let next := u / 10 in
        digits10 fuel' next (String (chr (48 + u - next * 10)) acc)
      else String (chr (48 + u)) acc
  end.

(** [for i > 0 && prec > len(buf)-i { i--; buf[i] = '0' }]. *)
Fixpoint zero_fill (n : nat) (s : string) : string :=
  match n with
  | O => s
  | S n' => zero_fill n' (String "0" s)
  end.

(** [fmtInteger] with the flags of [%0<wid>d]: zero flag set, width
    present, no precision, signed, base 10.  The zero padding is turned
    into a precision of [wid] digits, one fewer when a sign is written. *)
Definition fmtInteger_zero_width (wid : nat) (n : Z) : string :=
  let negative := n <? 0 in
  let u := Z.abs n in
  let prec := if negative then Nat.pred wid else wid in
  let ds := digits10 20 u "" in
  let padded := zero_fill (prec - String.length ds) ds in
  if negative then String "-" padded else padded.

(** [fmt.Sprintf("%02d:00:00", h)]. *)
Definition Sprintf_02d_00_00 (h : Z) : string :=
  fmtInteger_zero_width 2 h +:+ ":00:00".

End fmt.

(** ** [strconv]: decimal integers *)

Module strconv.

(** [strconv.AppendInt(b, n, 10)]. *)
Definition FormatInt (n : Z) : string :=
  if n <? 0 then String "-" (fmt.digits10 20 (- n) "")
  else fmt.digits10 20 n "".

(** The digit loop of [ParseUint] in base 10: [None] for a character that
    is not a digit. *)
Fixpoint digits_value (s : string) (acc : Z) : option Z :=
  match s with
  | "" => Some acc
  | String c s' =>
      if is_digit c then digits_value s' (acc * 10 + (byte_of c - 48))
      else None
  end.

(** [strconv.ParseInt(s, 10, 64)]: [None] for a syntax or a range error. *)
Definition ParseInt (s : string) : option Z :=
  match s with
  | "" => None
  | String c s' =>
      let neg := strings.eqb_ascii c "-" in
      let body :=
        if strings.eqb_ascii c "+" || strings.eqb_ascii c "-" then s' else s in
      match body with
      | "" => None
      | _ =>
          match digits_value body 0 with
          | None => None
          | Some un =>
              if negb neg && (2 ^ 63 <=? un) then None
              else if neg && (2 ^ 63 <? un) then None
              else Some (if neg then - un else un)
          end
      end
  end.

(** The loop of [ParseUint(s, 10, 64)]: the first character that is no
    digit is a syntax error, a value that leaves 64 bits a range error,
    whichever comes first. *)
Inductive uint_result : Type :=
| UintOk (n : Z)
| UintSyntax
| UintRange.

Fixpoint ParseUint_loop (s : string) (n : Z) : uint_result :=
  match s with
  | "" => UintOk n
  | String c s' =>
      if negb (is_digit c) then UintSyntax
      else if 2 ^ 64 / 10 + 1 <=? n then UintRange
      else
        let n1 := n * 10 + (byte_of c - 48) in
        if 2 ^ 64 - 1 <? n1 then UintRange
        else ParseUint_loop s' n1
  end.

(** [strconv.ParseInt(s, 10, 0)] with the value returned beside the error:
    0 for a syntax error, the nearest bound for a range error. *)
Definition ParseInt_value (s : string) : Z * bool :=
  match s with
  | "" => (0, true)
  | String c s' =>
      let neg := strings.eqb_ascii c "-" in
      let body :=
        if strings.eqb_ascii c "+" || strings.eqb_ascii c "-" then s' else s in
      match body with
      | "" => (0, true)
      | _ =>
          match ParseUint_loop body 0 with
          | UintSyntax => (0, true)
          | UintRange => (if neg then - 2 ^ 63 else 2 ^ 63 - 1, true)
          | UintOk un =>
              if negb neg && (2 ^ 63 <=? un) then (2 ^ 63 - 1, true)
              else if neg && (2 ^ 63 <? un) then (- 2 ^ 63, true)
              else (if neg then - un else un, false)
          end
      end
  end.

(** The digit loop of the fast path of [Atoi]. *)
Fixpoint atoi_digits (s : string) (n : Z) : option Z :=
  match s with
  | "" => Some n
  | String c s' =>
      if is_digit c then atoi_digits s' (n * 10 + (byte_of c - 48))
      else None
  end.

(** [strconv.Atoi]: the value and whether an error is returned.  Texts of
    fewer than 19 characters go through the fast path, the others through
    [ParseInt]. *)
Definition Atoi (s : string) : Z * bool :=
  let sLen := String.length s in
  if (0 <? sLen)%nat && (sLen <? 19)%nat then
    match s with
    | "" => (0, true)
    | String c s' =>
        let signed :=
          strings.eqb_ascii c "-" || strings.eqb_ascii c "+" in
        let body := if signed then s' else s in
        if signed && strings.is_empty body then (0, true)
        else
          match atoi_digits body 0 with
          | None => (0, true)
          | Some n => (if strings.eqb_ascii c "-" then - n else n, false)
          end
    end
  else ParseInt_value s.

End strconv.

(** ** [encoding/json] for a [map[string]int] *)

Module json.

Inductive token : Type :=
| TLBrace | TRBrace | TLBracket | TRBracket | TColon | TComma
| TString (s : string)
| TNumber (lit : string)
| TTrue | TFalse | TNull.

(** *** Encoding *)

(** [htmlSafeSet]: the ASCII bytes written as they are. *)
Definition htmlSafe (b : Z) : bool :=
  (32 <=? b) && (b <? 128) && negb (b =? 34) && negb (b =? 92) &&
  negb (b =? 60) && negb (b =? 62) && negb (b =? 38).

Definition hex (d : Z) : ascii := netip.digit_char d.

Definition backslash : ascii := "092"%char.
Definition dquote : ascii := "034"%char.

(** The escape written for an ASCII byte outside [htmlSafeSet]. *)
Definition escape_byte (b : Z) : string :=
  if (b =? 92) || (b =? 34) then String backslash (String (chr b) "")
  else if b =? 8 then String backslash "b"
  else if b =? 12 then String backslash "f"
  else if b =? 10 then String backslash "n"
  else if b =? 13 then String backslash "r"
  else if b =? 9 then String backslash "t"
  else String backslash
         ("u00" +:+ String (hex (Z.shiftr b 4)) (String (hex (Z.land b 15)) "")).

(** The loop of [appendString] with [escapeHTML] set.  [skip] counts the
    bytes of the current multi-byte rune still to pass, [keep] says
    whether they are copied. *)
Fixpoint appendString_loop (skip : nat) (keep : bool) (s : string) : string :=
  match s with
  | "" => ""
  | String c s' =>
      match skip with
      | S k =>
          if keep then String c (appendString_loop k keep s')
          else appendString_loop k keep s'
      | O =>
          let b := byte_of c in
          if b <? utf8.RuneSelf then
            if htmlSafe b then String c (appendString_loop 0 true s')
            else escape_byte b +:+ appendString_loop 0 true s'
          else
            let (r, size) := utf8.DecodeRuneInString s in
            if (r =? utf8.RuneError) && (size =? 1)%nat then
              String backslash "ufffd" +:+ appendString_loop 0 true s'
            else if (r =? 8232) || (r =? 8233) then
              String backslash "u202" +:+
              String (hex (Z.land r 15))
                (appendString_loop (Nat.pred size) false s')
            else String c (appendString_loop (Nat.pred size) true s')
      end
  end.

Definition appendString (s : string) : string :=
  String dquote (appendString_loop 0 true s +:+ String dquote "").

(** Keys are written in the order of [strings.Compare]. *)
Definition key_le (a b : string * Z) : Prop := String.leb a.1 b.1 = true.
#[global] Instance key_le_dec : RelDecision key_le.
Proof. intros a b. unfold key_le. apply _. Defined.

Definition sorted_entries (m : gmap string Z) : list (string * Z) :=
  merge_sort key_le (map_to_list m).

Definition newline : ascii := "010"%char.

(** One member as [MarshalIndent(s, "", "  ")] lays it out: a new line,
    two spaces, the key, a colon, a space, the number. *)
Definition member (kv : string * Z) : string :=
  String newline "  " +:+ appendString kv.1 +:+ ": " +:+ strconv.FormatInt kv.2.

Fixpoint members (l : list (string * Z)) : string :=
  match l with
  | [] => ""
  | [kv] => member kv
  | kv :: l' => member kv +:+ "," +:+ members l'
  end.

(** [json.MarshalIndent(s, "", "  ")] for [s : map[string]int]: [null] for
    the nil map, [{}] for an empty one, otherwise one member per line in
    key order between the braces. *)
Definition MarshalIndent (s : option (gmap string Z)) : string :=
  match s with
  | None => "null"
  | Some m =>
      match sorted_entries m with
      | [] => "{}"
      | l => "{" +:+ members l +:+ String newline "}"
      end
  end.

(** *** Scanning *)

Inductive num_state : Type :=
| NNeg | N0 | N1 | NDot | NDot0 | NE | NESign | NE0.

Definition num_accepting (st : num_state) : bool :=
  match st with
  | N0 | N1 | NDot0 | NE0 => true
  | _ => false
  end.

Definition is_e (c : ascii) : bool :=
  strings.eqb_ascii c "e" || strings.eqb_ascii c "E".

(** One step inside a number; [None] when the character does not continue
    it. *)
Definition num_step (st : num_state) (c : ascii) : option num_state :=
  match st with
  | NNeg =>
      if strings.eqb_ascii c "0" then Some N0
      else if is_digit c then Some N1 else None
  | N0 =>
      if strings.eqb_ascii c "." then Some NDot
      else if is_e c then Some NE else None
  | N1 =>
      if is_digit c then Some N1
      else if strings.eqb_ascii c "." then Some NDot
      else if is_e c then Some NE else None
  | NDot => if is_digit c then Some NDot0 else None
  | NDot0 =>
      if is_digit c then Some NDot0
      else if is_e c then Some NE else None
  | NE =>
      if strings.eqb_ascii c "+" || strings.eqb_ascii c "-" then Some NESign
      else if is_digit c then Some NE0 else None
  | NESign => if is_digit c then Some NE0 else None
  | NE0 => if is_digit c then Some NE0 else None
  end.

Inductive lex_state : Type :=
| LStart
| LString (acc : string) (skip : nat)
| LNumber (st : num_state) (lit : string)
| LWord (rest : string) (tok : token).

Definition isSpace (c : ascii) : bool :=
  let b := byte_of c in (b =? 32) || (b =? 9) || (b =? 13) || (b =? 10).

(** A character met between two tokens. *)
Definition start_char (c : ascii) : option (lex_state * list token) :=
  if isSpace c then Some (LStart, [])
  else if strings.eqb_ascii c "{" then Some (LStart, [TLBrace])
  else if strings.eqb_ascii c "}" then Some (LStart, [TRBrace])
  else if strings.eqb_ascii c "[" then Some (LStart, [TLBracket])
  else if strings.eqb_ascii c "]" then Some (LStart, [TRBracket])
  else if strings.eqb_ascii c ":" then Some (LStart, [TColon])
  else if strings.eqb_ascii c "," then Some (LStart, [TComma])
  else if strings.eqb_ascii c dquote then Some (LString "" 0, [])
  else if strings.eqb_ascii c "-" then Some (LNumber NNeg "-", [])
  else if strings.eqb_ascii c "0" then Some (LNumber N0 "0", [])
  else if is_digit c then Some (LNumber N1 (String c ""), [])
  else if strings.eqb_ascii c "t" then Some (LWord "rue" TTrue, [])
  else if strings.eqb_ascii c "f" then Some (LWord "alse" TFalse, [])
  else if strings.eqb_ascii c "n" then Some (LWord "ull" TNull, [])
  else None.

(** [getu4]: the value of four hexadecimal digits. *)
Definition u4 (h1 h2 h3 h4 : ascii) : option Z :=
  a ← netip.hexval h1; b ← netip.hexval h2;
  c ← netip.hexval h3; d ← netip.hexval h4;
  Some (((a * 16 + b) * 16 + c) * 16 + d).

Definition isSurrogate (r : Z) : bool := (55296 <=? r) && (r <? 57344).

(** [utf16.DecodeRune]. *)
Definition utf16_DecodeRune (r1 r2 : Z) : Z :=
  if (55296 <=? r1) && (r1 <? 56320) && (56320 <=? r2) && (r2 <? 57344)
  then Z.lor (Z.shiftl (r1 - 55296) 10) (r2 - 56320) + 65536
  else utf8.RuneError.

(** The escape that follows a backslash: the bytes it stands for and the
    number of characters it takes. *)
Definition escape (s : string) : option (string * nat) :=
  match s with
  | "" => None
  | String e s1 =>
      let b := byte_of e in
      if (b =? 34) || (b =? 92) || (b =? 47) then Some (String e "", 1%nat)
      else if strings.eqb_ascii e "b" then Some (String (chr 8) "", 1%nat)
      else if strings.eqb_ascii e "f" then Some (String (chr 12) "", 1%nat)
      else if strings.eqb_ascii e "n" then Some (String (chr 10) "", 1%nat)
      else if strings.eqb_ascii e "r" then Some (String (chr 13) "", 1%nat)
      else if strings.eqb_ascii e "t" then Some (String (chr 9) "", 1%nat)
      else if strings.eqb_ascii e "u" then
        match s1 with
        | String h1 (String h2 (String h3 (String h4 s2))) =>
            match u4 h1 h2 h3 h4 with
            | None => None
            | Some rr =>
                if isSurrogate rr then
                  let rr1 :=
                    match s2 with
                    | String b1 (String b2
                        (String k1 (String k2 (String k3 (String k4 _))))) =>
                        if strings.eqb_ascii b1 backslash &&
                           strings.eqb_ascii b2 "u"
                        then default (-1) (u4 k1 k2 k3 k4) else -1
                    | _ => -1
                    end in
                  let dec := utf16_DecodeRune rr rr1 in
                  if negb (dec =? utf8.RuneError)
                  then Some (utf8.EncodeRune dec, 11%nat)
                  else Some (utf8.EncodeRune utf8.RuneError, 5%nat)
                else Some (utf8.EncodeRune rr, 5%nat)
            end
        | _ => None
        end
      else None
  end.

(** The scanner, cut into tokens; string literals come out unquoted.
    [None] is a syntax error. *)
Fixpoint lex (st : lex_state) (s : string) : option (list token) :=
  match s with
  | "" =>
      match st with
      | LStart => Some []
      | LNumber ns lit => if num_accepting ns then Some [TNumber lit] else None
      | _ => None
      end
  | String c s' =>
      match st with
      | LStart =>
          match start_char c with
          | Some (st', toks) => (toks ++.) <$> lex st' s'
          | None => None
          end
      | LWord (String e rest) tok =>
          if strings.eqb_ascii c e then
            match rest with
            | "" => (tok ::.) <$> lex LStart s'
            | _ => lex (LWord rest tok) s'
            end
          else None
      | LWord "" _ => None
      | LNumber ns lit =>
          match num_step ns c with
          | Some ns' => lex (LNumber ns' (lit +:+ String c "")) s'
          | None =>
              if num_accepting ns then
                match start_char c with
                | Some (st', toks) => ((TNumber lit :: toks) ++.) <$> lex st' s'
                | None => None
                end
              else None
          end
      | LString acc (S k) => lex (LString acc k) s'
      | LString acc O =>
          let b := byte_of c in
          if strings.eqb_ascii c dquote then (TString acc ::.) <$> lex LStart s'
          else if strings.eqb_ascii c backslash then
            match escape s' with
            | Some (out, n) => lex (LString (acc +:+ out) n) s'
            | None => None
            end
          else if b <? 32 then None
          else if b <? utf8.RuneSelf then
            lex (LString (acc +:+ String c "") 0) s'
          else
            let (r, size) := utf8.DecodeRuneInString s in
            lex (LString (acc +:+ utf8.EncodeRune r) (Nat.pred size)) s'
      end
  end.

Definition tokenize (s : string) : option (list token) := lex LStart s.

End json.

Module json_decode.
Import json.

(** *** Validity ([checkValid])

    The scanner's stack of parse states, over the tokens. *)
Inductive ctx : Type := CObject | CArray.

Inductive gstate : Type :=
| GValue      (* a value must follow *)
| GArrFirst   (* after [[]: a value or []] *)
| GObjFirst   (* after [{]: a key or [}] *)
| GObjKey     (* after a comma in an object: a key *)
| GColon      (* after a key: a colon *)
| GAfter.     (* after a value: a comma, a closing bracket, or the end *)

Definition maxNestingDepth : Z := 10000.

Definition push (c : ctx) (st : gstate) (stack : list ctx)
  : option (gstate * list ctx) :=
  if Z.of_nat (S (length stack)) <=? maxNestingDepth then Some (st, c :: stack)
  else None.

(** A token where a value may start. *)
Definition begin_value (t : token) (stack : list ctx)
  : option (gstate * list ctx) :=
  match t with
  | TLBrace => push CObject GObjFirst stack
  | TLBracket => push CArray GArrFirst stack
  | TString _ | TNumber _ | TTrue | TFalse | TNull => Some (GAfter, stack)
  | _ => None
  end.

Definition gstep (st : gstate) (stack : list ctx) (t : token)
  : option (gstate * list ctx) :=
  match st with
  | GValue => begin_value t stack
  | GArrFirst =>
      match t, stack with
      | TRBracket, CArray :: stack' => Some (GAfter, stack')
      | _, _ => begin_value t stack
      end
  | GObjFirst =>
      match t, stack with
      | TRBrace, CObject :: stack' => Some (GAfter, stack')
      | TString _, _ => Some (GColon, stack)
      | _, _ => None
      end
  | GObjKey =>
      match t with
      | TString _ => Some (GColon, stack)
      | _ => None
      end
  | GColon =>
      match t with
      | TColon => Some (GValue, stack)
      | _ => None
      end
  | GAfter =>
      match t, stack with
      | TComma, CObject :: _ => Some (GObjKey, stack)
      | TComma, CArray :: _ => Some (GValue, stack)
      | TRBrace, CObject :: stack' => Some (GAfter, stack')
      | TRBracket, CArray :: stack' => Some (GAfter, stack')
      | _, _ => None
      end
  end.

Fixpoint valid (st : gstate) (stack : list ctx) (toks : list token) : bool :=
  match toks with
  | [] =>
      match st, stack with
      | GAfter, [] => true
      | _, _ => false
      end
  | t :: toks' =>
      match gstep st stack t with
      | Some (st', stack') => valid st' stack' toks'
      | None => false
      end
  end.

Definition checkValid (data : string) : option (list token) :=
  match tokenize data with
  | Some toks => if valid GValue [] toks then Some toks else None
  | None => None
  end.

(** *** Decoding into a [map[string]int] *)

Inductive dstate : Type :=
| DKey                  (* a key or the closing brace *)
| DColon (k : string)
| DValue (k : string)
| DSkip (depth : nat)   (* inside a value that is not stored *)
| DNext.                (* a comma or the closing brace *)

(** The loop of [decodeState.object] for a map with [string] keys and
    [int] elements.  Every key is stored: with the number when the value
    is an integer literal that [strconv.ParseInt] accepts, with zero
    otherwise, and then (but for [null]) a type error is recorded in
    [err]. *)
Fixpoint object (st : dstate) (m : gmap string Z) (err : bool)
         (toks : list token) : gmap string Z * bool :=
  match toks with
  | [] => (m, err)
  | t :: toks' =>
      match st with
      | DKey =>
          match t with
          | TString k => object (DColon k) m err toks'
          | _ => (m, err)
          end
      | DColon k => object (DValue k) m err toks'
      | DValue k =>
          match t with
          | TNumber lit =>
              match strconv.ParseInt lit with
              | Some n => object DNext (<[k := n]> m) err toks'
              | None => object DNext (<[k := 0]> m) true toks'
              end
          | TNull => object DNext (<[k := 0]> m) err toks'
          | TLBrace | TLBracket => object (DSkip 1) (<[k := 0]> m) true toks'
          | _ => object DNext (<[k := 0]> m) true toks'
          end
      | DSkip depth =>
          match t with
          | TLBrace | TLBracket => object (DSkip (S depth)) m err toks'
          | TRBrace | TRBracket =>
              match depth with
              | S (S d) => object (DSkip (S d)) m err toks'
              | _ => object DNext m err toks'
              end
          | _ => object (DSkip depth) m err toks'
          end
      | DNext =>
          match t with
          | TComma => object DKey m err toks'
          | _ => (m, err)
          end
      end
  end.

Inductive error : Type := SyntaxError | UnmarshalTypeError.

(** [json.Unmarshal(data, &s)] for [s : map[string]int]: the new value of
    [s] and the error returned.  Nothing is stored unless the whole text
    is valid JSON. *)
Definition Unmarshal (data : string) (s : option (gmap string Z))
  : option (gmap string Z) * option error :=
  match checkValid data with
  | None => (s, Some SyntaxError)
  | Some toks =>
      match toks with
      | TNull :: _ => (None, None)
      | TLBrace :: toks' =>
          let (m, err) := object DKey (default ∅ s) false toks' in
          (Some m, if err then Some UnmarshalTypeError else None)
      | _ => (s, Some UnmarshalTypeError)
      end
  end.

End json_decode.

(** ** [os]: the files the program reads and writes *)

Module os.

(** What is found at a path: a regular file, or something that can be
    neither read nor written as one (a directory). *)
Inductive node : Type :=
| Regular (content : string)
| Directory.

Definition FS : Type := gmap string node.

Inductive error : Type := ErrNotExist | ErrOther.

Definition IsNotExist (e : error) : bool :=
  match e with
  | ErrNotExist => true
  | ErrOther => false
  end.

Definition ReadFile (fs : FS) (path : string) : string + error :=
  match fs !! path with
  | None => inr ErrNotExist
  | Some (Regular content) => inl content
  | Some Directory => inr ErrOther
  end.

(** [os.WriteFile(path, b, 0644)]: the file is created or truncated and
    written. *)
Definition WriteFile (fs : FS) (path : string) (b : string)
  : FS * option error :=
  match fs !! path with
  | Some Directory => (fs, Some ErrOther)
  | _ => (<[path := Regular b]> fs, None)
  end.

End os.

(** ** [bufio]: a [Scanner] splitting lines *)

Module bufio.

Definition MaxScanTokenSize : Z := 65536.

(** [dropCR]: one carriage return at the end is dropped. *)
Fixpoint dropCR (s : string) : string :=
  match s with
  | "" => ""
  | String c s' =>
      if strings.is_empty s' && strings.eqb_ascii c "013" then ""
      else String c (dropCR s')
  end.

(** The texts [Scanner.Text] gives over the successive calls of [Scan],
    with [ScanLines] as split function and the default buffer.  [cur] is
    the part of the current line already met and [len] its length.  A line
    ends at a line feed or at the end of the data; the last line is
    dropped when it is empty.  A line that does not fit the buffer
    ([MaxScanTokenSize] bytes with no line feed among them) ends the scan
    with [ErrTooLong]: [Scan] answers false and what follows is not read. *)
Fixpoint scan_lines (data : string) (cur : string) (len : Z) : list string :=
  match data with
  | "" => if len =? 0 then [] else [dropCR cur]
  | String c data' =>
      if strings.eqb_ascii c "010" then dropCR cur :: scan_lines data' "" 0
      else if MaxScanTokenSize <=? len + 1 then []
      else scan_lines data' (cur +:+ String c "") (len + 1)
  end.

Definition lines (data : string) : list string := scan_lines data "" 0.

End bufio.

(* --------------------------------------------------------------------- *)
(** ** The program: [main.go]                                             *)
(* --------------------------------------------------------------------- *)

(** *** [sanitizeIP] (main.go, lines 93-112) *)

Definition sanitizeIP (raw : string) : string :=
  (* Trim quotes *)
  let raw := strings.Trim raw "034"%char in
  (* Split on comma (CSV) *)
  let raw :=
    if strings.Contains raw "," then hd "" (strings.Split raw ",") else raw in
  (* Remove spaces *)
  let raw := strings.TrimSpace raw in
  (* Validate *)
  match net.ParseIP raw with
  | None => ""
  | Some ip => net.String_ ip
  end.

(** *** [isWhitelisted] (main.go, lines 192-212) *)

Fixpoint whitelist_loop (ip : string) (p : net.IP) (wl : list string) : bool :=
  match wl with
  | [] => false
  | entry :: wl' =>
      let entry := strings.TrimSpace entry in
      if negb (strings.Contains entry "/") then
        if bool_decide (entry = ip) then true
        else whitelist_loop ip p wl'
      else
        match net.ParseCIDR entry with
        | Some cidr =>
            if net.Contains cidr p then true else whitelist_loop ip p wl'
        | None => whitelist_loop ip p wl'
        end
  end.

Definition isWhitelisted (ip : string) (wl : list string) : bool :=
  match net.ParseIP ip with
  | None => false
  | Some p => whitelist_loop ip p wl
  end.

(** *** [loadState] and [saveState] (main.go, lines 216-233) *)

Definition loadState (fs : os.FS) (path : string)
  : option (gmap string Z) * option os.error :=
  match os.ReadFile fs path with
  | inr err =>
      if os.IsNotExist err then (Some ∅, None)
      else (None, Some err)
  | inl raw =>
      let s : option (gmap string Z) := None in
      let (s, _) := json_decode.Unmarshal raw s in
      (s, None)
  end.

Definition saveState (fs : os.FS) (path : string) (s : option (gmap string Z))
  : os.FS :=
  let b := json.MarshalIndent s in
  let (fs', _) := os.WriteFile fs path b in
  fs'.

(** *** [getTimeout] (main.go, lines 237-242) *)

Definition getTimeout (count : Z) (hours : list Z) : result string :=
  if count <=? Z.of_nat (length hours) then
    h ← index hours (count - 1);
    Ok (fmt.Sprintf_02d_00_00 h)
  else Ok "0".

(** *** [main]: the loop over the addresses (main.go, lines 266-327) *)

Record Config : Type := {
  MtHost : string;
  MtUser : string;
  MtPass : string;
  ListTemp : string;
  ListPerm : string;
  Whitelist : list string;
  StateFile : string;
  Escalation : list Z
}.

(** The lines written with [log.Printf] in the loop. *)
Inductive log_line : Type :=
| LogInvalid
| LogSkip (ip : string)
| LogPermanent (ip : string)
| LogTimed (ip : string) (attempt : Z) (timeout : string)
| LogBlockFailed (ip : string).

(** [state[ip]] and [state[ip]++] on a map that may be nil. *)
Definition map_get (state : option (gmap string Z)) (ip : string) : Z :=
  match state with
  | Some m => default 0 (m !! ip)
  | None => 0
  end.

Definition map_incr (state : option (gmap string Z)) (ip : string)
  : result (option (gmap string Z)) :=
  match state with
  | Some m => Ok (Some (<[ip := wrap_int (default 0 (m !! ip) + 1)]> m))
  | None => Panic NilMapAssignment
  end.

Section Main.

(** The RouterOS client: [client.RunArgs(sentence)] answers with the new
    state of the connection and whether it returned an error. *)
Context {Client : Type}.
Variable RunArgs : Client -> list string -> Client * bool.

Record run : Type := {
  state : option (gmap string Z);
  client : Client;
  sent : list (list string);
  logged : list log_line
}.

Definition directive (list_name ip timeout : string) : list string :=
  ["/ip/firewall/address-list/add";
   "=list=" +:+ list_name;
   "=address=" +:+ ip;
   "=timeout=" +:+ timeout].

(** One round of [for _, ip := range ips]. *)
Definition process (cfg : Config) (r : run) (raw : string) : result run :=
  (* 1) sanitize *)
  let ip := sanitizeIP raw in
  if bool_decide (ip = "") then
    Ok {| state := state r; client := client r; sent := sent r;
          logged := logged r ++ [LogInvalid] |}
  (* 2) whitelist *)
  else if isWhitelisted ip (Whitelist cfg) then
    Ok {| state := state r; client := client r; sent := sent r;
          logged := logged r ++ [LogSkip ip] |}
  else
    (* 3) state update *)
    state' ← map_incr (state r) ip;
    timeout ← getTimeout (map_get state' ip) (Escalation cfg);
    (* 4) permanent block *)
    if bool_decide (timeout = "0") then
      let d := directive (ListPerm cfg) ip "0" in
      let (client', _) := RunArgs (client r) d in
      Ok {| state := state'; client := client'; sent := sent r ++ [d];
            logged := logged r ++ [LogPermanent ip] |}
    else
      (* 5) temporary (escalated) block *)
      let d := directive (ListTemp cfg) ip timeout in
      let (client', err) := RunArgs (client r) d in
      Ok {| state := state'; client := client'; sent := sent r ++ [d];
            logged := logged r ++
                      LogTimed ip (map_get state' ip) timeout ::
                      (if err then [LogBlockFailed ip] else []) |}.

Fixpoint loop (cfg : Config) (r : run) (ips : list string) : result run :=
  match ips with
  | [] => Ok r
  | raw :: ips' => r' ← process cfg r raw; loop cfg r' ips'
  end.

(** [main] from [loadState] on.  What comes before and around it is taken
    as given: the configuration read by [loadConfig], the addresses read by
    [loadIPsFromCSV] and the client returned by [routeros.Dial] (a failure
    of any of them ends the program with [log.Fatalf] before the loop).
    The state is loaded, the loop runs, the state is saved; a panic in the
    loop ends the program before [saveState]. *)
Definition main (cfg : Config) (fs : os.FS) (ips : list string)
           (c : Client) : result (os.FS * run) :=
  let (state0, _) := loadState fs (StateFile cfg) in
  r ← loop cfg {| state := state0; client := c; sent := []; logged := [] |} ips;
  Ok (saveState fs (StateFile cfg) (state r), r).

End Main.

Arguments run : clear implicits.

(** *** [loadConfig] (main.go, lines 116-160) *)

(** [&Config{}]: every field at its zero value. *)
Definition empty_config : Config := {|
  MtHost := ""; MtUser := ""; MtPass := ""; ListTemp := ""; ListPerm := "";
  Whitelist := []; StateFile := ""; Escalation := []
|}.

(** The [switch key] of the loop. *)
Definition assign (cfg : Config) (key val : string) : Config :=
  if bool_decide (key = "MT_HOST") then
    {| MtHost := val; MtUser := MtUser cfg; MtPass := MtPass cfg;
       ListTemp := ListTemp cfg; ListPerm := ListPerm cfg;
       Whitelist := Whitelist cfg; StateFile := StateFile cfg;
       Escalation := Escalation cfg |}
  else if bool_decide (key = "MT_USER") then
    {| MtHost := MtHost cfg; MtUser := val; MtPass := MtPass cfg;
       ListTemp := ListTemp cfg; ListPerm := ListPerm cfg;
       Whitelist := Whitelist cfg; StateFile := StateFile cfg;
       Escalation := Escalation cfg |}
  else if bool_decide (key = "MT_PASS") then
    {| MtHost := MtHost cfg; MtUser := MtUser cfg; MtPass := val;
       ListTemp := ListTemp cfg; ListPerm := ListPerm cfg;
       Whitelist := Whitelist cfg; StateFile := StateFile cfg;
       Escalation := Escalation cfg |}
  else if bool_decide (key = "LIST_TEMP") then
    {| MtHost := MtHost cfg; MtUser := MtUser cfg; MtPass := MtPass cfg;
       ListTemp := val; ListPerm := ListPerm cfg;
       Whitelist := Whitelist cfg; StateFile := StateFile cfg;
       Escalation := Escalation cfg |}
  else if bool_decide (key = "LIST_PERM") then
    {| MtHost := MtHost cfg; MtUser := MtUser cfg; MtPass := MtPass cfg;
       ListTemp := ListTemp cfg; ListPerm := val;
       Whitelist := Whitelist cfg; StateFile := StateFile cfg;
       Escalation := Escalation cfg |}
  else if bool_decide (key = "WHITELIST") then
    {| MtHost := MtHost cfg; MtUser := MtUser cfg; MtPass := MtPass cfg;
       ListTemp := ListTemp cfg; ListPerm := ListPerm cfg;
       Whitelist := strings.Split val ","; StateFile := StateFile cfg;
       Escalation := Escalation cfg |}
  else if bool_decide (key = "STATE_FILE") then
    {| MtHost := MtHost cfg; MtUser := MtUser cfg; MtPass := MtPass cfg;
       ListTemp := ListTemp cfg; ListPerm := ListPerm cfg;
       Whitelist := Whitelist cfg; StateFile := val;
       Escalation := Escalation cfg |}
  else if bool_decide (key = "ESCALATE_1") || bool_decide (key = "ESCALATE_2")
          || bool_decide (key = "ESCALATE_3") then
    let (h, _) := strconv.Atoi val in
    {| MtHost := MtHost cfg; MtUser := MtUser cfg; MtPass := MtPass cfg;
       ListTemp := ListTemp cfg; ListPerm := ListPerm cfg;
       Whitelist := Whitelist cfg; StateFile := StateFile cfg;
       Escalation := Escalation cfg ++ [h] |}
  else cfg.

(** One round of [for _, ln := range lines]. *)
Definition config_line (cfg : Config) (ln : string) : Config :=
  let ln := strings.TrimSpace ln in
  if strings.is_empty ln || strings.HasPrefix ln "#" then cfg
  else
    match strings.SplitN2 ln "=" with
    | [key; val] => assign cfg key val
    | _ => cfg
    end.

Definition loadConfig (fs : os.FS) (path : string) : Config + os.error :=
  match os.ReadFile fs path with
  | inr err => inr err
  | inl raw => inl (foldl config_line empty_config (strings.Split raw "010"))
  end.

(** *** [loadIPsFromCSV] (main.go, lines 164-188) *)

(** The body of the loop for a line after the first: the value appended,
    if any. *)
Definition csv_value (text : string) : option string :=
  let v := strings.TrimSpace text in
  let v := strings.Trim v "034" in
  if strings.is_empty v then None else Some v.

(** [os.Open] fails on a missing file.  On a directory it succeeds and the
    first read fails: [Scan] answers false at once, the error of the
    scanner is not looked at, and no address is returned, with no error. *)
Definition loadIPsFromCSV (fs : os.FS) (path : string)
  : list string + os.error :=
  match fs !! path with
  | None => inr os.ErrNotExist
  | Some os.Directory => inl []
  | Some (os.Regular content) =>
      match bufio.lines content with
      | [] => inl []
      | _ :: rows => inl (omap csv_value rows)
      end
  end.
(** ** Notions used to state the properties *)

(** The permanent sentinel tested by [main] ([timeout == "0"]). *)
Definition permanent : string := "0".

(** The shape [HH:00:00]: eight characters, two decimal digits followed by
    the minutes and seconds fields. *)
Definition is_HH_00_00 (s : string) : bool :=
  match s with
  | String d1 (String d0 rest) =>
      is_digit d1 && is_digit d0 && bool_decide (rest = ":00:00")
  | _ => false
  end.

(** The two-digit rendering of an hour in [0, 99]. *)
Definition two_digits (h : Z) : string :=
  String (chr (48 + h / 10)) (String (chr (48 + h mod 10)) "").

(** The text left after a hexadecimal group does not go on with a digit. *)
Definition stops_hex (r : string) : Prop :=
  match r with
  | "" => True
  | String c _ => netip.hexval c = None
  end.

(** A byte. *)
Definition is_byte (b : Z) : Prop := 0 <= b < 256.

(** Every character of [s] satisfies [P]. *)
Fixpoint all_chars (P : ascii -> bool) (s : string) : bool :=
  match s with
  | "" => true
  | String c s' => P c && all_chars P s'
  end.

(** Decimal digits, the hexadecimal digits [a] to [f], the colon and the dot. *)
Definition addr_char (c : ascii) : bool :=
  let b := byte_of c in
  ((48 <=? b) && (b <=? 58)) || ((97 <=? b) && (b <=? 102)) || (b =? 46).

(** Sixteen bytes: an address as [ParseIP] returns it. *)
Definition wf_ip (ip : list Z) : Prop :=
  length ip = 16%nat /\ Forall is_byte ip.

(** The run of zero groups found by the printer: none, or at least two
    groups that are all zero. *)
Definition run_ok (ip : list Z) (zs ze : nat) : Prop :=
  (zs = 255 /\ ze = 255)%nat \/
  ((zs + 2 <= ze)%nat /\ (ze <= 8)%nat /\
   forall k, (zs <= k < ze)%nat -> netip.v6u16 ip k = 0).

(** [n] bytes. *)
Definition wf_bytes (n : nat) (l : list Z) : Prop :=
  length l = n /\ Forall is_byte l.

(** An address of [netip] with the right number of bytes. *)
Definition wf_addr (a : netip.Addr) : Prop :=
  match a with
  | netip.Addr4 fields => wf_bytes 4 fields
  | netip.Addr6 ip _ => wf_bytes 16 ip
  end.

(** A canonical address: the text [IP.String] gives for sixteen bytes. *)
Definition canonical (s : string) : Prop :=
  exists ip, wf_ip ip /\ s = net.String_ ip.

(** A whitelist entry matches the address [ip], parsed as [p]: a CIDR entry
    by containment, any other entry by equality of the texts.  An entry with
    a slash that is no CIDR matches nothing. *)
Definition entry_matches (ip : string) (p : net.IP) (entry : string) : bool :=
  let e := strings.TrimSpace entry in
  if strings.Contains e "/" then
    match net.ParseCIDR e with
    | Some cidr => net.Contains cidr p
    | None => false
    end
  else bool_decide (e = ip).

(** The same on the text of the address alone. *)
Definition whitelist_match (ip entry : string) : Prop :=
  let e := strings.TrimSpace entry in
  if strings.Contains e "/" then
    exists cidr p,
      net.ParseCIDR e = Some cidr /\ net.ParseIP ip = Some p /\
      net.Contains cidr p = true
  else e = ip.

(** What a run leaves behind, the answers of the router and the log left
    out: the offense counts and the directives sent. *)
Definition observable {Client : Type} (r : run Client)
  : option (gmap string Z) * list (list string) :=
  (state r, sent r).

(** The same for a round or a loop that may have ended in a panic, and the
    file system left by [main]. *)
Definition outcome {Client : Type} (x : result (run Client))
  : result (option (gmap string Z) * list (list string)) :=
  r ← x; Ok (observable r).

Definition saved {Client : Type} (x : result (os.FS * run Client))
  : result os.FS :=
  p ← x; Ok p.1.

(** Two routers for the examples: one that accepts every sentence and one
    that refuses every sentence. *)
Definition accepting : unit -> list string -> unit * bool :=
  fun c _ => (c, false).

Definition refusing : unit -> list string -> unit * bool :=
  fun c _ => (c, true).

(** The configuration written by [ensureConfig], read by [loadConfig]. *)
Definition default_config : Config := {|
  MtHost := "192.168.88.1:8728";
  MtUser := "admin";
  MtPass := "yourpassword";
  ListTemp := "blocked_attackers";
  ListPerm := "blocked_permanent";
  Whitelist := ["8.8.8.8"; "192.168.1.0/24"];
  StateFile := "/opt/htb_blocker/state.json";
  Escalation := [1; 3; 7]
|}.

(** A run about to start on an empty table, and the run after the first
    offense of 203.0.113.25 when the router refuses the directive. *)
Definition run0 : run unit :=
  {| state := Some ∅; client := tt; sent := []; logged := [] |}.

Definition run1 : run unit :=
  {| state := Some {[ "203.0.113.25" := 1 ]};
     client := tt;
     sent := [directive "blocked_attackers" "203.0.113.25" "01:00:00"];
     logged := [LogTimed "203.0.113.25" 1 "01:00:00";
                LogBlockFailed "203.0.113.25"] |}.

(** A file system holding only a state file, with the given content. *)
Definition state_file (content : string) : os.FS :=
  {[ StateFile default_config := os.Regular content ]}.

(** A state file that is valid JSON of the wrong shape: an object whose
    one member has a string where the count should be. *)
Definition wrong_shape : string :=
  "{" +:+ json.appendString "198.51.100.50" +:+ ": " +:+
  json.appendString "three" +:+ "}".

(** A text of decimal digits only. *)
Definition all_digits (s : string) : bool := all_chars is_digit s.

(** An ASCII character, and a key made of ASCII characters only (every
    canonical address is one). *)
Definition is_ascii (c : ascii) : bool := byte_of c <? utf8.RuneSelf.
Definition ascii_key (k : string) : Prop := all_chars is_ascii k = true.

(** A table of offense counts as the program can hold one: the keys are
    ASCII texts and the counts are values of Go's [int]. *)
Definition wf_state (s : option (gmap string Z)) : Prop :=
  match s with
  | None => True
  | Some m => map_Forall (fun k v => ascii_key k /\ is_int v) m
  end.

(** The tokens of one member and of the members of an object. *)
Definition member_tokens (kv : string * Z) : list json.token :=
  [json.TString kv.1; json.TColon; json.TNumber (strconv.FormatInt kv.2)].

Fixpoint members_tokens (l : list (string * Z)) : list json.token :=
  match l with
  | [] => []
  | [kv] => member_tokens kv
  | kv :: l' => member_tokens kv ++ json.TComma :: members_tokens l'
  end.

(** Storing one member in the table. *)
Definition store (m : gmap string Z) (kv : string * Z) : gmap string Z :=
  <[kv.1 := kv.2]> m.

(** ** Notions for the loop over a batch *)

(** A token of the batch that is counted: it yields an address and the
    address is not whitelisted. *)
Definition counted (cfg : Config) (raw : string) : bool :=
  negb (bool_decide (sanitizeIP raw = "")) &&
  negb (isWhitelisted (sanitizeIP raw) (Whitelist cfg)).

(** The counted tokens of a batch that stand for the address [ip], and
    their number. *)
Definition counted_as (cfg : Config) (ip : string) (raw : string) : bool :=
  counted cfg raw && bool_decide (sanitizeIP raw = ip).

Definition offenses (cfg : Config) (ip : string) (ips : list string) : Z :=
  Z.of_nat (length (List.filter (counted_as cfg ip) ips)).

(** [state[ip]] with the presence of the key, on a map that may be nil. *)
Definition map_lookup (state : option (gmap string Z)) (ip : string)
  : option Z :=
  m ← state; m !! ip.

(** The directive the program is expected to send for an address whose
    count has just become [count]. *)
Definition expected_directive (cfg : Config) (ip : string) (count : Z)
  : list string :=
  match Escalation cfg !! Z.to_nat (count - 1) with
  | Some h => directive (ListTemp cfg) ip (fmt.Sprintf_02d_00_00 h)
  | None => directive (ListPerm cfg) ip permanent
  end.

(** ** Notions for the texts around an address *)

(** The double quote, and a character that is ASCII and no white space. *)
Definition is_quote (c : ascii) : bool := strings.eqb_ascii c "034".

Definition solid (c : ascii) : bool :=
  is_ascii c && negb (strings.asciiSpace c).

(** A character that none of the cleaning steps of [sanitizeIP] removes or
    splits at: ASCII, no white space, no double quote, no comma. *)
Definition plain_char (c : ascii) : bool :=
  solid c && negb (is_quote c) && negb (strings.eqb_ascii c ",").

(** The last character of a text. *)
Fixpoint last_char (s : string) : option ascii :=
  match s with
  | "" => None
  | String c s' =>
      match s' with
      | "" => Some c
      | String _ _ => last_char s'
      end
  end.

(** A text that [TrimSpace] leaves as it is for having a solid character
    at both ends. *)
Definition trimmed (s : string) : bool :=
  match s with
  | "" => false
  | String c _ =>
      solid c && match last_char s with
                 | Some d => solid d
                 | None => false
                 end
  end.

(** The characters of the addresses [ParseIP] accepts: hexadecimal digits
    of either case, the colon and the dot. *)
Definition ip_char (c : ascii) : bool :=
  match netip.hexval c with
  | Some _ => true
  | None => strings.eqb_ascii c ":" || strings.eqb_ascii c "."
  end.

(** The number an IPv4 address stands for, most significant byte first. *)
Definition v4_number (b : list Z) : Z :=
  foldl (fun n x => n * 256 + x) 0 b.

(** ** Notions for the configuration file and the CSV file *)

Definition newline : ascii := "010".

(** The keys [loadConfig] knows, and those that add a tier to the
    schedule. *)
Definition escalate_keys : list string :=
  ["ESCALATE_1"; "ESCALATE_2"; "ESCALATE_3"].

Definition known_keys : list string :=
  ["MT_HOST"; "MT_USER"; "MT_PASS"; "LIST_TEMP"; "LIST_PERM"; "WHITELIST";
   "STATE_FILE"] ++ escalate_keys.

(** A line [loadConfig] passes over: blank, a comment, without an equals
    sign, or with a key it does not know. *)
Definition ignorable (ln : string) : Prop :=
  let t := strings.TrimSpace ln in
  t = "" \/
  strings.HasPrefix t "#" = true \/
  strings.Contains t "=" = false \/
  exists key val,
    t = key +:+ String "=" val /\ strings.Contains key "=" = false /\
    key ∉ known_keys.

(** A line that gives a tier of the schedule, and a file made of such
    lines, each ended by a line feed. *)
Definition escalate_line (kv : string * Z) : string :=
  kv.1 +:+ String "=" (strconv.FormatInt kv.2).

Definition unlines (lines : list string) : string :=
  foldr (fun ln text => ln +:+ String newline text) "" lines.

(** [cfg] with one more tier at the end of its schedule. *)
Definition add_tier (cfg : Config) (h : Z) : Config :=
  {| MtHost := MtHost cfg; MtUser := MtUser cfg; MtPass := MtPass cfg;
     ListTemp := ListTemp cfg; ListPerm := ListPerm cfg;
     Whitelist := Whitelist cfg; StateFile := StateFile cfg;
     Escalation := Escalation cfg ++ [h] |}.

(** The text [ensureConfig] writes (main.go, lines 67-87). *)
Definition defaultCfg : string :=
  unlines [
    "";
    "# MikroTik settings";
    "MT_HOST=192.168.88.1:8728";
    "MT_USER=admin";
    "MT_PASS=yourpassword";
    "";
    "# Lists";
    "LIST_TEMP=blocked_attackers";
    "LIST_PERM=blocked_permanent";
    "";
    "# Whitelist (comma separated)";
    "WHITELIST=8.8.8.8,192.168.1.0/24";
    "";
    "# State file";
    "STATE_FILE=/opt/htb_blocker/state.json";
    "";
    "# Escalation (hours)";
    "ESCALATE_1=1";
    "ESCALATE_2=3";
    "ESCALATE_3=7"
  ].

(** A row of a CSV file: a text with no line feed, short enough for the
    buffer of the scanner together with its line end. *)
Definition csv_row (r : string) : Prop :=
  strings.Contains r newline = false /\
  Z.of_nat (String.length r) < bufio.MaxScanTokenSize.

(** A CSV file: a header and rows, each ended by a line feed. *)
Definition csv_text (header : string) (rows : list string) : string :=
  unlines (header :: rows).

(** An address as a row of a CSV file may hold it: between optional double
    quotes, with optional ASCII white space around them (a carriage return
    before the line feed is such white space). *)
Definition decorated (w1 q1 a q2 w2 : string) : string :=
  w1 +:+ q1 +:+ a +:+ q2 +:+ w2.

(** The row [row] of a CSV file holds the text [a]: [a] is not empty and
    made of plain characters, and the row is [a] between runs of double
    quotes, themselves between runs of ASCII white space. *)
Definition holds_address (row a : string) : Prop :=
  exists w1 q1 q2 w2,
    row = decorated w1 q1 a q2 w2 /\
    all_chars strings.asciiSpace w1 = true /\
    all_chars is_quote q1 = true /\
    all_chars is_quote q2 = true /\
    all_chars strings.asciiSpace w2 = true /\
    all_chars plain_char a = true /\ a <> "".

(** A text of [n] times the character [c]. *)
Fixpoint repeat_char (c : ascii) (n : nat) : string :=
  match n with
  | O => ""
  | S n' => String c (repeat_char c n')
  end.
(* ===================================================================== *)
(** * Part II.  Properties                                                *)
(* ===================================================================== *)
(** ** Texts *)

Lemma app_String (c : ascii) (s t : string) :
  String c s +:+ t = String c (s +:+ t).
Proof. reflexivity. Qed.

Lemma app_Empty (t : string) : "" +:+ t = t.
Proof. reflexivity. Qed.

Lemma app_Empty_r (s : string) : s +:+ "" = s.
Proof. induction s as [|c s IH]; [done|]. by rewrite app_String, IH. Qed.

Lemma app_assoc_s (s t u : string) : (s +:+ t) +:+ u = s +:+ (t +:+ u).
Proof. induction s as [|c s IH]; [done|]. by rewrite !app_String, IH. Qed.

Ltac norm_app :=
  repeat first [rewrite app_assoc_s | rewrite app_String | rewrite app_Empty].

Lemma all_chars_app (P : ascii -> bool) (s t : string) :
  all_chars P (s +:+ t) = all_chars P s && all_chars P t.
Proof.
  induction s as [|c s IH]; [done|].
  rewrite app_String. cbn [all_chars]. by rewrite IH, andb_assoc.
Qed.

Lemma all_chars_impl (P Q : ascii -> bool) (s : string) :
  (forall c, P c = true -> Q c = true) ->
  all_chars P s = true -> all_chars Q s = true.
Proof.
  intros HPQ. induction s as [|c s IH]; [done|]. cbn [all_chars].
  intros [Hc Hs]%andb_true_iff. by rewrite (HPQ c Hc), IH.
Qed.

Lemma all_chars_get (P : ascii -> bool) (s : string) (n : nat) (c : ascii) :
  all_chars P s = true -> String.get n s = Some c -> P c = true.
Proof.
  revert n. induction s as [|a s IH]; intros n; [done|].
  cbn [all_chars String.get]. intros [Ha Hs]%andb_true_iff.
  destruct n as [|n]; [by intros [= <-]|]. by apply IH.
Qed.

Lemma check_below (f : Z -> bool) (n : nat) :
  forallb (fun k => f (Z.of_nat k)) (seq 0 n) = true ->
  forall d, 0 <= d < Z.of_nat n -> f d = true.
Proof.
  intros Hall d Hd. rewrite forallb_forall in Hall.
  rewrite <- (Z2Nat.id d) by lia. apply Hall.
  apply in_seq. lia.
Qed.

(** ** Decimal numbers: printing and parsing *)

Lemma is_digit_chr (d : Z) : 0 <= d <= 9 -> is_digit (chr (48 + d)) = true.
Proof.
  intros Hd.
  assert (Hcases : d = 0 \/ d = 1 \/ d = 2 \/ d = 3 \/ d = 4 \/
                   d = 5 \/ d = 6 \/ d = 7 \/ d = 8 \/ d = 9) by lia.
  repeat (destruct Hcases as [-> | Hcases]; [reflexivity|]).
  subst d. reflexivity.
Qed.

Lemma digits10_S (n : nat) (u : Z) (acc : string) :
  fmt.digits10 (S n) u acc =
  if 10 <=? u
  then fmt.digits10 n (u / 10) (String (chr (48 + u - u / 10 * 10)) acc)
  else String (chr (48 + u)) acc.
Proof. reflexivity. Qed.

Lemma digits10_length (n : nat) (u : Z) (acc : string) :
  (S (String.length acc) <= String.length (fmt.digits10 n u acc))%nat.
Proof.
  revert u acc. induction n as [|n IH]; intros u acc; [simpl; lia|].
  rewrite digits10_S. destruct (10 <=? u); [|simpl; lia].
  etrans; [|apply IH]. simpl. lia.
Qed.

Lemma digits10_three (n : nat) (u : Z) (acc : string) :
  100 <= u ->
  (3 + String.length acc <= String.length (fmt.digits10 (S (S n)) u acc))%nat.
Proof.
  intros Hu. rewrite !digits10_S.
  destruct (Z.leb_spec 10 u); [|lia].
  assert (10 <= u / 10) by (apply Z.div_le_lower_bound; lia).
  destruct (Z.leb_spec 10 (u / 10)); [|lia].
  etrans; [|apply digits10_length]. simpl. lia.
Qed.

Lemma digits_value_app (s t : string) (a : Z) :
  strconv.digits_value (s +:+ t) a =
  match strconv.digits_value s a with
  | Some b => strconv.digits_value t b
  | None => None
  end.
Proof.
  revert a. induction s as [|c s IH]; intros a; [done|].
  rewrite app_String. cbn [strconv.digits_value].
  destruct (is_digit c); [apply IH|done].
Qed.

Lemma digit_chr_value (d : Z) :
  0 <= d <= 9 ->
  is_digit (chr (48 + d)) = true /\ byte_of (chr (48 + d)) - 48 = d /\
  (strings.eqb_ascii (chr (48 + d)) "0" = true <-> d = 0).
Proof.
  intros Hd.
  assert (Hcases : d = 0 \/ d = 1 \/ d = 2 \/ d = 3 \/ d = 4 \/
                   d = 5 \/ d = 6 \/ d = 7 \/ d = 8 \/ d = 9) by lia.
  repeat (destruct Hcases as [-> | Hcases]; [by repeat split|]).
  subst d. by repeat split.
Qed.

(** The digits written for [u]: a text [ds] in front of [acc], made of
    digits, whose value is [u], with no leading zero unless [u] is zero. *)
Lemma digits10_spec (n : nat) :
  forall (u : Z) (acc : string),
    0 <= u < 10 ^ Z.of_nat (S n) ->
    exists c ds,
      fmt.digits10 n u acc = String c ds +:+ acc /\
      all_digits (String c ds) = true /\
      (forall a, strconv.digits_value (String c ds) a =
                 Some (a * 10 ^ Z.of_nat (String.length (String c ds)) + u)) /\
      (strings.eqb_ascii c "0" = true -> u = 0 /\ ds = "").
Proof.
  induction n as [|n IH]; intros u acc Hu.
  - change (10 ^ Z.of_nat 1) with 10 in Hu.
    destruct (digit_chr_value u ltac:(lia)) as (Hd & Hv & Hz).
    exists (chr (48 + u)), "". cbn [fmt.digits10]. split; [done|].
    split; [by cbn; rewrite Hd|]. split.
    + intros a. cbn [strconv.digits_value String.length]. rewrite Hd, Hv.
      change (10 ^ Z.of_nat 1) with 10. reflexivity.
    + intros H0. by apply Hz in H0.
  - rewrite digits10_S. destruct (Z.leb_spec 10 u) as [Hge|Hlt].
    + assert (Hq : 0 <= u / 10 < 10 ^ Z.of_nat (S n)).
      { split; [apply Z.div_pos; lia|].
        apply Z.div_lt_upper_bound; [lia|].
        rewrite <- Z.pow_succ_r by lia. rewrite <- Nat2Z.inj_succ. lia. }
      destruct (IH (u / 10) (String (chr (48 + u - u / 10 * 10)) acc) Hq)
        as (c & ds & Heq & Hall & Hval & Hzero).
      pose proof (Z.div_mod u 10 ltac:(lia)) as Hdm.
      pose proof (Z.mod_pos_bound u 10 ltac:(lia)) as Hmb.
      destruct (digit_chr_value (u mod 10) ltac:(lia)) as (Hd & Hv & _).
      replace (48 + u - u / 10 * 10) with (48 + u mod 10) in * by lia.
      exists c, (ds +:+ String (chr (48 + u mod 10)) "").
      split; [by rewrite Heq, <- app_String, app_assoc_s|].
      split; [|split].
      * rewrite <- app_String. unfold all_digits in *.
        rewrite all_chars_app, Hall. cbn. by rewrite Hd.
      * intros a. rewrite <- app_String, digits_value_app, Hval.
        cbn [strconv.digits_value]. rewrite Hd, Hv. f_equal.
        replace (String.length (String c ds +:+ String (chr (48 + u mod 10)) ""))
          with (S (String.length (String c ds))).
        2:{ clear. generalize (String c ds). intros s.
            induction s as [|x s IHs]; [done|].
            rewrite app_String. cbn [String.length]. by rewrite <- IHs. }
        rewrite Nat2Z.inj_succ, Z.pow_succ_r by lia. lia.
      * intros H0. apply Hzero in H0 as [H0 _].
        assert (1 <= u / 10) by (apply Z.div_le_lower_bound; lia). lia.
    + destruct (digit_chr_value u ltac:(lia)) as (Hd & Hv & Hz).
      exists (chr (48 + u)), "". split; [done|].
      split; [by cbn; rewrite Hd|]. split.
      * intros a. cbn [strconv.digits_value String.length]. rewrite Hd, Hv.
        change (10 ^ Z.of_nat 1) with 10. reflexivity.
      * intros H0. by apply Hz in H0.
Qed.

Lemma is_int_digits (v : Z) :
  is_int v -> 0 <= Z.abs v < 10 ^ Z.of_nat 21.
Proof. unfold is_int, minInt, maxInt. intros Hv. split; [lia|]. cbn. lia. Qed.

Lemma is_digit_not_sign (c : ascii) :
  is_digit c = true ->
  strings.eqb_ascii c "+" = false /\ strings.eqb_ascii c "-" = false.
Proof.
  destruct c as [[] [] [] [] [] [] [] []]; vm_compute; intros H;
    try discriminate H; by split.
Qed.

Lemma ParseInt_FormatInt (v : Z) :
  is_int v -> strconv.ParseInt (strconv.FormatInt v) = Some v.
Proof.
  intros Hv. pose proof (is_int_digits v Hv) as Hu.
  unfold is_int, minInt, maxInt in Hv. unfold strconv.FormatInt.
  destruct (Z.ltb_spec v 0) as [Hneg|Hpos].
  - rewrite Z.abs_neq in Hu by lia.
    destruct (digits10_spec 20 (- v) "" Hu) as (c & ds & -> & _ & Hval & _).
    rewrite app_Empty_r. cbn [strconv.ParseInt].
    change (strings.eqb_ascii "-" "-") with true.
    change (strings.eqb_ascii "-" "+") with false. cbn [orb negb andb].
    rewrite Hval, Z.mul_0_l, Z.add_0_l.
    destruct (Z.ltb_spec (2 ^ 63) (- v)); [lia|]. f_equal. lia.
  - rewrite Z.abs_eq in Hu by lia.
    destruct (digits10_spec 20 v "" Hu) as (c & ds & -> & Hall & Hval & _).
    rewrite app_Empty_r. cbn [strconv.ParseInt].
    unfold all_digits in Hall. cbn [all_chars] in Hall.
    apply andb_true_iff in Hall as [Hc _].
    destruct (is_digit_not_sign c Hc) as [-> ->]. cbn [orb negb andb].
    rewrite Hval, Z.mul_0_l, Z.add_0_l.
    destruct (Z.leb_spec (2 ^ 63) v); [lia|]. reflexivity.
Qed.

(** ** The escalation decision *)

Lemma index_in_range {A} (s : list A) (i : Z) :
  0 <= i < Z.of_nat (length s) ->
  exists x, s !! Z.to_nat i = Some x /\ index s i = Ok x.
Proof.
  intros [Hlo Hhi]. unfold index.
  destruct (Z.ltb_spec i 0) as [|_]; [lia|].
  destruct (lookup_lt_is_Some_2 s (Z.to_nat i)) as [x Hx]; [lia|].
  exists x. by rewrite Hx.
Qed.

Lemma fmt_two_digits (h : Z) :
  0 <= h <= 99 -> fmt.fmtInteger_zero_width 2 h = two_digits h.
Proof.
  intros Hh. unfold fmt.fmtInteger_zero_width, two_digits.
  destruct (Z.ltb_spec h 0) as [|_]; [lia|].
  rewrite Z.abs_eq by lia.
  cbn [fmt.digits10].
  destruct (Z.leb_spec 10 h) as [Hge|Hlt].
  - assert (Hq : h / 10 < 10) by (apply Z.div_lt_upper_bound; lia).
    destruct (Z.leb_spec 10 (h / 10)) as [|_]; [lia|].
    cbn. do 2 f_equal. f_equal.
    rewrite Z.mod_eq by lia. lia.
  - cbn. rewrite Z.div_small, Z.mod_small by lia. reflexivity.
Qed.

Lemma two_digits_shape (h : Z) :
  0 <= h <= 99 -> is_HH_00_00 (two_digits h +:+ ":00:00") = true.
Proof.
  intros Hh. unfold two_digits. rewrite !app_String, app_Empty.
  cbn [is_HH_00_00].
  assert (0 <= h / 10 <= 9).
  { split; [apply Z.div_pos; lia|].
    assert (h / 10 < 10) by (apply Z.div_lt_upper_bound; lia). lia. }
  assert (0 <= h mod 10 <= 9) by (pose proof (Z.mod_pos_bound h 10); lia).
  rewrite !is_digit_chr by assumption. reflexivity.
Qed.

Lemma getTimeout_in_schedule (hours : list Z) (c : Z) :
  1 <= c <= Z.of_nat (length hours) ->
  exists h, hours !! Z.to_nat (c - 1) = Some h /\
            getTimeout c hours = Ok (fmt.Sprintf_02d_00_00 h).
Proof.
  intros [Hlo Hhi].
  destruct (index_in_range hours (c - 1)) as (h & Hh & Hidx); [lia|].
  exists h. split; [exact Hh|].
  unfold getTimeout. destruct (Z.leb_spec c (Z.of_nat (length hours))); [|lia].
  rewrite Hidx. reflexivity.
Qed.

(** C1, as stated, fails: with the schedule [[100]] the first offense is
    answered by ["100:00:00"], nine characters with a three-digit hour, which
    is not of the shape [HH:00:00]. *)
Lemma getTimeout_hour_100_not_HH :
  ~ (1 <= 1 <= Z.of_nat (length [100]) ->
     exists s, getTimeout 1 [100] = Ok s /\ is_HH_00_00 s = true).
Proof.
  intros H. destruct H as (s & Hs & Hshape); [simpl; lia|].
  vm_compute in Hs. injection Hs as <-. vm_compute in Hshape. discriminate.
Qed.

(** The digits written by [%02d] for a value of Go's [int]: a text of
    decimal digits whose value is the number. *)
Lemma digits10_decimal (u : Z) :
  0 <= u < 10 ^ Z.of_nat 21 ->
  all_digits (fmt.digits10 20 u "") = true /\
  strconv.digits_value (fmt.digits10 20 u "") 0 = Some u.
Proof.
  intros Hu. destruct (digits10_spec 20 u "" Hu) as (c & ds & -> & Hall & Hval & _).
  rewrite app_Empty_r. split; [exact Hall|]. by rewrite Hval, Z.mul_0_l.
Qed.

(** C1, amended: for [1 <= c <= len(schedule)] the decision is the timed
    outcome [Sprintf("%02d:00:00", schedule[c-1])]: the hour in decimal,
    zero-padded to a minimum width of two, followed by [":00:00"].  For an
    hour in [0, 99] this is exactly the two-digit shape [HH:00:00]; an hour
    of 100 or more is written with all its digits, three at least, and a
    negative hour with its sign in front of its digits. *)
Theorem getTimeout_timed_outcome (hours : list Z) (c : Z) :
  1 <= c <= Z.of_nat (length hours) ->
  exists h,
    hours !! Z.to_nat (c - 1) = Some h /\
    getTimeout c hours = Ok (fmt.fmtInteger_zero_width 2 h +:+ ":00:00") /\
    (0 <= h <= 99 ->
       getTimeout c hours = Ok (two_digits h +:+ ":00:00") /\
       is_HH_00_00 (two_digits h +:+ ":00:00") = true) /\
    (100 <= h -> is_int h ->
       exists ds,
         getTimeout c hours = Ok (ds +:+ ":00:00") /\
         all_digits ds = true /\ strconv.digits_value ds 0 = Some h /\
         (3 <= String.length ds)%nat) /\
    (h < 0 -> is_int h ->
       exists ds,
         getTimeout c hours = Ok (String "-" ds +:+ ":00:00") /\
         all_digits ds = true /\ strconv.digits_value ds 0 = Some (- h)).
Proof.
  intros Hc. destruct (getTimeout_in_schedule hours c Hc) as (h & Hh & Hout).
  exists h. split; [exact Hh|]. split; [exact Hout|].
  rewrite Hout. unfold fmt.Sprintf_02d_00_00. repeat split.
  - by rewrite fmt_two_digits.
  - by apply two_digits_shape.
  - intros Hbig Hint. exists (fmt.digits10 20 h "").
    pose proof (is_int_digits h Hint) as Hu. rewrite Z.abs_eq in Hu by lia.
    destruct (digits10_decimal h Hu) as [Hall Hval].
    pose proof (digits10_three 18 h "" Hbig
                : (3 + 0 <= String.length (fmt.digits10 20 h ""))%nat) as Hlen.
    repeat split; [|done|done|lia].
    unfold fmt.fmtInteger_zero_width.
    destruct (Z.ltb_spec h 0); [lia|]. rewrite Z.abs_eq by lia.
    replace (2 - String.length (fmt.digits10 20 h ""))%nat with 0%nat by lia.
    reflexivity.
  - intros Hneg Hint. exists (fmt.digits10 20 (- h) "").
    pose proof (is_int_digits h Hint) as Hu. rewrite Z.abs_neq in Hu by lia.
    destruct (digits10_decimal (- h) Hu) as [Hall Hval].
    repeat split; [|done|done].
    unfold fmt.fmtInteger_zero_width.
    destruct (Z.ltb_spec h 0); [|lia]. rewrite Z.abs_neq by lia.
    pose proof (digits10_length 20 (- h) ""
                : (1 <= String.length (fmt.digits10 20 (- h) ""))%nat).
    replace (Nat.pred 2 - String.length (fmt.digits10 20 (- h) ""))%nat
      with 0%nat by lia.
    reflexivity.
Qed.

Lemma getTimeout_timed_outcome_witness :
  exists h,
    [1; 3; 7] !! Z.to_nat (2 - 1) = Some h /\
    getTimeout 2 [1; 3; 7] = Ok (fmt.fmtInteger_zero_width 2 h +:+ ":00:00") /\
    (0 <= h <= 99 ->
       getTimeout 2 [1; 3; 7] = Ok (two_digits h +:+ ":00:00") /\
       is_HH_00_00 (two_digits h +:+ ":00:00") = true) /\
    (100 <= h -> is_int h ->
       exists ds,
         getTimeout 2 [1; 3; 7] = Ok (ds +:+ ":00:00") /\
         all_digits ds = true /\ strconv.digits_value ds 0 = Some h /\
         (3 <= String.length ds)%nat) /\
    (h < 0 -> is_int h ->
       exists ds,
         getTimeout 2 [1; 3; 7] = Ok (String "-" ds +:+ ":00:00") /\
         all_digits ds = true /\ strconv.digits_value ds 0 = Some (- h)).
Proof. apply (getTimeout_timed_outcome [1; 3; 7] 2). simpl. lia. Defined.

(** The example of the specification: schedule [[1,3,7]], second offense. *)
Example getTimeout_second_offense : getTimeout 2 [1; 3; 7] = Ok "03:00:00".
Proof. reflexivity. Qed.

Example getTimeout_one_week : getTimeout 1 [168] = Ok "168:00:00".
Proof. reflexivity. Qed.

Example getTimeout_negative_hour : getTimeout 1 [-5] = Ok "-5:00:00".
Proof. reflexivity. Qed.

Lemma getTimeout_past_schedule (hours : list Z) (c : Z) :
  Z.of_nat (length hours) < c -> getTimeout c hours = Ok permanent.
Proof.
  intros Hc. unfold getTimeout.
  destruct (Z.leb_spec c (Z.of_nat (length hours))); [lia|reflexivity].
Qed.

(** C2: past the end of the schedule the decision is the permanent sentinel
    ["0"], whatever the count; with an empty schedule every count from 1 on
    is permanent. *)
Theorem getTimeout_permanent :
  (forall (hours : list Z) (c : Z),
      Z.of_nat (length hours) < c -> getTimeout c hours = Ok permanent) /\
  (forall c : Z, 1 <= c -> getTimeout c [] = Ok permanent).
Proof.
  split; [exact getTimeout_past_schedule|].
  intros c Hc. apply getTimeout_past_schedule. simpl. lia.
Qed.

Lemma getTimeout_permanent_witness :
  Z.of_nat (length [1; 3; 7]) < 4 /\ getTimeout 4 [1; 3; 7] = Ok permanent /\
  1 <= 1 /\ getTimeout 1 [] = Ok permanent.
Proof.
  split; [simpl; lia|].
  split; [apply (proj1 getTimeout_permanent); simpl; lia|].
  split; [lia|]. apply (proj2 getTimeout_permanent). lia.
Defined.

(** C6, as stated, fails: the decision is not total over every count.  With
    count 0 the guard [count <= len(hours)] holds and [hours[count-1]] reads
    index -1, a run-time panic. *)
Lemma getTimeout_count_zero_panics :
  ~ (exists s, getTimeout 0 [1; 3; 7] = Ok s).
Proof. intros [s Hs]. vm_compute in Hs. discriminate. Qed.

(** C6, amended: [getTimeout] is a pure function, and it returns a result
    exactly on its precondition [count >= 1]: for every schedule and every
    count from 1 on it yields a string without failing, and identical
    (count, schedule) pairs yield identical outcomes. *)
Theorem getTimeout_total_from_one :
  (forall (count : Z) (hours : list Z),
      1 <= count <-> exists s, getTimeout count hours = Ok s) /\
  (forall (c1 c2 : Z) (h1 h2 : list Z),
      c1 = c2 -> h1 = h2 -> getTimeout c1 h1 = getTimeout c2 h2).
Proof.
  split; [|by intros c1 c2 h1 h2 -> ->].
  intros count hours. split.
  - intros Hpre. destruct (Z.le_gt_cases count (Z.of_nat (length hours))).
    + destruct (getTimeout_in_schedule hours count) as (h & _ & ->); eauto.
    + exists permanent. apply getTimeout_past_schedule. lia.
  - intros [s Hs]. destruct (Z.le_gt_cases 1 count) as [|Hlt]; [done|].
    exfalso. unfold getTimeout, index in Hs.
    destruct (Z.leb_spec count (Z.of_nat (length hours))); [|lia].
    destruct (Z.ltb_spec (count - 1) 0); [|lia]. discriminate.
Qed.

Lemma getTimeout_total_from_one_witness :
  1 <= 2 /\ exists s, getTimeout 2 [1; 3; 7] = Ok s.
Proof.
  split; [lia|]. apply (proj1 getTimeout_total_from_one 2 [1; 3; 7]). lia.
Defined.

(** ** Characters of the address syntax *)

Lemma hexval_digit_char (d : Z) :
  0 <= d < 16 -> netip.hexval (netip.digit_char d) = Some d.
Proof.
  intros Hd.
  pose proof (check_below
                (fun d => match netip.hexval (netip.digit_char d) with
                          | Some v => v =? d
                          | None => false
                          end) 16 eq_refl d Hd) as H.
  cbv beta in H. destruct (netip.hexval (netip.digit_char d)); [|done].
  f_equal. by apply Z.eqb_eq.
Qed.

Lemma is_digit_digit_char (d : Z) :
  0 <= d < 10 ->
  is_digit (netip.digit_char d) = true /\
  byte_of (netip.digit_char d) - 48 = d.
Proof.
  intros Hd.
  pose proof (check_below
                (fun d => is_digit (netip.digit_char d) &&
                          (byte_of (netip.digit_char d) - 48 =? d))
                10 eq_refl d Hd) as H.
  cbv beta in H. apply andb_true_iff in H as [H1 H2].
  split; [done | by apply Z.eqb_eq].
Qed.

(** The four hexadecimal digits of a 16-bit group. *)
Lemma nibbles (g : Z) :
  0 <= g < 65536 ->
  let d3 := Z.shiftr g 12 in
  let d2 := Z.land (Z.shiftr g 8) 15 in
  let d1 := Z.land (Z.shiftr g 4) 15 in
  let d0 := Z.land g 15 in
  (0 <= d3 < 16 /\ 0 <= d2 < 16 /\ 0 <= d1 < 16 /\ 0 <= d0 < 16) /\
  g = ((d3 * 16 + d2) * 16 + d1) * 16 + d0 /\
  (g < 4096 -> d3 = 0) /\ (g < 256 -> d2 = 0) /\ (g < 16 -> d1 = 0).
Proof.
  intros Hg d3 d2 d1 d0. subst d3 d2 d1 d0.
  change 15 with (Z.ones 4). rewrite !Z.land_ones by lia.
  rewrite !Z.shiftr_div_pow2 by lia.
  change (2 ^ 12) with 4096. change (2 ^ 8) with 256.
  change (2 ^ 4) with 16.
  pose proof (Z.div_mod g 16 ltac:(lia)).
  pose proof (Z.mod_pos_bound g 16 ltac:(lia)).
  pose proof (Z.div_mod (g / 16) 16 ltac:(lia)).
  pose proof (Z.mod_pos_bound (g / 16) 16 ltac:(lia)).
  pose proof (Z.div_mod (g / 256) 16 ltac:(lia)).
  pose proof (Z.mod_pos_bound (g / 256) 16 ltac:(lia)).
  replace (g / 256) with (g / 16 / 16) in *
    by (rewrite Z.div_div by lia; reflexivity).
  replace (g / 4096) with (g / 16 / 16 / 16) in *
    by (rewrite !Z.div_div by lia; reflexivity).
  lia.
Qed.

Lemma hexLoop_stop (r : string) (off : nat) (acc : Z) :
  stops_hex r -> netip.hexLoop r off acc = Some (acc, off, r).
Proof. destruct r as [|c r]; [done|]. simpl. by intros ->. Qed.

Lemma hexLoop_digit (d : Z) (s : string) (off : nat) (acc : Z) :
  0 <= d < 16 -> (off <= 3)%nat -> 0 <= acc -> acc * 16 + d <= 65535 ->
  netip.hexLoop (String (netip.digit_char d) s) off acc =
  netip.hexLoop s (S off) (acc * 16 + d).
Proof.
  intros Hd Hoff Hacc Hmax. cbn [netip.hexLoop].
  rewrite hexval_digit_char by done.
  rewrite Z.shiftl_mul_pow2 by lia. change (2 ^ 4) with 16.
  destruct (Nat.ltb_spec 3 off); [lia|].
  destruct (Z.ltb_spec 65535 (acc * 16 + d)); [lia|]. reflexivity.
Qed.

Lemma hexLoop_appendHex (g : Z) (r : string) :
  0 <= g < 65536 -> stops_hex r ->
  exists n, (1 <= n)%nat /\
            netip.hexLoop (netip.appendHex g +:+ r) 0 0 = Some (g, n, r).
Proof.
  intros Hg Hr. destruct (nibbles g Hg) as ((H3 & H2 & H1 & H0) & Hsum & Z3 & Z2 & Z1).
  cbv zeta in *. unfold netip.appendHex.
  destruct (Z.leb_spec 4096 g); destruct (Z.leb_spec 256 g);
    destruct (Z.leb_spec 16 g); try lia;
    norm_app;
    rewrite ?hexLoop_digit by lia;
    rewrite hexLoop_stop by done;
    eexists; (split; [|f_equal; f_equal; f_equal; lia]); lia.
Qed.

(** ** Bytes and 16-bit groups *)

Lemma byte_mod (x : Z) : netip.byte x = x mod 256.
Proof.
  unfold netip.byte. change 255 with (Z.ones 8).
  by rewrite Z.land_ones by lia.
Qed.

Lemma byte_is_byte (x : Z) : is_byte (netip.byte x).
Proof. rewrite byte_mod. unfold is_byte. apply Z.mod_pos_bound. lia. Qed.

Lemma byte_id (b : Z) : is_byte b -> netip.byte b = b.
Proof. intros Hb. rewrite byte_mod. apply Z.mod_small. exact Hb. Qed.

Lemma group_value (hi lo : Z) :
  0 <= hi -> is_byte lo -> Z.lor (Z.shiftl hi 8) lo = hi * 256 + lo.
Proof.
  intros Hhi Hlo.
  assert (Hdisj : Z.land (Z.shiftl hi 8) lo = 0).
  { apply Z.bits_inj'. intros n Hn. rewrite Z.land_spec, Z.bits_0.
    destruct (Z.lt_ge_cases n 8) as [Hlt|Hge].
    - by rewrite Z.shiftl_spec_low.
    - destruct (Z.eq_dec lo 0) as [->|Hnz];
        [by rewrite Z.bits_0, andb_false_r|].
      rewrite (Z.bits_above_log2 lo n), andb_false_r; [done|apply Hlo|].
      assert (Z.log2 lo < 8); [|lia].
      apply Z.log2_lt_pow2; [|change (2 ^ 8) with 256]; unfold is_byte in *; lia. }
  pose proof (Z.add_lor_land (Z.shiftl hi 8) lo) as Hadd.
  rewrite Hdisj in Hadd. rewrite (Z.shiftl_mul_pow2 hi 8) in Hadd by lia.
  change (2 ^ 8) with 256 in Hadd.
  rewrite (Z.shiftl_mul_pow2 hi 8) by lia. change (2 ^ 8) with 256. lia.
Qed.

Lemma group_facts (hi lo : Z) :
  is_byte hi -> is_byte lo ->
  let g := Z.lor (Z.shiftl hi 8) lo in
  0 <= g < 65536 /\
  netip.byte (Z.shiftr g 8) = hi /\ netip.byte g = lo /\
  (g = 0 <-> hi = 0 /\ lo = 0).
Proof.
  intros Hhi Hlo g. subst g. unfold is_byte in *.
  rewrite group_value by (unfold is_byte; lia).
  rewrite !byte_mod, Z.shiftr_div_pow2 by lia. change (2 ^ 8) with 256.
  repeat split; try lia.
  - rewrite Z.div_add_l, Z.div_small, Z.add_0_r by lia.
    apply Z.mod_small. lia.
  - rewrite Z.add_comm, Z.mod_add by lia. apply Z.mod_small. lia.
Qed.

(** ** One round of the IPv6 loop on printed groups *)

Lemma digit_char_not (d : Z) (c : ascii) :
  0 <= d < 16 -> netip.hexval c = None ->
  strings.eqb_ascii (netip.digit_char d) c = false.
Proof.
  intros Hd Hc. unfold strings.eqb_ascii.
  destruct (Ascii.eqb_spec (netip.digit_char d) c) as [<-|]; [|done].
  rewrite hexval_digit_char in Hc by done. discriminate.
Qed.

Lemma appendHex_head (g : Z) :
  0 <= g < 65536 ->
  exists d t, 0 <= d < 16 /\ netip.appendHex g = String (netip.digit_char d) t.
Proof.
  intros Hg. destruct (nibbles g Hg) as ((H3 & H2 & H1 & H0) & _).
  cbv zeta in *. unfold netip.appendHex.
  destruct (4096 <=? g); [norm_app; eauto|].
  destruct (256 <=? g); [norm_app; eauto|].
  destruct (16 <=? g); norm_app; eauto.
Qed.

Lemma appendHex_starts (g : Z) (r : string) (c : ascii) :
  0 <= g < 65536 -> netip.hexval c = None ->
  strings.starts_with (netip.appendHex g +:+ r) c = false /\
  strings.is_empty (netip.appendHex g +:+ r) = false.
Proof.
  intros Hg Hc. destruct (appendHex_head g Hg) as (d & t & Hd & ->).
  rewrite app_String. cbn [strings.starts_with strings.is_empty].
  by rewrite digit_char_not.
Qed.

Lemma loop6_S (k : nat) (s : string) (i : nat) (ip : list Z)
      (ellipsis : option nat) :
  netip.loop6 (S k) s i ip ellipsis =
  if (16 <=? i)%nat then Some (s, i, ip, ellipsis) else
  match netip.hexLoop s 0 0 with
  | None => None
  | Some (acc, off, rest) =>
      if (off =? 0)%nat then None
      else if strings.starts_with rest "." then
        if bool_decide (ellipsis = None) && negb (i =? 12)%nat then None
        else if (16 <? i + 4)%nat then None
        else
          match netip.parseIPv4Fields s with
          | None => None
          | Some fields =>
              Some ("", (i + 4)%nat, netip.set4 ip i fields, ellipsis)
          end
      else
        let ip' :=
          <[S i := netip.byte acc]>
            (<[i := netip.byte (Z.shiftr acc 8)]> ip) in
        let i' := (i + 2)%nat in
        if strings.is_empty rest then Some ("", i', ip', ellipsis)
        else if negb (strings.starts_with rest ":") then None
        else
          let rest1 := strings.tail rest in
          if strings.is_empty rest1 then None
          else if strings.starts_with rest1 ":" then
            match ellipsis with
            | Some _ => None
            | None =>
                let rest2 := strings.tail rest1 in
                if strings.is_empty rest2
                then Some ("", i', ip', Some i')
                else netip.loop6 k rest2 i' ip' (Some i')
            end
          else netip.loop6 k rest1 i' ip' ellipsis
  end.
Proof. reflexivity. Qed.

(** The rounds of the loop are counted exactly: [i] grows by two in every
    round, so once [i + 2 * fuel] reaches 16 more fuel changes nothing. *)
Lemma loop6_fuel (fuel : nat) :
  forall (k : nat) (s : string) (i : nat) (ip : list Z) (ellipsis : option nat),
    (16 <= i + 2 * fuel)%nat ->
    netip.loop6 (fuel + k) s i ip ellipsis = netip.loop6 fuel s i ip ellipsis.
Proof.
  induction fuel as [|fuel IH]; intros k s i ip ellipsis Hi.
  - cbn [Nat.add]. destruct k as [|k]; [done|]. rewrite loop6_S.
    cbn [netip.loop6]. by destruct (Nat.leb_spec 16 i); [|lia].
  - cbn [Nat.add]. rewrite !loop6_S.
    destruct (16 <=? i)%nat; [done|].
    destruct (netip.hexLoop s 0 0) as [[[acc off] r]|]; [|done].
    destruct (off =? 0)%nat; [done|].
    destruct (strings.starts_with r "."); [done|]. cbv zeta.
    destruct (strings.is_empty r); [done|]. destruct (negb _); [done|].
    destruct (strings.is_empty _); [done|].
    destruct (strings.starts_with _ ":"); [|apply IH; lia].
    destruct ellipsis; [done|].
    destruct (strings.is_empty _); [done|]. apply IH. lia.
Qed.

(** The same for the printer: it moves on by at least one group in every
    round. *)
Lemma print6_fuel (ip : list Z) (zs ze : nat) (fuel : nat) :
  (zs <= ze)%nat ->
  forall (k i : nat),
    (8 <= i + fuel)%nat ->
    netip.print6 (fuel + k) ip i zs ze = netip.print6 fuel ip i zs ze.
Proof.
  intros Hrun. induction fuel as [|fuel IH]; intros k i Hi.
  - cbn [Nat.add]. destruct k as [|k]; [done|]. cbn [netip.print6].
    by destruct (Nat.leb_spec 8 i); [|lia].
  - cbn [Nat.add netip.print6]. destruct (8 <=? i)%nat; [done|].
    destruct (Nat.eqb_spec i zs) as [->|_].
    + destruct (8 <=? ze)%nat; [done|]. by rewrite IH by lia.
    + by rewrite IH by lia.
Qed.

Section Rounds.

Variables (k i : nat) (ip : list Z) (hi lo : Z).
Hypothesis (Hhi : is_byte hi) (Hlo : is_byte lo) (Hi : (i < 16)%nat).

Lemma loop6_head (r : string) (ellipsis : option nat) :
  stops_hex r ->
  netip.loop6 (S k) (netip.appendHex (Z.lor (Z.shiftl hi 8) lo) +:+ r)
              i ip ellipsis =
  if strings.starts_with r "." then
    if bool_decide (ellipsis = None) && negb (i =? 12)%nat then None
    else if (16 <? i + 4)%nat then None
    else
      match netip.parseIPv4Fields
              (netip.appendHex (Z.lor (Z.shiftl hi 8) lo) +:+ r) with
      | None => None
      | Some fields =>
          Some ("", (i + 4)%nat, netip.set4 ip i fields, ellipsis)
      end
  else
    if strings.is_empty r
    then Some ("", (i + 2)%nat, <[S i := lo]> (<[i := hi]> ip), ellipsis)
    else if negb (strings.starts_with r ":") then None
    else
      let rest1 := strings.tail r in
      if strings.is_empty rest1 then None
      else if strings.starts_with rest1 ":" then
        match ellipsis with
        | Some _ => None
        | None =>
            let rest2 := strings.tail rest1 in
            if strings.is_empty rest2
            then Some ("", (i + 2)%nat, <[S i := lo]> (<[i := hi]> ip),
                       Some (i + 2)%nat)
            else netip.loop6 k rest2 (i + 2) (<[S i := lo]> (<[i := hi]> ip))
                             (Some (i + 2)%nat)
        end
      else netip.loop6 k rest1 (i + 2) (<[S i := lo]> (<[i := hi]> ip))
                       ellipsis.
Proof.
  intros Hr. destruct (group_facts hi lo Hhi Hlo) as (Hg & Hb1 & Hb0 & _).
  cbv zeta in *. rewrite loop6_S.
  destruct (Nat.leb_spec 16 i); [lia|].
  destruct (hexLoop_appendHex _ r Hg Hr) as (n & Hn & ->).
  destruct (Nat.eqb_spec n 0); [lia|].
  rewrite Hb1, Hb0. reflexivity.
Qed.

(** A group and a colon, followed by another group. *)
Lemma loop6_colon (g' : Z) (r : string) (ellipsis : option nat) :
  0 <= g' < 65536 ->
  netip.loop6 (S k)
    (netip.appendHex (Z.lor (Z.shiftl hi 8) lo) +:+
     String ":" (netip.appendHex g' +:+ r))
    i ip ellipsis =
  netip.loop6 k (netip.appendHex g' +:+ r) (i + 2)
              (<[S i := lo]> (<[i := hi]> ip)) ellipsis.
Proof.
  intros Hg'. rewrite loop6_head by done.
  cbn [strings.starts_with strings.is_empty strings.tail].
  destruct (appendHex_starts g' r ":" Hg' eq_refl) as [-> ->].
  reflexivity.
Qed.

(** A group and the ellipsis, followed by another group. *)
Lemma loop6_ellipsis (g' : Z) (r : string) :
  0 <= g' < 65536 ->
  netip.loop6 (S k)
    (netip.appendHex (Z.lor (Z.shiftl hi 8) lo) +:+
     String ":" (String ":" (netip.appendHex g' +:+ r)))
    i ip None =
  netip.loop6 k (netip.appendHex g' +:+ r) (i + 2)
              (<[S i := lo]> (<[i := hi]> ip)) (Some (i + 2)%nat).
Proof.
  intros Hg'. rewrite loop6_head by done.
  cbn [strings.starts_with strings.is_empty strings.tail].
  destruct (appendHex_starts g' r ":" Hg' eq_refl) as [_ ->].
  reflexivity.
Qed.

(** A group and the ellipsis at the end of the text. *)
Lemma loop6_ellipsis_end :
  netip.loop6 (S k) (netip.appendHex (Z.lor (Z.shiftl hi 8) lo) +:+ "::")
              i ip None =
  Some ("", (i + 2)%nat, <[S i := lo]> (<[i := hi]> ip), Some (i + 2)%nat).
Proof. by rewrite loop6_head. Qed.

(** A group at the end of the text. *)
Lemma loop6_end (ellipsis : option nat) :
  netip.loop6 (S k) (netip.appendHex (Z.lor (Z.shiftl hi 8) lo) +:+ "")
              i ip ellipsis =
  Some ("", (i + 2)%nat, <[S i := lo]> (<[i := hi]> ip), ellipsis).
Proof. by rewrite loop6_head. Qed.

End Rounds.

(** ** The characters of a printed address *)

Lemma addr_char_digit_char (d : Z) :
  0 <= d < 16 -> addr_char (netip.digit_char d) = true.
Proof.
  intros Hd.
  exact (check_below (fun d => addr_char (netip.digit_char d)) 16 eq_refl d Hd).
Qed.

Lemma all_chars_appendHex (g : Z) :
  0 <= g < 65536 -> all_chars addr_char (netip.appendHex g) = true.
Proof.
  intros Hg. destruct (nibbles g Hg) as ((H3 & H2 & H1 & H0) & _).
  cbv zeta in *. unfold netip.appendHex.
  destruct (4096 <=? g); destruct (256 <=? g); destruct (16 <=? g);
    norm_app; cbn [all_chars]; by rewrite ?addr_char_digit_char.
Qed.

Lemma all_chars_appendDecimal (x : Z) :
  is_byte x -> all_chars addr_char (netip.appendDecimal x) = true.
Proof.
  intros Hx. unfold is_byte in Hx. unfold netip.appendDecimal.
  assert (0 <= x / 100 < 16).
  { split; [apply Z.div_pos; lia | apply Z.div_lt_upper_bound; lia]. }
  assert (0 <= x / 10 mod 10 < 16) by (pose proof (Z.mod_pos_bound (x / 10) 10); lia).
  assert (0 <= x mod 10 < 16) by (pose proof (Z.mod_pos_bound x 10); lia).
  destruct (100 <=? x); destruct (10 <=? x);
    norm_app; cbn [all_chars]; by rewrite ?addr_char_digit_char.
Qed.

(** ** Well-formed addresses *)

Lemma wf_ip_lookup (ip : list Z) (n : nat) :
  wf_ip ip -> (n < 16)%nat -> is_byte (ip !!! n).
Proof.
  intros [Hlen Hall] Hn.
  apply (proj1 (Forall_lookup_total is_byte ip) Hall). lia.
Qed.

Lemma v6u16_range (ip : list Z) (i : nat) :
  wf_ip ip -> (i < 8)%nat -> 0 <= netip.v6u16 ip i < 65536.
Proof.
  intros Hwf Hi. unfold netip.v6u16.
  apply group_facts; apply wf_ip_lookup; (done || lia).
Qed.

Lemma all_chars_print6 (ip : list Z) (zs ze : nat) :
  wf_ip ip ->
  forall fuel i, all_chars addr_char (netip.print6 fuel ip i zs ze) = true.
Proof.
  intros Hwf. induction fuel as [|fuel IH]; intros i; [done|].
  cbn [netip.print6].
  destruct (Nat.leb_spec 8 i); [done|].
  destruct (i =? zs)%nat.
  - rewrite all_chars_app. change (all_chars addr_char "::") with true.
    destruct (Nat.leb_spec 8 ze); [done|].
    by rewrite all_chars_app, all_chars_appendHex, IH by (by apply v6u16_range).
  - rewrite !all_chars_app, all_chars_appendHex, IH by (by apply v6u16_range).
    by destruct (0 <? i)%nat.
Qed.

Lemma all_chars_string6 (ip : list Z) :
  wf_ip ip -> all_chars addr_char (netip.string6 ip) = true.
Proof.
  intros Hwf. unfold netip.string6.
  destruct (netip.longest_zero_run 8 ip 0 255 255) as [zs ze].
  by apply all_chars_print6.
Qed.

Lemma all_chars_string4 (b : list Z) :
  Forall is_byte b -> length b = 4%nat ->
  all_chars addr_char (netip.string4 b) = true.
Proof.
  intros Hall Hlen. unfold netip.string4.
  assert (Hb : forall n, (n < 4)%nat -> is_byte (b !!! n)).
  { intros n Hn. apply (proj1 (Forall_lookup_total is_byte b) Hall). lia. }
  rewrite !all_chars_app, !all_chars_appendDecimal by (apply Hb; lia).
  reflexivity.
Qed.

(** ** The run of zero groups chosen by the printer *)

Lemma zero_run_end_spec (ip : list Z) (fuel j : nat) :
  let e := netip.zero_run_end fuel ip j in
  (j <= e)%nat /\ (e <= 8 \/ e = j)%nat /\
  forall k, (j <= k < e)%nat -> netip.v6u16 ip k = 0.
Proof.
  revert j. induction fuel as [|fuel IH]; intros j; cbn [netip.zero_run_end].
  - cbv zeta. repeat split; [lia..|]. intros k Hk. lia.
  - destruct (Nat.ltb_spec j 8) as [Hj|Hj]; cbn [andb].
    + destruct (Z.eqb_spec (netip.v6u16 ip j) 0) as [Hz|Hz].
      * destruct (IH (S j)) as (H1 & H2 & H3). cbv zeta in *.
        repeat split; [lia|lia|].
        intros k Hk. destruct (Nat.eq_dec k j) as [->|]; [done|].
        apply H3. lia.
      * cbv zeta. repeat split; [lia..|]. intros k Hk. lia.
    + cbv zeta. repeat split; [lia..|]. intros k Hk. lia.
Qed.

Lemma longest_zero_run_ok (ip : list Z) (fuel i zs ze : nat) :
  run_ok ip zs ze ->
  run_ok ip (netip.longest_zero_run fuel ip i zs ze).1
            (netip.longest_zero_run fuel ip i zs ze).2.
Proof.
  revert i zs ze. induction fuel as [|fuel IH]; intros i zs ze Hok; [done|].
  cbn [netip.longest_zero_run].
  destruct (zero_run_end_spec ip 8 i) as (H1 & H2 & H3). cbv zeta in *.
  destruct (Nat.leb_spec 2 (netip.zero_run_end 8 ip i - i)); cbn [andb];
    [|by apply IH].
  destruct (_ <? _)%nat; [|by apply IH].
  apply IH. right. repeat split; [lia|lia|done].
Qed.

(** ** Printing then parsing an IPv6 address *)

Lemma dispatch_appendHex (g : Z) (r whole : string) :
  0 <= g < 65536 ->
  netip.dispatch (netip.appendHex g +:+ r) whole = netip.dispatch r whole.
Proof.
  intros Hg. destruct (nibbles g Hg) as ((H3 & H2 & H1 & H0) & _).
  cbv zeta in *. unfold netip.appendHex.
  assert (Hstep : forall d s, 0 <= d < 16 ->
             netip.dispatch (String (netip.digit_char d) s) whole =
             netip.dispatch s whole).
  { intros d s Hd. cbn [netip.dispatch]. by rewrite !digit_char_not. }
  destruct (4096 <=? g); destruct (256 <=? g); destruct (16 <=? g);
    norm_app; by rewrite ?Hstep.
Qed.

Lemma split_zone_addr (s : string) :
  all_chars addr_char s = true -> netip.split_zone s = (s, None).
Proof.
  induction s as [|c s IH]; [done|]. cbn [all_chars netip.split_zone].
  intros [Hc Hs]%andb_true_iff. rewrite (IH Hs).
  destruct (strings.eqb_ascii c "%") eqn:E; [|done].
  apply Ascii.eqb_eq in E. subst c. discriminate.
Qed.

(** What [parseIPv6] does once the zone is known to be absent. *)
Lemma parseIPv6_addr (s : string) :
  all_chars addr_char s = true ->
  netip.parseIPv6 s =
  let leading :=
    strings.starts_with s ":" && strings.starts_with (strings.tail s) ":" in
  let s0 := if leading then strings.tail (strings.tail s) else s in
  let ellipsis0 := if leading then Some 0%nat else None in
  if leading && strings.is_empty s0 then Some (netip.Addr6 netip.zero16 "")
  else
    match netip.loop6 8 s0 0 netip.zero16 ellipsis0 with
    | None => None
    | Some (rest, i, ip, ellipsis) =>
        if negb (strings.is_empty rest) then None
        else if (i <? 16)%nat then
          match ellipsis with
          | None => None
          | Some e =>
              let n := (16 - i)%nat in
              Some (netip.Addr6
                      (netip.clear n e (netip.shift_up (i - e) i n ip)) "")
          end
        else
          match ellipsis with
          | Some _ => None
          | None => Some (netip.Addr6 ip "")
          end
    end.
Proof. intros Hs. unfold netip.parseIPv6. by rewrite split_zone_addr. Qed.

Lemma wf_ip_explicit (ip : list Z) :
  wf_ip ip ->
  exists b0 b1 b2 b3 b4 b5 b6 b7 b8 b9 b10 b11 b12 b13 b14 b15,
    ip = [b0; b1; b2; b3; b4; b5; b6; b7; b8; b9; b10; b11; b12; b13; b14; b15]
    /\ (is_byte b0 /\ is_byte b1 /\ is_byte b2 /\ is_byte b3) /\
       (is_byte b4 /\ is_byte b5 /\ is_byte b6 /\ is_byte b7) /\
       (is_byte b8 /\ is_byte b9 /\ is_byte b10 /\ is_byte b11) /\
       (is_byte b12 /\ is_byte b13 /\ is_byte b14 /\ is_byte b15).
Proof.
  intros [Hlen Hall].
  do 16 (destruct ip as [|? ip]; [discriminate|]).
  destruct ip; [|discriminate].
  repeat (apply Forall_cons_1 in Hall as [? Hall]).
  do 16 eexists. split; [reflexivity|].
  repeat match goal with |- _ /\ _ => split end; assumption.
Qed.

Lemma dispatch_colon (r whole : string) :
  netip.dispatch (String ":" r) whole = netip.parseIPv6 whole.
Proof. reflexivity. Qed.

Lemma group_zero (hi lo : Z) :
  is_byte hi -> is_byte lo -> Z.lor (Z.shiftl hi 8) lo = 0 -> hi = 0 /\ lo = 0.
Proof. intros Hhi Hlo Hz. by apply (group_facts hi lo Hhi Hlo). Qed.

Ltac group_range := apply group_facts; assumption.

(** The groups of the chosen run are zero: so are their bytes. *)
Ltac zero_bytes Hzero k :=
  try (let Hk := fresh "Hk" in
       assert (Hk := Hzero k ltac:(lia));
       lazy beta iota zeta delta
         [netip.v6u16 Nat.mul Nat.add lookup_total list_lookup_total] in Hk;
       apply group_zero in Hk as [? ?]; [subst | assumption | assumption]).

Ltac print_address :=
  lazy beta iota zeta delta
    [netip.print6 Nat.leb Nat.eqb Nat.ltb netip.v6u16 Nat.mul Nat.add
     lookup_total list_lookup_total];
  norm_app.

Ltac parse_rounds :=
  repeat first
    [ rewrite loop6_colon by (assumption || lia || group_range)
    | rewrite loop6_ellipsis by (assumption || lia || group_range)
    | rewrite loop6_ellipsis_end by (assumption || lia)
    | rewrite loop6_end by (assumption || lia) ].

Ltac parse_printed Hchars :=
  match goal with
  | |- netip.dispatch (netip.appendHex _ +:+ _) _ = _ =>
      rewrite dispatch_appendHex by group_range
  | _ => idtac
  end;
  rewrite dispatch_colon;
  rewrite parseIPv6_addr by exact Hchars;
  cbv zeta;
  match goal with
  | |- context [strings.starts_with (netip.appendHex ?g +:+ ?r) ":"] =>
      rewrite (proj1 (appendHex_starts g r ":" ltac:(group_range) eq_refl))
  | _ => idtac
  end;
  cbn [strings.starts_with strings.tail strings.is_empty andb
       strings.eqb_ascii Ascii.eqb Bool.eqb];
  match goal with
  | |- context [strings.is_empty (netip.appendHex ?g +:+ ?r)] =>
      rewrite (proj2 (appendHex_starts g r ":" ltac:(group_range) eq_refl))
  | _ => idtac
  end;
  parse_rounds;
  vm_compute; reflexivity.

Lemma string6_roundtrip (ip : list Z) :
  wf_ip ip -> netip.ParseAddr (netip.string6 ip) = Some (netip.Addr6 ip "").
Proof.
  intros Hwf. unfold netip.ParseAddr.
  pose proof (all_chars_string6 ip Hwf) as Hchars.
  pose proof (longest_zero_run_ok ip 8 0 255 255
                (or_introl (conj eq_refl eq_refl))) as Hrun.
  unfold netip.string6 in *.
  destruct (netip.longest_zero_run 8 ip 0 255 255) as [zs ze].
  cbn [fst snd] in Hrun.
  destruct (wf_ip_explicit ip Hwf) as
    (b0 & b1 & b2 & b3 & b4 & b5 & b6 & b7 & b8 & b9 & b10 & b11 & b12 &
     b13 & b14 & b15 & -> & (?&?&?&?) & (?&?&?&?) & (?&?&?&?) & (?&?&?&?)).
  clear Hwf.
  destruct Hrun as [[-> ->]|(Hlen & Hze & Hzero)].
  - revert Hchars. print_address. intros Hchars. parse_printed Hchars.
  - do 7 (destruct zs as [|zs];
          [do 9 (destruct ze as [|ze];
                 [first
                    [ exfalso; lia
                    | zero_bytes Hzero 0%nat; zero_bytes Hzero 1%nat;
                      zero_bytes Hzero 2%nat; zero_bytes Hzero 3%nat;
                      zero_bytes Hzero 4%nat; zero_bytes Hzero 5%nat;
                      zero_bytes Hzero 6%nat; zero_bytes Hzero 7%nat;
                      clear Hzero Hlen Hze;
                      revert Hchars; print_address; intros Hchars;
                      parse_printed Hchars ]
                 |]); exfalso; lia
          |]).
    exfalso. lia.
Qed.

(** ** Printing then parsing an IPv4 address *)

Lemma v4loop_digit (d : Z) (s : string) (first prevdot : bool)
      (val : Z) (pos digLen : nat) (fields : list Z) :
  0 <= d < 10 -> (digLen = 1%nat -> val <> 0) -> val * 10 + d <= 255 ->
  netip.v4loop (String (netip.digit_char d) s) first prevdot val pos digLen fields =
  netip.v4loop s false false (val * 10 + d) pos (S digLen) fields.
Proof.
  intros Hd Hlead Hmax. cbn [netip.v4loop].
  destruct (is_digit_digit_char d Hd) as [-> ->].
  destruct (Nat.eqb_spec digLen 1) as [H1|_]; cbn [andb].
  - destruct (Z.eqb_spec val 0) as [Hz|_]; [by apply Hlead in H1|].
    by destruct (Z.ltb_spec 255 (val * 10 + d)); [lia|].
  - by destruct (Z.ltb_spec 255 (val * 10 + d)); [lia|].
Qed.

Lemma decimal_digits (x : Z) :
  is_byte x ->
  (0 <= x / 100 < 10 /\ 0 <= x / 10 mod 10 < 10 /\ 0 <= x mod 10 < 10) /\
  x = (x / 100 * 10 + x / 10 mod 10) * 10 + x mod 10 /\
  (x < 100 -> x / 100 = 0) /\ (x < 10 -> x / 10 mod 10 = 0) /\
  (10 <= x < 100 -> 1 <= x / 10 mod 10).
Proof.
  unfold is_byte. intros Hx.
  pose proof (Z.div_mod x 10 ltac:(lia)).
  pose proof (Z.mod_pos_bound x 10 ltac:(lia)).
  pose proof (Z.div_mod (x / 10) 10 ltac:(lia)).
  pose proof (Z.mod_pos_bound (x / 10) 10 ltac:(lia)).
  replace (x / 100) with (x / 10 / 10) in *
    by (rewrite Z.div_div by lia; reflexivity).
  lia.
Qed.

Lemma v4loop_field (x : Z) (r : string) (first prevdot : bool)
      (pos : nat) (fields : list Z) :
  is_byte x ->
  exists digLen,
    netip.v4loop (netip.appendDecimal x +:+ r) first prevdot 0 pos 0 fields =
    netip.v4loop r false false x pos (S digLen) fields.
Proof.
  intros Hx. destruct (decimal_digits x Hx) as ((H2 & H1 & H0) & Hsum & Z2 & Z1 & N1).
  unfold is_byte in Hx. unfold netip.appendDecimal.
  destruct (Z.leb_spec 100 x); destruct (Z.leb_spec 10 x); try lia;
    norm_app; rewrite ?v4loop_digit by lia; eexists;
    f_equal; lia.
Qed.

Lemma appendDecimal_head (x : Z) :
  is_byte x ->
  exists d t, 0 <= d < 10 /\ netip.appendDecimal x = String (netip.digit_char d) t.
Proof.
  intros Hx. destruct (decimal_digits x Hx) as ((H2 & H1 & H0) & _).
  unfold netip.appendDecimal.
  destruct (100 <=? x); [norm_app; eauto|].
  destruct (10 <=? x); norm_app; eauto.
Qed.

Lemma v4loop_dot (x y : Z) (r : string) (pos digLen : nat) (fields : list Z) :
  is_byte x -> is_byte y -> (pos < 3)%nat ->
  netip.v4loop (String "." (netip.appendDecimal y +:+ r))
               false false x pos digLen fields =
  netip.v4loop (netip.appendDecimal y +:+ r) false true 0 (S pos) 0
               (<[pos := x]> fields).
Proof.
  intros Hx Hy Hpos. cbn [netip.v4loop].
  change (is_digit ".") with false. change (strings.eqb_ascii "." ".") with true.
  cbv iota. destruct (appendDecimal_head y Hy) as (d & t & Hd & ->).
  rewrite app_String. cbn [strings.is_empty orb].
  destruct (Nat.eqb_spec pos 3); [lia|]. by rewrite byte_id.
Qed.

Lemma dispatch_appendDecimal (x : Z) (r whole : string) :
  is_byte x ->
  netip.dispatch (netip.appendDecimal x +:+ String "." r) whole =
  netip.parseIPv4 whole.
Proof.
  intros Hx. destruct (decimal_digits x Hx) as ((H2 & H1 & H0) & _).
  unfold netip.appendDecimal.
  assert (Hstep : forall d s, 0 <= d < 10 ->
             netip.dispatch (String (netip.digit_char d) s) whole =
             netip.dispatch s whole).
  { intros d s Hd. cbn [netip.dispatch].
    by rewrite !digit_char_not by (done || lia). }
  destruct (100 <=? x); destruct (10 <=? x); norm_app; by rewrite ?Hstep.
Qed.

Lemma string4_roundtrip (b0 b1 b2 b3 : Z) :
  is_byte b0 -> is_byte b1 -> is_byte b2 -> is_byte b3 ->
  netip.ParseAddr (netip.string4 [b0; b1; b2; b3]) =
  Some (netip.Addr4 [b0; b1; b2; b3]).
Proof.
  intros H0 H1 H2 H3. unfold netip.ParseAddr, netip.string4.
  cbn [lookup_total list_lookup_total]. norm_app.
  rewrite dispatch_appendDecimal by done.
  unfold netip.parseIPv4, netip.parseIPv4Fields.
  rewrite <- (app_Empty_r (netip.appendDecimal b3)).
  destruct (v4loop_field b0
              (String "." (netip.appendDecimal b1 +:+
                 String "." (netip.appendDecimal b2 +:+
                   String "." (netip.appendDecimal b3 +:+ ""))))
              true false 0 [0; 0; 0; 0] H0) as [d0 ->].
  rewrite v4loop_dot by (done || lia).
  destruct (v4loop_field b1
              (String "." (netip.appendDecimal b2 +:+
                 String "." (netip.appendDecimal b3 +:+ "")))
              false true 1 (<[0%nat := b0]> [0; 0; 0; 0]) H1) as [d1 ->].
  rewrite v4loop_dot by (done || lia).
  destruct (v4loop_field b2 (String "." (netip.appendDecimal b3 +:+ ""))
              false true 2 (<[1%nat := b1]> (<[0%nat := b0]> [0; 0; 0; 0])) H2)
    as [d2 ->].
  rewrite v4loop_dot by (done || lia).
  destruct (v4loop_field b3 "" false true 3
              (<[2%nat := b2]> (<[1%nat := b1]> (<[0%nat := b0]> [0; 0; 0; 0])))
              H3) as [d3 ->].
  cbn. by rewrite byte_id.
Qed.

(** ** What the parser returns is a well-formed address *)

Lemma wf_bytes_insert (n i : nat) (x : Z) (l : list Z) :
  wf_bytes n l -> is_byte x -> wf_bytes n (<[i := x]> l).
Proof.
  intros [Hlen Hall] Hx. split; [by rewrite length_insert|].
  by apply Forall_insert.
Qed.

Lemma v4loop_wf (s : string) :
  forall first prevdot val pos digLen fields val' pos' fields',
    wf_bytes 4 fields ->
    netip.v4loop s first prevdot val pos digLen fields =
      Some (val', pos', fields') ->
    wf_bytes 4 fields'.
Proof.
  induction s as [|c s IH]; intros first prevdot val pos digLen fields
                                   val' pos' fields' Hwf; cbn [netip.v4loop].
  - by intros [= _ _ <-].
  - destruct (is_digit c).
    + destruct (_ && _); [done|]. destruct (_ <? _); [done|]. by apply IH.
    + destruct (strings.eqb_ascii c "."); [|done].
      destruct (_ || _); [done|]. destruct (_ =? _)%nat; [done|].
      apply IH. apply wf_bytes_insert; [done|apply byte_is_byte].
Qed.

Lemma parseIPv4Fields_wf (s : string) (fields : list Z) :
  netip.parseIPv4Fields s = Some fields -> wf_bytes 4 fields.
Proof.
  unfold netip.parseIPv4Fields.
  destruct (netip.v4loop s true false 0 0 0 [0; 0; 0; 0])
    as [[[val pos] fs]|] eqn:E; [|done].
  destruct (_ <? _)%nat; [done|]. intros [= <-].
  apply wf_bytes_insert; [|apply byte_is_byte].
  eapply v4loop_wf; [|exact E].
  split; [done|]. repeat constructor; unfold is_byte; lia.
Qed.

Lemma loop6_wf (fuel : nat) :
  forall s i ip ellipsis rest i' ip' ellipsis',
    wf_bytes 16 ip ->
    netip.loop6 fuel s i ip ellipsis = Some (rest, i', ip', ellipsis') ->
    wf_bytes 16 ip'.
Proof.
  induction fuel as [|fuel IH]; intros s i ip ellipsis rest i' ip' ellipsis' Hwf.
  - cbn [netip.loop6]. destruct (_ <=? _)%nat; [|done]. by intros [= _ _ <- _].
  - rewrite loop6_S. destruct (Nat.leb_spec 16 i) as [|Hi];
      [by intros [= _ _ <- _]|].
    destruct (netip.hexLoop s 0 0) as [[[acc off] r]|]; [|done].
    destruct (_ =? _)%nat; [done|].
    assert (Hwf' : wf_bytes 16
                     (<[S i := netip.byte acc]>
                        (<[i := netip.byte (Z.shiftr acc 8)]> ip)))
      by (do 2 (apply wf_bytes_insert; [|apply byte_is_byte]); done).
    destruct (strings.starts_with r ".").
    + destruct (_ && _); [done|].
      destruct (Nat.ltb_spec 16 (i + 4)); [done|].
      destruct (netip.parseIPv4Fields s) as [fields|] eqn:E; [|done].
      intros [= _ _ <- _]. apply parseIPv4Fields_wf in E as [Hl4 Hf4].
      destruct Hwf as [Hl Hf]. unfold netip.set4. split.
      * rewrite !length_app, length_take, length_drop. lia.
      * repeat apply Forall_app_2; [by apply Forall_take|done|by apply Forall_drop].
    + cbv zeta. destruct (strings.is_empty r); [by intros [= _ _ <- _]|].
      destruct (negb _); [done|]. destruct (strings.is_empty _); [done|].
      destruct (strings.starts_with _ ":").
      * destruct ellipsis; [done|].
        destruct (strings.is_empty _); [by intros [= _ _ <- _]|]. by apply IH.
      * by apply IH.
Qed.

Lemma shift_up_wf (count : nat) :
  forall i n ip, wf_bytes 16 ip -> wf_bytes 16 (netip.shift_up count i n ip).
Proof.
  induction count as [|count IH]; intros i n ip Hwf; [done|].
  cbn [netip.shift_up]. apply IH.
  destruct (Nat.lt_ge_cases (Nat.pred i) (length ip)) as [Hlt|Hge].
  - apply wf_bytes_insert; [done|].
    by apply (proj1 (Forall_lookup_total is_byte ip) (proj2 Hwf)).
  - rewrite list_insert_ge by lia. done.
Qed.

Lemma clear_wf (n : nat) :
  forall from ip, wf_bytes 16 ip -> wf_bytes 16 (netip.clear n from ip).
Proof.
  induction n as [|n IH]; intros from ip Hwf; [done|].
  cbn [netip.clear]. apply IH. apply wf_bytes_insert; [done|].
  unfold is_byte. lia.
Qed.

Lemma zero16_wf : wf_bytes 16 netip.zero16.
Proof. split; [done|]. repeat constructor; unfold is_byte; lia. Qed.

Lemma parseIPv6_wf (s : string) (a : netip.Addr) :
  netip.parseIPv6 s = Some a -> wf_addr a.
Proof.
  unfold netip.parseIPv6. destruct (netip.split_zone s) as [s1 z].
  destruct (bool_decide _); [done|]. cbv zeta.
  destruct (_ && strings.is_empty _);
    [intros [= <-]; apply zero16_wf|].
  destruct (netip.loop6 _ _ _ _ _) as [[[[rest i] ip] ellipsis]|] eqn:E; [|done].
  apply loop6_wf in E; [|apply zero16_wf].
  destruct (negb _); [done|]. destruct (_ <? _)%nat.
  - destruct ellipsis; [|done]. intros [= <-].
    by apply clear_wf, shift_up_wf.
  - destruct ellipsis; [done|]. by intros [= <-].
Qed.

Lemma ParseAddr_wf (s : string) (a : netip.Addr) :
  netip.ParseAddr s = Some a -> wf_addr a.
Proof.
  unfold netip.ParseAddr. generalize s at 2. intros whole.
  induction s as [|c s IH]; [done|]. cbn [netip.dispatch].
  destruct (strings.eqb_ascii c ".").
  { unfold netip.parseIPv4.
    destruct (netip.parseIPv4Fields whole) eqn:E; [|done].
    intros [= <-]. by apply parseIPv4Fields_wf in E. }
  destruct (strings.eqb_ascii c ":"); [apply parseIPv6_wf|].
  destruct (strings.eqb_ascii c "%"); [done|exact IH].
Qed.

Lemma ParseIP_wf (s : string) (ip : list Z) :
  net.ParseIP s = Some ip -> wf_ip ip.
Proof.
  unfold net.ParseIP. destruct (netip.ParseAddr s) as [a|] eqn:E; [|done].
  apply ParseAddr_wf in E. destruct (negb _); [done|]. intros [= <-].
  destruct a as [fields|ip' zone]; [|exact E].
  destruct E as [Hlen Hall]. split.
  - cbn [netip.As16]. rewrite length_app, Hlen. reflexivity.
  - apply Forall_app_2; [|done]. repeat constructor; unfold is_byte; lia.
Qed.

(** ** [ParseIP] after [String] *)

Theorem ParseIP_String (ip : list Z) :
  wf_ip ip -> net.ParseIP (net.String_ ip) = Some ip.
Proof.
  intros Hwf. unfold net.ParseIP, net.String_.
  destruct (net.To4 ip) as [p4|] eqn:E4.
  - destruct (wf_ip_explicit ip Hwf) as
      (b0 & b1 & b2 & b3 & b4 & b5 & b6 & b7 & b8 & b9 & b10 & b11 & b12 &
       b13 & b14 & b15 & -> & (?&?&?&?) & (?&?&?&?) & (?&?&?&?) & (?&?&?&?)).
    unfold net.To4 in E4. cbn [length Nat.eqb net.IPv4len net.IPv6len] in E4.
    cbn [andb take net.isZeros forallb lookup_total list_lookup_total] in E4.
    repeat match type of E4 with
           | context [?a =? ?b] => destruct (Z.eqb_spec a b); cbn [andb] in E4
           end; try discriminate.
    injection E4 as <-. subst. cbn [drop].
    by rewrite string4_roundtrip.
  - by rewrite string6_roundtrip.
Qed.

Theorem all_chars_String (ip : list Z) :
  wf_ip ip -> all_chars addr_char (net.String_ ip) = true.
Proof.
  intros Hwf. unfold net.String_.
  destruct (net.To4 ip) as [p4|] eqn:E4; [|by apply all_chars_string6].
  unfold net.To4 in E4. destruct Hwf as [Hlen Hall].
  rewrite Hlen in E4. cbn [Nat.eqb net.IPv4len net.IPv6len] in E4.
  destruct (_ && _); [|done]. injection E4 as <-.
  apply all_chars_string4; [by apply Forall_drop|].
  rewrite length_drop, Hlen. reflexivity.
Qed.

(** ** Normalisation of a canonical address *)

Lemma addr_char_plain (c : ascii) :
  addr_char c = true ->
  (byte_of c <? utf8.RuneSelf) = true /\ strings.asciiSpace c = false /\
  strings.eqb_ascii c "034" = false /\ strings.eqb_ascii c "," = false /\
  strings.eqb_ascii c "/" = false /\ json.htmlSafe (byte_of c) = true.
Proof.
  destruct c as [[] [] [] [] [] [] [] []]; vm_compute; intros H;
    try discriminate H; repeat split.
Qed.

Lemma trimRightByte_absent (s : string) (c : ascii) :
  all_chars (fun a => negb (strings.eqb_ascii a c)) s = true ->
  strings.trimRightByte s c = s.
Proof.
  induction s as [|a s IH]; [done|]. cbn [all_chars strings.trimRightByte].
  intros [Ha Hs]%andb_true_iff. rewrite (IH Hs).
  apply negb_true_iff in Ha. rewrite Ha. by destruct s.
Qed.

Lemma trimLeftByte_absent (s : string) (c : ascii) :
  all_chars (fun a => negb (strings.eqb_ascii a c)) s = true ->
  strings.trimLeftByte s c = s.
Proof.
  destruct s as [|a s]; [done|]. cbn [all_chars strings.trimLeftByte].
  intros [Ha _]%andb_true_iff. apply negb_true_iff in Ha. by rewrite Ha.
Qed.

Lemma Contains_absent (s : string) (c : ascii) :
  all_chars (fun a => negb (strings.eqb_ascii a c)) s = true ->
  strings.Contains s c = false.
Proof.
  induction s as [|a s IH]; [done|]. cbn [all_chars strings.Contains].
  intros [Ha Hs]%andb_true_iff. apply negb_true_iff in Ha.
  by rewrite Ha, IH.
Qed.

Lemma trimRightAscii_plain (s : string) :
  all_chars (fun a => negb (strings.asciiSpace a)) s = true ->
  strings.trimRightAscii s = s.
Proof.
  induction s as [|a s IH]; [done|]. cbn [all_chars strings.trimRightAscii].
  intros [Ha Hs]%andb_true_iff. rewrite (IH Hs).
  apply negb_true_iff in Ha. rewrite Ha. by destruct s.
Qed.

Lemma TrimSpace_addr (s : string) :
  all_chars addr_char s = true -> strings.TrimSpace s = s.
Proof.
  intros Hs. destruct s as [|c s]; [done|].
  pose proof Hs as Hcs. cbn [all_chars] in Hcs.
  apply andb_true_iff in Hcs as [Hc _].
  destruct (addr_char_plain c Hc) as (Hascii & Hsp & _).
  cbn [strings.TrimSpace].
  destruct (Z.leb_spec utf8.RuneSelf (byte_of c));
    [apply Z.ltb_lt in Hascii; lia|].
  rewrite Hsp. unfold strings.trimSpaceRight.
  rewrite trimRightAscii_plain.
  2:{ eapply all_chars_impl; [|exact Hs]. intros a Ha.
      by destruct (addr_char_plain a Ha) as (_ & -> & _). }
  unfold strings.last_byte, utf8.byte_at_end.
  destruct (_ <? _)%nat; [done|].
  destruct (String.get _ _) as [a|] eqn:E; [|done]. cbn [fmap option_fmap option_map].
  apply (all_chars_get _ _ _ _ Hs) in E.
  destruct (addr_char_plain a E) as (Ha & _).
  destruct (Z.leb_spec utf8.RuneSelf (byte_of a)); [apply Z.ltb_lt in Ha; lia|done].
Qed.

Lemma sanitizeIP_String (ip : list Z) :
  wf_ip ip -> sanitizeIP (net.String_ ip) = net.String_ ip.
Proof.
  intros Hwf. pose proof (all_chars_String ip Hwf) as Hchars.
  unfold sanitizeIP, strings.Trim.
  rewrite trimRightByte_absent, trimLeftByte_absent, Contains_absent,
    TrimSpace_addr, ParseIP_String; try done;
    (eapply all_chars_impl; [|exact Hchars]); intros a Ha;
    destruct (addr_char_plain a Ha) as (_ & _ & Hq & Hcomma & _);
    by rewrite ?Hq, ?Hcomma.
Qed.

Lemma sanitizeIP_result (raw : string) :
  sanitizeIP raw = "" \/ canonical (sanitizeIP raw).
Proof.
  unfold sanitizeIP.
  destruct (net.ParseIP _) as [ip|] eqn:E; [right|by left].
  exists ip. split; [by apply ParseIP_wf in E|done].
Qed.

Lemma ParseIP_canonical (s : string) :
  canonical s -> exists p, wf_ip p /\ s = net.String_ p /\ net.ParseIP s = Some p.
Proof. intros (ip & Hwf & ->). exists ip. by rewrite ParseIP_String. Qed.

(** ** [sanitizeIP] *)

(** C8: normalisation is idempotent on valid output.  A canonical address
    (the text [IP.String] gives for an address) is returned unchanged, so
    normalising twice is normalising once; the CSV artifact
    ["203.0.113.25,extra"] yields ["203.0.113.25"] and ["not-an-ip"] yields
    the empty, invalid result. *)
Theorem sanitizeIP_idempotent :
  (forall s : string, canonical s -> sanitizeIP s = s) /\
  (forall raw : string, sanitizeIP (sanitizeIP raw) = sanitizeIP raw) /\
  sanitizeIP "203.0.113.25,extra" = "203.0.113.25" /\
  sanitizeIP "not-an-ip" = "".
Proof.
  assert (Hcanon : forall s : string, canonical s -> sanitizeIP s = s).
  { intros s (ip & Hwf & ->). by apply sanitizeIP_String. }
  split; [exact Hcanon|]. split; [|split; reflexivity].
  intros raw. destruct (sanitizeIP_result raw) as [->|Hc]; [reflexivity|].
  by apply Hcanon.
Qed.

Lemma canonical_example :
  canonical "203.0.113.25" /\ canonical "2001:db8::1".
Proof.
  split.
  - exists [0; 0; 0; 0; 0; 0; 0; 0; 0; 0; 255; 255; 203; 0; 113; 25].
    split; [|reflexivity].
    split; [reflexivity|]. repeat constructor; unfold is_byte; lia.
  - exists [32; 1; 13; 184; 0; 0; 0; 0; 0; 0; 0; 0; 0; 0; 0; 1].
    split; [|reflexivity].
    split; [reflexivity|]. repeat constructor; unfold is_byte; lia.
Qed.

Lemma sanitizeIP_idempotent_witness :
  canonical "203.0.113.25" /\ sanitizeIP "203.0.113.25" = "203.0.113.25".
Proof.
  assert (Hc : canonical "203.0.113.25").
  { exists [0; 0; 0; 0; 0; 0; 0; 0; 0; 0; 255; 255; 203; 0; 113; 25].
    split; [|reflexivity].
    split; [reflexivity|]. repeat constructor; unfold is_byte; lia. }
  split; [exact Hc|]. apply (proj1 sanitizeIP_idempotent). exact Hc.
Defined.

(** ** [isWhitelisted] *)

Lemma whitelist_loop_existsb (ip : string) (p : net.IP) (wl : list string) :
  whitelist_loop ip p wl = existsb (entry_matches ip p) wl.
Proof.
  induction wl as [|entry wl IH]; [done|].
  cbn [whitelist_loop existsb]. unfold entry_matches at 1. cbv zeta.
  destruct (strings.Contains _ "/"); cbn [negb].
  - destruct (net.ParseCIDR _) as [cidr|]; [|exact IH].
    destruct (net.Contains cidr p); [done|exact IH].
  - destruct (bool_decide _); [done|exact IH].
Qed.

Lemma isWhitelisted_canonical (ip : string) :
  canonical ip ->
  exists p,
    net.ParseIP ip = Some p /\ ip = net.String_ p /\
    forall wl, isWhitelisted ip wl = existsb (entry_matches ip p) wl.
Proof.
  intros Hc. destruct (ParseIP_canonical ip Hc) as (p & Hwf & Hs & Hp).
  exists p. split; [exact Hp|]. split; [exact Hs|].
  intros wl. unfold isWhitelisted. rewrite Hp. apply whitelist_loop_existsb.
Qed.

(** C10: an address that does not parse is never whitelisted, whatever the
    entries: the parse check comes before every comparison, also before the
    comparison with an entry equal to the text. *)
Theorem isWhitelisted_unparsable (ip : string) (wl : list string) :
  net.ParseIP ip = None -> isWhitelisted ip wl = false.
Proof. intros Hp. unfold isWhitelisted. by rewrite Hp. Qed.

Lemma isWhitelisted_unparsable_witness :
  net.ParseIP "not-an-ip" = None /\
  isWhitelisted "not-an-ip" ["not-an-ip"] = false.
Proof.
  split; [reflexivity|].
  apply (isWhitelisted_unparsable "not-an-ip" ["not-an-ip"]). reflexivity.
Defined.

(** C5: for a canonical address [isWhitelisted] answers true exactly when
    some entry matches: an entry without a slash, trimmed, by equality of
    the texts, an entry with a slash by containment of the address in the
    network, an entry that is no CIDR never.  The answer is the
    short-circuit disjunction over the entries in order: once an entry
    matches, what follows it is not looked at. *)
Theorem isWhitelisted_matches (ip : string) (wl : list string) :
  canonical ip ->
  exists p,
    net.ParseIP ip = Some p /\ ip = net.String_ p /\
    isWhitelisted ip wl = existsb (entry_matches ip p) wl /\
    (isWhitelisted ip wl = true <->
     exists entry, In entry wl /\ entry_matches ip p entry = true) /\
    (forall pre entry post,
        wl = pre ++ entry :: post -> entry_matches ip p entry = true ->
        isWhitelisted ip wl = true) /\
    (forall entry,
        strings.Contains (strings.TrimSpace entry) "/" = true ->
        net.ParseCIDR (strings.TrimSpace entry) = None ->
        isWhitelisted ip (entry :: wl) = isWhitelisted ip wl).
Proof.
  intros Hc. destruct (isWhitelisted_canonical ip Hc) as (p & Hp & Hs & Heq).
  exists p. split; [exact Hp|]. split; [exact Hs|].
  split; [apply Heq|]. split; [|split].
  - rewrite Heq. apply existsb_exists.
  - intros pre entry post -> Hm. rewrite Heq.
    apply existsb_exists. exists entry. split; [|exact Hm].
    apply in_or_app. right. by left.
  - intros entry Hslash Hcidr. rewrite !Heq. cbn [existsb].
    unfold entry_matches at 1. cbv zeta. by rewrite Hslash, Hcidr.
Qed.

Lemma isWhitelisted_matches_witness :
  exists p,
    net.ParseIP "192.168.1.50" = Some p /\ "192.168.1.50" = net.String_ p /\
    isWhitelisted "192.168.1.50" ["8.8.8.8"; "bad/24"; "192.168.1.0/24"] =
      existsb (entry_matches "192.168.1.50" p)
              ["8.8.8.8"; "bad/24"; "192.168.1.0/24"] /\
    (isWhitelisted "192.168.1.50" ["8.8.8.8"; "bad/24"; "192.168.1.0/24"] = true
     <-> exists entry,
        In entry ["8.8.8.8"; "bad/24"; "192.168.1.0/24"] /\
        entry_matches "192.168.1.50" p entry = true) /\
    (forall pre entry post,
        ["8.8.8.8"; "bad/24"; "192.168.1.0/24"] = pre ++ entry :: post ->
        entry_matches "192.168.1.50" p entry = true ->
        isWhitelisted "192.168.1.50" ["8.8.8.8"; "bad/24"; "192.168.1.0/24"]
          = true) /\
    (forall entry,
        strings.Contains (strings.TrimSpace entry) "/" = true ->
        net.ParseCIDR (strings.TrimSpace entry) = None ->
        isWhitelisted "192.168.1.50"
          (entry :: ["8.8.8.8"; "bad/24"; "192.168.1.0/24"]) =
        isWhitelisted "192.168.1.50" ["8.8.8.8"; "bad/24"; "192.168.1.0/24"]).
Proof.
  apply (isWhitelisted_matches "192.168.1.50"
           ["8.8.8.8"; "bad/24"; "192.168.1.0/24"]).
  exists [0; 0; 0; 0; 0; 0; 0; 0; 0; 0; 255; 255; 192; 168; 1; 50].
  split; [|reflexivity].
  split; [reflexivity|]. repeat constructor; unfold is_byte; lia.
Defined.

Example isWhitelisted_scenario :
  isWhitelisted "192.168.1.50" ["192.168.1.0/24"] = true /\
  isWhitelisted "192.168.2.50" ["192.168.1.0/24"] = false /\
  isWhitelisted "192.168.1.50" [" 192.168.1.50 "] = true /\
  isWhitelisted "192.168.1.50" ["bad/24"; "192.168.1.0/24"] = true /\
  isWhitelisted "2001:db8::1" ["2001:db8::/32"] = true /\
  isWhitelisted "2001:db8::1" ["2001:DB8::1"] = false.
Proof. repeat split; reflexivity. Qed.

(** ** The loop of [main] *)

Lemma whitelist_match_sound (ip entry : string) (wl : list string) :
  canonical ip -> In entry wl -> whitelist_match ip entry ->
  isWhitelisted ip wl = true.
Proof.
  intros Hc Hin Hm.
  destruct (isWhitelisted_canonical ip Hc) as (p & Hp & _ & Heq).
  rewrite Heq. apply existsb_exists. exists entry. split; [exact Hin|].
  unfold whitelist_match, entry_matches in *. cbv zeta in *.
  destruct (strings.Contains _ "/").
  - destruct Hm as (cidr & p' & -> & Hp' & Hin'). congruence.
  - by apply bool_decide_eq_true_2.
Qed.

Section Loop.

Context {Client : Type}.
Variable RunArgs : Client -> list string -> Client * bool.

(** C3: an address whose canonical form matches a whitelist entry, by
    equality of the texts for an entry without a slash or by containment for
    a CIDR entry, is skipped: the whole table of offense counts is left as it
    is (the count of the address and every other entry), no directive is
    sent, and the skip is logged. *)
Theorem process_whitelisted (cfg : Config) (r : run Client) (raw : string) :
  sanitizeIP raw <> "" ->
  (exists entry,
      In entry (Whitelist cfg) /\ whitelist_match (sanitizeIP raw) entry) ->
  exists r',
    process RunArgs cfg r raw = Ok r' /\
    state r' = state r /\
    map_get (state r') (sanitizeIP raw) = map_get (state r) (sanitizeIP raw) /\
    sent r' = sent r /\
    client r' = client r /\
    logged r' = logged r ++ [LogSkip (sanitizeIP raw)].
Proof.
  intros Hvalid (entry & Hin & Hm).
  destruct (sanitizeIP_result raw) as [|Hc]; [done|].
  unfold process. rewrite bool_decide_eq_false_2 by done.
  rewrite (whitelist_match_sound _ entry _ Hc Hin Hm).
  eexists. split; [reflexivity|]. done.
Qed.


End Loop.

Section Appliers.

Context {Client1 Client2 : Type}.
Variable RunArgs1 : Client1 -> list string -> Client1 * bool.
Variable RunArgs2 : Client2 -> list string -> Client2 * bool.




End Appliers.


Lemma process_whitelisted_witness :
  exists r',
    process refusing default_config run0 "192.168.1.50" = Ok r' /\
    state r' = state run0 /\
    map_get (state r') (sanitizeIP "192.168.1.50") =
      map_get (state run0) (sanitizeIP "192.168.1.50") /\
    sent r' = sent run0 /\
    client r' = client run0 /\
    logged r' = logged run0 ++ [LogSkip (sanitizeIP "192.168.1.50")].
Proof.
  apply (process_whitelisted refusing default_config run0 "192.168.1.50").
  - vm_compute. discriminate.
  - exists "192.168.1.0/24". split; [right; left; reflexivity|].
    vm_compute. do 2 eexists. repeat split.
Defined.


(** C4, the code at the failing input: a state file that is not JSON makes
    [loadState] return the nil map with no error, and the first address to
    count then ends the run in a panic, before anything is saved; a missing
    state file gives an empty map that can be written to, and the same run
    completes. *)
Theorem loadState_malformed_nil_map :
  loadState (state_file "{not json") (StateFile default_config) = (None, None) /\
  main accepting default_config (state_file "{not json")
           ["203.0.113.25"] tt = Panic NilMapAssignment /\
  loadState ∅ (StateFile default_config) = (Some ∅, None) /\
  saved (main accepting default_config ∅ ["203.0.113.25"] tt) =
    Ok (state_file (json.MarshalIndent (Some {[ "203.0.113.25" := 1 ]}))).
Proof. repeat split; vm_compute; reflexivity. Qed.

(** Valid JSON of the wrong shape is loaded as far as it goes: the key is
    stored with a zero count and no error is returned. *)
Example loadState_wrong_shape :
  loadState (state_file wrong_shape) (StateFile default_config) =
  (Some {[ "198.51.100.50" := 0 ]}, None).
Proof. vm_compute. reflexivity. Qed.

(** The scenarios of the specification. *)
Example scenario_A :
  outcome (loop accepting default_config run0 ["203.0.113.25"; "203.0.113.25"]) =
  Ok (Some {[ "203.0.113.25" := 2 ]},
      [directive "blocked_attackers" "203.0.113.25" "01:00:00";
       directive "blocked_attackers" "203.0.113.25" "03:00:00"]).
Proof. vm_compute. reflexivity. Qed.

Example scenario_B :
  outcome (loop accepting default_config
             {| state := Some {[ "198.51.100.50" := 3 ]}; client := tt;
                sent := []; logged := [] |}
             ["198.51.100.50"]) =
  Ok (Some {[ "198.51.100.50" := 4 ]},
      [directive "blocked_permanent" "198.51.100.50" "0"]).
Proof. vm_compute. reflexivity. Qed.

Example scenario_C :
  loop accepting default_config run0 ["192.168.1.50"] =
  Ok {| state := Some ∅; client := tt; sent := [];
        logged := [LogSkip "192.168.1.50"] |}.
Proof. vm_compute. reflexivity. Qed.

(** A count read back from the state file below one makes the decision
    read outside the schedule. *)
Example negative_count_panics :
  loop accepting default_config
    {| state := Some {[ "203.0.113.25" := -5 ]}; client := tt;
       sent := []; logged := [] |}
    ["203.0.113.25"] = Panic (IndexOutOfRange (-5) 3).
Proof. vm_compute. reflexivity. Qed.

(** ** Scanning what [MarshalIndent] writes *)

Lemma fmap_app_nil {A} (x : option (list A)) : ([] ++.) <$> x = x.
Proof. by destruct x. Qed.

Lemma fmap_cons_app {A} (t : A) (l : list A) (x : option (list A)) :
  (t ::.) <$> ((l ++.) <$> x) = ((t :: l) ++.) <$> x.
Proof. by destruct x. Qed.

Lemma fmap_cons {A} (t : A) (x : option (list A)) :
  (t ::.) <$> x = ([t] ++.) <$> x.
Proof. by destruct x. Qed.

Lemma fmap_app_app {A} (l1 l2 : list A) (x : option (list A)) :
  (l1 ++.) <$> ((l2 ++.) <$> x) = ((l1 ++ l2) ++.) <$> x.
Proof. destruct x; [|done]. cbn. by rewrite app_assoc. Qed.

Lemma lex_start (c : ascii) (s : string) (st : json.lex_state)
      (toks : list json.token) :
  json.start_char c = Some (st, toks) ->
  json.lex json.LStart (String c s) = (toks ++.) <$> json.lex st s.
Proof. intros H. cbn [json.lex]. by rewrite H. Qed.

Lemma lex_space (c : ascii) (s : string) :
  json.start_char c = Some (json.LStart, []) ->
  json.lex json.LStart (String c s) = json.lex json.LStart s.
Proof. intros H. by rewrite (lex_start _ _ _ _ H), fmap_app_nil. Qed.

Lemma lex_number_step (c : ascii) (s lit : string) (ns ns' : json.num_state) :
  json.num_step ns c = Some ns' ->
  json.lex (json.LNumber ns lit) (String c s) =
  json.lex (json.LNumber ns' (lit +:+ String c "")) s.
Proof. intros H. cbn [json.lex]. by rewrite H. Qed.

Lemma lex_number_end (c : ascii) (s lit : string) (ns : json.num_state)
      (st : json.lex_state) (toks : list json.token) :
  json.num_step ns c = None -> json.num_accepting ns = true ->
  json.start_char c = Some (st, toks) ->
  json.lex (json.LNumber ns lit) (String c s) =
  ((json.TNumber lit :: toks) ++.) <$> json.lex st s.
Proof. intros H1 H2 H3. cbn [json.lex]. by rewrite H1, H2, H3. Qed.

(** One ASCII character of a key, as [appendString] writes it. *)
Lemma lex_key_char (c : ascii) (k : string) :
  is_ascii c = true ->
  forall (acc rest : string),
    json.lex (json.LString acc 0)
             (json.appendString_loop 0 true (String c k) +:+ rest) =
    json.lex (json.LString (acc +:+ String c "") 0)
             (json.appendString_loop 0 true k +:+ rest).
Proof.
  destruct c as [[] [] [] [] [] [] [] []]; intros Hc; try discriminate Hc;
    intros acc rest; reflexivity.
Qed.

Lemma lex_key (k : string) :
  ascii_key k ->
  forall (acc rest : string),
    json.lex (json.LString acc 0)
             (json.appendString_loop 0 true k +:+ String json.dquote rest) =
    (json.TString (acc +:+ k) ::.) <$> json.lex json.LStart rest.
Proof.
  unfold ascii_key. induction k as [|c k IH]; intros Hk acc rest.
  - by rewrite app_Empty_r.
  - cbn [all_chars] in Hk. apply andb_true_iff in Hk as [Hc Hk].
    rewrite lex_key_char, IH by done.
    by rewrite app_assoc_s, app_String, app_Empty.
Qed.

Lemma lex_digits (ds : string) :
  all_digits ds = true ->
  forall (lit rest : string),
    json.lex (json.LNumber json.N1 lit) (ds +:+ rest) =
    json.lex (json.LNumber json.N1 (lit +:+ ds)) rest.
Proof.
  unfold all_digits. induction ds as [|c ds IH]; intros Hds lit rest.
  - by rewrite app_Empty_r.
  - cbn [all_chars] in Hds. apply andb_true_iff in Hds as [Hc Hds].
    rewrite app_String.
    rewrite (lex_number_step c _ _ json.N1 json.N1)
      by (cbn [json.num_step]; by rewrite Hc).
    rewrite IH by done. by rewrite app_assoc_s, app_String, app_Empty.
Qed.

(** A digit met where a number starts, in front of a text or after the
    minus sign. *)
Lemma digit_starts_number (c : ascii) :
  is_digit c = true ->
  json.start_char c =
    Some (json.LNumber (if strings.eqb_ascii c "0" then json.N0 else json.N1)
                       (String c ""), []) /\
  json.num_step json.NNeg c =
    Some (if strings.eqb_ascii c "0" then json.N0 else json.N1).
Proof.
  destruct c as [[] [] [] [] [] [] [] []]; vm_compute; intros H;
    try discriminate H; by split.
Qed.

(** The number written for an [int] is scanned as one literal, and the
    scanner is then in an accepting state ([N0] or [N1]). *)
Lemma lex_FormatInt (v : Z) (rest : string) :
  is_int v ->
  exists st,
    (st = json.N0 \/ st = json.N1) /\
    json.lex json.LStart (strconv.FormatInt v +:+ rest) =
    json.lex (json.LNumber st (strconv.FormatInt v)) rest.
Proof.
  intros Hv. pose proof (is_int_digits v Hv) as Hu. unfold strconv.FormatInt.
  destruct (Z.ltb_spec v 0) as [Hneg|Hpos].
  - rewrite Z.abs_neq in Hu by lia.
    destruct (digits10_spec 20 (- v) "" Hu) as (c & ds & -> & Hall & _ & Hz).
    rewrite app_Empty_r. unfold all_digits in Hall. cbn [all_chars] in Hall.
    apply andb_true_iff in Hall as [Hc Hds].
    destruct (digit_starts_number c Hc) as [_ Hstep].
    rewrite !app_String.
    rewrite (lex_start "-" _ (json.LNumber json.NNeg "-") []) by reflexivity.
    rewrite fmap_app_nil, (lex_number_step _ _ _ _ _ Hstep).
    destruct (strings.eqb_ascii c "0") eqn:E.
    + destruct (Hz eq_refl) as [_ ->]. exists json.N0. split; [by left|].
      reflexivity.
    + exists json.N1. split; [by right|].
      rewrite lex_digits by done. reflexivity.
  - rewrite Z.abs_eq in Hu by lia.
    destruct (digits10_spec 20 v "" Hu) as (c & ds & -> & Hall & _ & Hz).
    rewrite app_Empty_r. unfold all_digits in Hall. cbn [all_chars] in Hall.
    apply andb_true_iff in Hall as [Hc Hds].
    destruct (digit_starts_number c Hc) as [Hstart _].
    rewrite !app_String, (lex_start _ _ _ _ Hstart), fmap_app_nil.
    destruct (strings.eqb_ascii c "0") eqn:E.
    + destruct (Hz eq_refl) as [_ ->]. exists json.N0. split; [by left|].
      reflexivity.
    + exists json.N1. split; [by right|].
      rewrite lex_digits by done. reflexivity.
Qed.

(** One member, followed by the comma before the next one or by the new
    line before the closing brace. *)
Lemma lex_member (kv : string * Z) (rest : string) (toks : list json.token) :
  ascii_key kv.1 -> is_int kv.2 ->
  json.lex json.LStart rest = Some toks ->
  json.lex json.LStart (json.member kv +:+ String "," rest) =
    Some (member_tokens kv ++ json.TComma :: toks) /\
  json.lex json.LStart (json.member kv +:+ String json.newline rest) =
    Some (member_tokens kv ++ toks).
Proof.
  intros Hk Hv Hrest. unfold json.member, json.appendString. norm_app.
  assert (Hhead : forall tail,
             json.lex json.LStart
               (String json.newline
                  (String " " (String " " (String json.dquote
                     (json.appendString_loop 0 true kv.1 +:+
                      String json.dquote
                        (String ":" (String " "
                           (strconv.FormatInt kv.2 +:+ tail))))))))
             = ([json.TString kv.1; json.TColon] ++.) <$>
               json.lex json.LStart (strconv.FormatInt kv.2 +:+ tail)).
  { intros tail. rewrite 3!lex_space by reflexivity.
    rewrite (lex_start json.dquote _ (json.LString "" 0) []) by reflexivity.
    rewrite fmap_app_nil, lex_key, app_Empty by done.
    rewrite (lex_start ":" _ json.LStart [json.TColon]) by reflexivity.
    rewrite lex_space by reflexivity. by rewrite fmap_cons_app. }
  rewrite !Hhead.
  destruct (lex_FormatInt kv.2 (String "," rest) Hv) as (st1 & Hst1 & ->).
  destruct (lex_FormatInt kv.2 (String json.newline rest) Hv)
    as (st2 & Hst2 & ->).
  split.
  - rewrite (lex_number_end "," _ _ st1 json.LStart [json.TComma])
      by (by destruct Hst1 as [-> | ->]).
    by rewrite Hrest.
  - rewrite (lex_number_end json.newline _ _ st2 json.LStart [])
      by (by destruct Hst2 as [-> | ->]).
    by rewrite Hrest.
Qed.

Lemma lex_members (l : list (string * Z)) :
  l <> [] ->
  Forall (fun kv => ascii_key kv.1 /\ is_int kv.2) l ->
  json.lex json.LStart (json.members l +:+ String json.newline "}") =
  Some (members_tokens l ++ [json.TRBrace]).
Proof.
  induction l as [|kv l IH]; [done|]. intros _ Hall.
  apply Forall_cons_1 in Hall as [[Hk Hv] Hall].
  destruct l as [|kv' l].
  - cbn [json.members members_tokens].
    by apply (lex_member kv "}" [json.TRBrace]).
  - change (json.members (kv :: kv' :: l))
      with (json.member kv +:+ "," +:+ json.members (kv' :: l)).
    change (members_tokens (kv :: kv' :: l))
      with (member_tokens kv ++ json.TComma :: members_tokens (kv' :: l)).
    norm_app. rewrite <- app_assoc. cbn [app].
    apply lex_member; [done..|]. by apply IH.
Qed.

(** ** The tokens of an object are valid and decode to its members *)

Lemma valid_members (l : list (string * Z)) :
  l <> [] ->
  json_decode.valid json_decode.GObjFirst [json_decode.CObject]
    (members_tokens l ++ [json.TRBrace]) = true /\
  json_decode.valid json_decode.GObjKey [json_decode.CObject]
    (members_tokens l ++ [json.TRBrace]) = true.
Proof.
  induction l as [|kv l IH]; [done|]. intros _.
  destruct l as [|kv' l]; [by split|].
  change (members_tokens (kv :: kv' :: l))
    with (member_tokens kv ++ json.TComma :: members_tokens (kv' :: l)).
  destruct IH as [_ IH]; [done|]. split; exact IH.
Qed.

Lemma object_members (l : list (string * Z)) :
  Forall (fun kv => ascii_key kv.1 /\ is_int kv.2) l ->
  forall m,
    json_decode.object json_decode.DKey m false
      (members_tokens l ++ [json.TRBrace]) = (foldl store m l, false).
Proof.
  induction l as [|kv l IH]; [done|]. intros Hall m.
  apply Forall_cons_1 in Hall as [[Hk Hv] Hall].
  destruct l as [|kv' l].
  - cbn [members_tokens member_tokens app json_decode.object].
    by rewrite ParseInt_FormatInt.
  - change (members_tokens (kv :: kv' :: l))
      with (member_tokens kv ++ json.TComma :: members_tokens (kv' :: l)).
    cbn [member_tokens app json_decode.object].
    rewrite ParseInt_FormatInt by done. by rewrite IH.
Qed.

(** ** [Unmarshal] after [MarshalIndent] *)

Lemma foldl_store_foldr (l : list (string * Z)) :
  forall m, foldl store m l = foldr (fun kv m => store m kv) m (rev l).
Proof.
  induction l as [|kv l IH]; intros m; [done|].
  cbn [foldl rev]. by rewrite IH, foldr_app.
Qed.

Lemma foldl_store_sorted (m : gmap string Z) :
  foldl store ∅ (json.sorted_entries m) = m.
Proof.
  rewrite foldl_store_foldr.
  change (foldr (fun kv m => store m kv) ∅ (rev (json.sorted_entries m)))
    with (list_to_map (rev (json.sorted_entries m)) : gmap string Z).
  assert (Hperm : rev (json.sorted_entries m) ≡ₚ map_to_list m).
  { rewrite <- Permutation_rev. apply merge_sort_Permutation. }
  trans (list_to_map (map_to_list m) : gmap string Z);
    [|apply list_to_map_to_list].
  apply list_to_map_proper; [|exact Hperm].
  rewrite Hperm. apply NoDup_fst_map_to_list.
Qed.

Lemma sorted_entries_Forall (m : gmap string Z) (P : string -> Z -> Prop) :
  map_Forall P m -> Forall (fun kv => P kv.1 kv.2) (json.sorted_entries m).
Proof.
  intros Hm. unfold json.sorted_entries.
  rewrite merge_sort_Permutation.
  apply map_Forall_to_list in Hm.
  eapply Forall_impl; [exact Hm|]. by intros [k v].
Qed.

Lemma sorted_entries_nil (m : gmap string Z) :
  json.sorted_entries m = [] -> m = ∅.
Proof.
  intros Hnil. apply map_to_list_empty_iff.
  apply Permutation_nil_r. rewrite <- Hnil.
  unfold json.sorted_entries. by rewrite merge_sort_Permutation.
Qed.

Lemma Unmarshal_MarshalIndent (s : option (gmap string Z)) :
  wf_state s ->
  json_decode.Unmarshal (json.MarshalIndent s) None = (s, None).
Proof.
  destruct s as [m|]; [|reflexivity]. intros Hwf. cbn [wf_state] in Hwf.
  pose proof (sorted_entries_Forall m _ Hwf) as Hall.
  pose proof (foldl_store_sorted m) as Hfold.
  unfold json.MarshalIndent.
  destruct (json.sorted_entries m) as [|kv l] eqn:E.
  - apply sorted_entries_nil in E as ->. reflexivity.
  - unfold json_decode.Unmarshal, json_decode.checkValid, json.tokenize.
    norm_app.
    rewrite (lex_start "{" _ json.LStart [json.TLBrace]) by reflexivity.
    rewrite lex_members by done. cbn [fmap option_fmap option_map app].
    cbn [json_decode.valid json_decode.gstep json_decode.begin_value].
    change (json_decode.push json_decode.CObject json_decode.GObjFirst [])
      with (Some (json_decode.GObjFirst, [json_decode.CObject])).
    cbv iota beta. rewrite (proj1 (valid_members (kv :: l) ltac:(done))).
    cbn [default]. rewrite object_members by done.
    by rewrite Hfold.
Qed.

Lemma canonical_ascii_key (k : string) : canonical k -> ascii_key k.
Proof.
  intros (ip & Hwf & ->). unfold ascii_key.
  eapply all_chars_impl; [|by apply all_chars_String].
  intros c Hc. by destruct (addr_char_plain c Hc) as (H & _).
Qed.

(** ** [loadState] after [saveState] *)


(* --------------------------------------------------------------------- *)
(** ** Further properties of the escalation and of the loop              *)
(* --------------------------------------------------------------------- *)

Lemma length_app_s (s t : string) :
  String.length (s +:+ t) = (String.length s + String.length t)%nat.
Proof.
  induction s as [|c s IH]; [reflexivity|].
  rewrite app_String. cbn [String.length]. rewrite IH. reflexivity.
Qed.

Lemma Sprintf_not_permanent (h : Z) : fmt.Sprintf_02d_00_00 h <> permanent.
Proof.
  unfold fmt.Sprintf_02d_00_00, permanent. intros H.
  apply (f_equal String.length) in H. rewrite length_app_s in H.
  cbn [String.length] in H. lia.
Qed.

Lemma getTimeout_ok_count (count : Z) (hours : list Z) (s : string) :
  getTimeout count hours = Ok s -> 1 <= count.
Proof.
  unfold getTimeout, index. destruct (count <=? _) eqn:E.
  - destruct (count - 1 <? 0) eqn:E1; [discriminate|].
    apply Z.ltb_ge in E1. lia.
  - apply Z.leb_gt in E. lia.
Qed.

(** X1.  From the first offense on, [getTimeout] answers the permanent
    sentinel ["0"] exactly when the count is past the end of the schedule:
    no hour of the schedule, whatever its value, is printed as the
    sentinel. *)
Theorem getTimeout_permanent_iff (count : Z) (hours : list Z) :
  1 <= count ->
  (getTimeout count hours = Ok permanent <->
   Z.of_nat (length hours) < count).
Proof.
  intros Hc. split.
  - intros H. destruct (Z_lt_ge_dec (Z.of_nat (length hours)) count) as [|Hle];
      [assumption|].
    destruct (getTimeout_in_schedule hours count) as (h & _ & Hh); [lia|].
    rewrite Hh in H. injection H as H. destruct (Sprintf_not_permanent _ H).
  - apply getTimeout_past_schedule.
Qed.

Lemma getTimeout_permanent_iff_witness :
  getTimeout 4 [1; 3; 7] = Ok permanent <-> Z.of_nat (length [1; 3; 7]) < 4.
Proof. apply (getTimeout_permanent_iff 4 [1; 3; 7]). lia. Defined.

Lemma wrap_int_small (z : Z) : is_int z -> wrap_int z = z.
Proof.
  unfold is_int, minInt, maxInt, wrap_int. intros H.
  rewrite Z.mod_small; lia.
Qed.

Lemma wrap_int_is_int (z : Z) : is_int (wrap_int z).
Proof.
  unfold is_int, minInt, maxInt, wrap_int.
  pose proof (Z.mod_pos_bound (z + 2 ^ 63) (2 ^ 64) eq_refl). lia.
Qed.

Lemma counted_true (cfg : Config) (raw : string) :
  counted cfg raw = true <->
  sanitizeIP raw <> "" /\
  isWhitelisted (sanitizeIP raw) (Whitelist cfg) = false.
Proof.
  unfold counted. rewrite andb_true_iff, !negb_true_iff.
  rewrite bool_decide_eq_false. tauto.
Qed.

Lemma expected_directive_timed (cfg : Config) (ip : string) (count h : Z) :
  Escalation cfg !! Z.to_nat (count - 1) = Some h ->
  expected_directive cfg ip count =
  directive (ListTemp cfg) ip (fmt.Sprintf_02d_00_00 h).
Proof. unfold expected_directive. by intros ->. Qed.

Lemma expected_directive_permanent (cfg : Config) (ip : string) (count : Z) :
  Z.of_nat (length (Escalation cfg)) < count ->
  expected_directive cfg ip count = directive (ListPerm cfg) ip permanent.
Proof.
  intros H. unfold expected_directive.
  rewrite (proj2 (lookup_ge_None _ _)); [done|]. lia.
Qed.

Section LoopFacts.

Context {Client : Type}.
Variable RunArgs : Client -> list string -> Client * bool.

Lemma process_skipped (cfg : Config) (r : run Client) (raw : string) :
  counted cfg raw = false ->
  exists r',
    process RunArgs cfg r raw = Ok r' /\
    state r' = state r /\ sent r' = sent r /\ client r' = client r.
Proof.
  unfold counted, process. intros H.
  destruct (bool_decide _); [by eexists|].
  destruct (isWhitelisted _ _); [by eexists|]. discriminate H.
Qed.

Lemma process_nil (cfg : Config) (r : run Client) (raw : string) :
  counted cfg raw = true -> state r = None ->
  process RunArgs cfg r raw = Panic NilMapAssignment.
Proof.
  intros [Hv Hw]%counted_true Hs. unfold process.
  rewrite bool_decide_eq_false_2, Hw, Hs by done. reflexivity.
Qed.

Lemma process_step (cfg : Config) (r : run Client) (raw : string)
      (m : gmap string Z) :
  counted cfg raw = true -> state r = Some m ->
  0 <= default 0 (m !! sanitizeIP raw) < maxInt ->
  exists r',
    process RunArgs cfg r raw = Ok r' /\
    state r' =
      Some (<[sanitizeIP raw := default 0 (m !! sanitizeIP raw) + 1]> m) /\
    sent r' =
      sent r ++ [expected_directive cfg (sanitizeIP raw)
                   (default 0 (m !! sanitizeIP raw) + 1)].
Proof.
  intros [Hv Hw]%counted_true Hs Hc. unfold process.
  rewrite bool_decide_eq_false_2, Hw, Hs by done.
  set (ip := sanitizeIP raw) in *. set (c := default 0 (m !! ip)) in *.
  cbn [map_incr]. rewrite wrap_int_small by (unfold is_int, minInt, maxInt in *; lia).
  cbn [mbind result_bind map_get]. rewrite lookup_insert_eq. cbn [default from_option id]. fold c.
  destruct (Z_lt_ge_dec (Z.of_nat (length (Escalation cfg))) (c + 1)) as [Hlt|Hge].
  - rewrite getTimeout_past_schedule by done. cbn [mbind result_bind].
    rewrite bool_decide_eq_true_2 by done.
    destruct (RunArgs _ _) as [c' e]. eexists. split; [reflexivity|].
    cbn. by rewrite expected_directive_permanent.
  - destruct (getTimeout_in_schedule (Escalation cfg) (c + 1)) as (h & Hh & ->);
      [lia|].
    cbn [mbind result_bind].
    rewrite bool_decide_eq_false_2 by apply Sprintf_not_permanent.
    destruct (RunArgs _ _) as [c' e]. eexists. split; [reflexivity|].
    cbn. by rewrite (expected_directive_timed _ _ _ h).
Qed.


Lemma offenses_cons (cfg : Config) (ip raw : string) (ips : list string) :
  offenses cfg ip (raw :: ips) =
  (if counted_as cfg ip raw then 1 else 0) + offenses cfg ip ips.
Proof.
  unfold offenses. cbn [List.filter].
  destruct (counted_as cfg ip raw); cbn [length]; lia.
Qed.

Lemma offenses_nonneg (cfg : Config) (ip : string) (ips : list string) :
  0 <= offenses cfg ip ips.
Proof. unfold offenses. lia. Qed.

Lemma loop_counts_aux (cfg : Config) (ips : list string) :
  forall (r : run Client) (m : gmap string Z),
    state r = Some m ->
    Z.of_nat (length ips) <= maxInt ->
    map_Forall (fun _ v => 0 <= v /\ v + Z.of_nat (length ips) <= maxInt) m ->
    exists r' m',
      loop RunArgs cfg r ips = Ok r' /\ state r' = Some m' /\
      forall ip,
        map_get (state r') ip = map_get (state r) ip + offenses cfg ip ips.
Proof.
  induction ips as [|raw ips IH]; intros r m Hs Hlen Hm.
  - exists r, m. split; [reflexivity|]. split; [exact Hs|].
    intros ip. unfold offenses. cbn. lia.
  - cbn [loop]. destruct (counted cfg raw) eqn:Hcnt.
    + assert (0 <= default 0 (m !! sanitizeIP raw) /\
              default 0 (m !! sanitizeIP raw) + Z.of_nat (length (raw :: ips))
              <= maxInt) as Hc.
      { destruct (m !! sanitizeIP raw) as [v|] eqn:Hv; cbn [default from_option id].
        - exact (Hm _ _ Hv).
        - unfold id. lia. }
      cbn [length] in Hc, Hlen.
      destruct (process_step cfg r raw m Hcnt Hs) as (r1 & -> & Hs1 & _);
        [lia|].
      cbn [mbind result_bind].
      destruct (IH r1 _ Hs1) as (r' & m' & Hl & Hs' & Hcount); [lia| |].
      { apply map_Forall_insert_2.
        - lia.
        - eapply map_Forall_impl; [exact Hm|]. cbn. intros _ v. lia. }
      exists r', m'. split; [exact Hl|]. split; [exact Hs'|].
      intros ip. rewrite Hcount, Hs1, Hs, offenses_cons. cbn [map_get].
      unfold counted_as. rewrite Hcnt. cbn [andb].
      destruct (decide (sanitizeIP raw = ip)) as [->|Hne].
      * rewrite lookup_insert_eq, bool_decide_eq_true_2 by done.
        cbn [default from_option id]. unfold id. lia.
      * rewrite lookup_insert_ne, bool_decide_eq_false_2 by done. lia.
    + destruct (process_skipped cfg r raw Hcnt) as (r1 & -> & Hs1 & _).
      cbn [mbind result_bind]. rewrite Hs in Hs1. cbn [length] in Hlen.
      destruct (IH r1 m Hs1) as (r' & m' & Hl & Hs' & Hcount); [lia| |].
      { eapply map_Forall_impl; [exact Hm|]. cbn. intros _ v. lia. }
      exists r', m'. split; [exact Hl|]. split; [exact Hs'|].
      intros ip. rewrite Hcount, Hs1, Hs, offenses_cons.
      unfold counted_as. rewrite Hcnt. cbn [andb]. lia.
Qed.


Lemma process_counted_ok (cfg : Config) (r r' : run Client) (raw : string) :
  counted cfg raw = true ->
  process RunArgs cfg r raw = Ok r' ->
  exists m count,
    state r = Some m /\
    count = wrap_int (default 0 (m !! sanitizeIP raw) + 1) /\
    1 <= count /\
    state r' = Some (<[sanitizeIP raw := count]> m) /\
    sent r' = sent r ++ [expected_directive cfg (sanitizeIP raw) count].
Proof.
  intros [Hv Hw]%counted_true. unfold process.
  rewrite bool_decide_eq_false_2, Hw by done.
  destruct (state r) as [m|]; [|by cbn].
  cbn [map_incr mbind result_bind map_get]. rewrite lookup_insert_eq.
  cbn [default from_option id]. unfold id.
  set (count := wrap_int _).
  destruct (getTimeout count (Escalation cfg)) as [timeout|] eqn:Ht;
    [|by cbn].
  pose proof (getTimeout_ok_count _ _ _ Ht) as Hone.
  cbn [mbind result_bind]. intros H. exists m, count.
  split; [reflexivity|]. split; [reflexivity|]. split; [exact Hone|].
  destruct (Z_lt_ge_dec (Z.of_nat (length (Escalation cfg))) count)
    as [Hlt|Hge].
  - rewrite getTimeout_past_schedule in Ht by done. injection Ht as <-.
    rewrite bool_decide_eq_true_2 in H by done.
    destruct (RunArgs _ _) as [c' e]. injection H as <-. cbn.
    by rewrite expected_directive_permanent.
  - destruct (getTimeout_in_schedule (Escalation cfg) count) as (h & Hh & Hok);
      [lia|].
    rewrite Hok in Ht. injection Ht as <-.
    rewrite bool_decide_eq_false_2 in H by apply Sprintf_not_permanent.
    destruct (RunArgs _ _) as [c' e]. injection H as <-. cbn.
    by rewrite (expected_directive_timed _ _ _ h).
Qed.


Lemma loop_nil_aux (cfg : Config) (ips : list string) :
  forall r : run Client,
    state r = None ->
    if existsb (counted cfg) ips
    then loop RunArgs cfg r ips = Panic NilMapAssignment
    else exists r',
        loop RunArgs cfg r ips = Ok r' /\ state r' = None /\
        sent r' = sent r /\ client r' = client r.
Proof.
  induction ips as [|raw ips IH]; intros r Hs.
  - cbn. by exists r.
  - cbn [existsb loop]. destruct (counted cfg raw) eqn:Hcnt.
    + cbn [orb]. by rewrite process_nil.
    + cbn [orb].
      destruct (process_skipped cfg r raw Hcnt) as (r1 & -> & Hs1 & Hsent & Hcl).
      cbn [mbind result_bind]. rewrite Hs in Hs1. specialize (IH r1 Hs1).
      destruct (existsb (counted cfg) ips); [exact IH|].
      destruct IH as (r' & Hl & ? & ? & ?). exists r'.
      repeat split; congruence.
Qed.

Lemma loop_sent_aux (cfg : Config) (ips : list string) :
  forall r r' : run Client,
    loop RunArgs cfg r ips = Ok r' ->
    exists ds,
      sent r' = sent r ++ ds /\
      Forall2 (fun d raw =>
                 exists count, 1 <= count /\ is_int count /\
                   d = expected_directive cfg (sanitizeIP raw) count)
              ds (List.filter (counted cfg) ips).
Proof.
  induction ips as [|raw ips IH]; intros r r' H.
  - injection H as <-. exists []. split; [by rewrite app_nil_r|constructor].
  - cbn [loop] in H.
    destruct (process RunArgs cfg r raw) as [r1|p] eqn:Hp; [|discriminate].
    cbn [mbind result_bind] in H. destruct (IH _ _ H) as (ds & Hds & Hall).
    cbn [List.filter]. destruct (counted cfg raw) eqn:Hcnt.
    + destruct (process_counted_ok cfg r r1 raw Hcnt Hp)
        as (m & count & _ & Hcount & Hone & _ & Hsent).
      exists (expected_directive cfg (sanitizeIP raw) count :: ds). split.
      * rewrite Hds, Hsent, <- app_assoc. reflexivity.
      * constructor; [|exact Hall]. exists count.
        split; [exact Hone|]. split; [|reflexivity].
        rewrite Hcount. apply wrap_int_is_int.
    + destruct (process_skipped cfg r raw Hcnt) as (r1' & Hp' & _ & Hsent & _).
      rewrite Hp in Hp'. injection Hp' as <-.
      exists ds. split; [by rewrite Hds, Hsent|exact Hall].
Qed.


Lemma process_state_ok (cfg : Config) (r r' : run Client) (raw : string) :
  process RunArgs cfg r raw = Ok r' ->
  (counted cfg raw = false /\ state r' = state r) \/
  (counted cfg raw = true /\
   exists m count,
     state r = Some m /\ is_int count /\ 1 <= count /\
     state r' = Some (<[sanitizeIP raw := count]> m)).
Proof.
  intros H. destruct (counted cfg raw) eqn:Hcnt.
  - right. split; [reflexivity|].
    destruct (process_counted_ok cfg r r' raw Hcnt H)
      as (m & count & Hs & Hcount & Hone & Hs' & _).
    exists m, count. repeat split; try done.
    all: rewrite Hcount; apply wrap_int_is_int.
  - left. split; [reflexivity|].
    destruct (process_skipped cfg r raw Hcnt) as (r1 & Hp & Hs & _).
    rewrite H in Hp. by injection Hp as <-.
Qed.

Lemma counted_canonical (cfg : Config) (raw : string) :
  counted cfg raw = true -> canonical (sanitizeIP raw).
Proof.
  intros [Hv _]%counted_true. by destruct (sanitizeIP_result raw).
Qed.

Lemma offenses_zero_cons (cfg : Config) (k raw : string) (ips : list string) :
  offenses cfg k (raw :: ips) = 0 ->
  counted_as cfg k raw = false /\ offenses cfg k ips = 0.
Proof.
  rewrite offenses_cons. pose proof (offenses_nonneg cfg k ips).
  destruct (counted_as cfg k raw); [lia|]. split; [reflexivity|lia].
Qed.

Lemma loop_untouched (cfg : Config) (ips : list string) (k : string) :
  forall r r' : run Client,
    loop RunArgs cfg r ips = Ok r' ->
    offenses cfg k ips = 0 ->
    map_lookup (state r') k = map_lookup (state r) k.
Proof.
  induction ips as [|raw ips IH]; intros r r' H Hz.
  - by injection H as <-.
  - cbn [loop] in H.
    destruct (process RunArgs cfg r raw) as [r1|p] eqn:Hp; [|discriminate].
    cbn [mbind result_bind] in H.
    destruct (offenses_zero_cons _ _ _ _ Hz) as [Hk Hz'].
    rewrite (IH _ _ H Hz').
    destruct (process_state_ok _ _ _ _ Hp)
      as [[_ ->]|(Hcnt & m & count & -> & _ & _ & ->)]; [reflexivity|].
    unfold counted_as in Hk. rewrite Hcnt in Hk. cbn [andb] in Hk.
    apply bool_decide_eq_false in Hk. cbn. by rewrite lookup_insert_ne.
Qed.

Lemma loop_keeps_keys (cfg : Config) (ips : list string) (k : string) :
  forall r r' : run Client,
    loop RunArgs cfg r ips = Ok r' ->
    is_Some (map_lookup (state r) k) -> is_Some (map_lookup (state r') k).
Proof.
  induction ips as [|raw ips IH]; intros r r' H Hk.
  - by injection H as <-.
  - cbn [loop] in H.
    destruct (process RunArgs cfg r raw) as [r1|p] eqn:Hp; [|discriminate].
    cbn [mbind result_bind] in H. apply (IH _ _ H).
    destruct (process_state_ok _ _ _ _ Hp)
      as [[_ ->]|(Hcnt & m & count & Hs & _ & _ & ->)]; [exact Hk|].
    rewrite Hs in Hk. cbn in *.
    destruct (decide (sanitizeIP raw = k)) as [->|Hne].
    + by rewrite lookup_insert_eq.
    + by rewrite lookup_insert_ne.
Qed.

Lemma loop_new_keys (cfg : Config) (ips : list string) (k : string) :
  forall r r' : run Client,
    loop RunArgs cfg r ips = Ok r' ->
    is_Some (map_lookup (state r') k) ->
    is_Some (map_lookup (state r) k) \/
    (canonical k /\ 0 < offenses cfg k ips).
Proof.
  induction ips as [|raw ips IH]; intros r r' H Hk.
  - injection H as <-. by left.
  - cbn [loop] in H.
    destruct (process RunArgs cfg r raw) as [r1|p] eqn:Hp; [|discriminate].
    cbn [mbind result_bind] in H. rewrite offenses_cons.
    pose proof (offenses_nonneg cfg k ips).
    destruct (IH _ _ H Hk) as [Hk1|[Hc Hpos]].
    2: { right. split; [exact Hc|]. destruct (counted_as cfg k raw); lia. }
    destruct (process_state_ok _ _ _ _ Hp)
      as [[_ Hs]|(Hcnt & m & count & Hs & _ & _ & Hs1)].
    + left. by rewrite <- Hs.
    + rewrite Hs1 in Hk1. rewrite Hs. cbn in *.
      destruct (decide (sanitizeIP raw = k)) as [<-|Hne].
      * right. split; [by apply (counted_canonical cfg)|].
        unfold counted_as. rewrite Hcnt, bool_decide_eq_true_2 by done.
        cbn [andb]. lia.
      * left. by rewrite lookup_insert_ne in Hk1.
Qed.

Lemma loop_wf_state (cfg : Config) (ips : list string) :
  forall r r' : run Client,
    loop RunArgs cfg r ips = Ok r' ->
    wf_state (state r) -> wf_state (state r').
Proof.
  induction ips as [|raw ips IH]; intros r r' H Hwf.
  - by injection H as <-.
  - cbn [loop] in H.
    destruct (process RunArgs cfg r raw) as [r1|p] eqn:Hp; [|discriminate].
    cbn [mbind result_bind] in H. apply (IH _ _ H).
    destruct (process_state_ok _ _ _ _ Hp)
      as [[_ ->]|(Hcnt & m & count & Hs & Hint & _ & ->)]; [exact Hwf|].
    rewrite Hs in Hwf. cbn [wf_state] in *.
    apply map_Forall_insert_2; [|exact Hwf].
    split; [|exact Hint].
    apply canonical_ascii_key. by apply (counted_canonical cfg).
Qed.

Lemma loop_counted_positive (cfg : Config) (ips : list string) (k : string) :
  forall r r' : run Client,
    loop RunArgs cfg r ips = Ok r' ->
    0 < offenses cfg k ips -> 1 <= map_get (state r') k.
Proof.
  induction ips as [|raw ips IH]; intros r r' H Hpos.
  - unfold offenses in Hpos. cbn in Hpos. lia.
  - cbn [loop] in H.
    destruct (process RunArgs cfg r raw) as [r1|p] eqn:Hp; [|discriminate].
    cbn [mbind result_bind] in H.
    pose proof (offenses_nonneg cfg k ips).
    destruct (Z.eq_dec (offenses cfg k ips) 0) as [Hz|Hnz].
    2: { apply (IH _ _ H). lia. }
    pose proof (loop_untouched cfg ips k _ _ H Hz) as Hsame.
    rewrite offenses_cons, Hz in Hpos.
    destruct (counted_as cfg k raw) eqn:Hk; [|lia].
    unfold counted_as in Hk. apply andb_true_iff in Hk as [Hcnt Heq].
    apply bool_decide_eq_true in Heq.
    destruct (process_state_ok _ _ _ _ Hp)
      as [[Hcnt' _]|(_ & m & count & Hs & _ & Hone & Hs1)]; [congruence|].
    rewrite Hs1, Heq in Hsame. cbn in Hsame.
    rewrite lookup_insert_eq in Hsame.
    destruct (state r') as [m'|]; [|discriminate]. cbn in *.
    by rewrite Hsame.
Qed.

End LoopFacts.

Section TwoRuns.

Context {Client1 Client2 : Type}.
Variable RunArgs1 : Client1 -> list string -> Client1 * bool.
Variable RunArgs2 : Client2 -> list string -> Client2 * bool.



End TwoRuns.

Lemma loadState_after_saveState (fs : os.FS) (path : string)
      (s : option (gmap string Z)) :
  wf_state s -> fs !! path <> Some os.Directory ->
  loadState (saveState fs path s) path = (s, None).
Proof.
  intros Hwf Hdir. unfold saveState, os.WriteFile.
  destruct (fs !! path) as [[content|]|] eqn:E; [|done|];
    unfold loadState, os.ReadFile, os.FS in *; rewrite lookup_insert_eq;
    by rewrite Unmarshal_MarshalIndent.
Qed.



Section LoopTheorems.

Context {Client : Type}.
Variable RunArgs : Client -> list string -> Client * bool.

(** X2.  One round of the loop on a valid address that is not whitelisted,
    whose count [c] in the table is between 0 and the largest [int] less
    one: the round ends without a panic, the count of the address becomes
    [c + 1] and no other entry changes, and exactly one directive is added:
    for the temporary list with the hour at index [c] of the schedule when
    there is one, for the permanent list with timeout 0 when [c] is at or
    past its end. *)
Theorem process_counts_once (cfg : Config) (r : run Client) (raw : string)
        (m : gmap string Z) :
  state r = Some m ->
  sanitizeIP raw <> "" ->
  isWhitelisted (sanitizeIP raw) (Whitelist cfg) = false ->
  0 <= default 0 (m !! sanitizeIP raw) < maxInt ->
  exists r',
    process RunArgs cfg r raw = Ok r' /\
    state r' =
      Some (<[sanitizeIP raw := default 0 (m !! sanitizeIP raw) + 1]> m) /\
    (forall h,
        Escalation cfg !! Z.to_nat (default 0 (m !! sanitizeIP raw)) = Some h ->
        sent r' =
          sent r ++ [directive (ListTemp cfg) (sanitizeIP raw)
                       (fmt.Sprintf_02d_00_00 h)]) /\
    (Z.of_nat (length (Escalation cfg)) <= default 0 (m !! sanitizeIP raw) ->
     sent r' = sent r ++ [directive (ListPerm cfg) (sanitizeIP raw) "0"]).
Proof.
  intros Hs Hv Hw Hc.
  destruct (process_step RunArgs cfg r raw m) as (r' & Hp & Hs' & Hsent);
    [by apply counted_true|exact Hs|exact Hc|].
  exists r'. split; [exact Hp|]. split; [exact Hs'|]. split.
  - intros h Hh. rewrite Hsent.
    rewrite (expected_directive_timed _ _ _ h); [reflexivity|].
    by replace (default 0 (m !! sanitizeIP raw) + 1 - 1)
      with (default 0 (m !! sanitizeIP raw)) by lia.
  - intros Hlen. rewrite Hsent, expected_directive_permanent by lia.
    reflexivity.
Qed.

(** X3.  A batch run from a table whose counts are not negative and stay
    within [int] when the length of the batch is added: the loop ends
    without a panic, and the count of every address has grown by the
    number of tokens of the batch that stand for it and are counted (valid
    and not whitelisted).  Every occurrence counts, also repeated ones. *)
Theorem loop_counts_offenses (cfg : Config) (r : run Client)
        (ips : list string) (m : gmap string Z) :
  state r = Some m ->
  Z.of_nat (length ips) <= maxInt ->
  map_Forall (fun _ v => 0 <= v /\ v + Z.of_nat (length ips) <= maxInt) m ->
  exists r' m',
    loop RunArgs cfg r ips = Ok r' /\ state r' = Some m' /\
    forall ip,
      map_get (state r') ip = map_get (state r) ip + offenses cfg ip ips.
Proof. apply loop_counts_aux. Qed.

(** X4.  A run that starts from a nil table, as [loadState] returns one
    for a state file that cannot be read or is not valid JSON: the loop
    panics with an assignment to an entry of a nil map as soon as the
    batch holds one counted token, and otherwise ends with the table still
    nil and nothing sent.  In the first case [main] ends in the panic
    before [saveState]. *)
Theorem loop_nil_state (cfg : Config) (r : run Client) (ips : list string) :
  state r = None ->
  (existsb (counted cfg) ips = true ->
   loop RunArgs cfg r ips = Panic NilMapAssignment) /\
  (existsb (counted cfg) ips = false ->
   exists r', loop RunArgs cfg r ips = Ok r' /\ state r' = None /\
              sent r' = sent r) /\
  (forall fs c,
      (loadState fs (StateFile cfg)).1 = None ->
      existsb (counted cfg) ips = true ->
      main RunArgs cfg fs ips c = Panic NilMapAssignment).
Proof.
  intros Hs. pose proof (loop_nil_aux RunArgs cfg ips r Hs) as H.
  split; [|split].
  - intros E. by rewrite E in H.
  - intros E. rewrite E in H. destruct H as (r' & ? & ? & ? & _). by exists r'.
  - intros fs c Hload E. unfold main.
    destruct (loadState fs (StateFile cfg)) as [state0 e]. cbn in Hload.
    subst state0.
    pose proof (loop_nil_aux RunArgs cfg ips
                  {| state := None; client := c; sent := []; logged := [] |}
                  eq_refl) as H'.
    rewrite E in H'. by rewrite H'.
Qed.

(** X5.  The directives of a batch: a loop that ends without a panic has
    added one directive for each counted token, in the order of the batch
    and none for the other tokens.  The directive names the canonical form
    of the token's address and is the one expected for some count from 1
    on: a timeout of 0 goes to the permanent list, an hour of the schedule
    to the temporary list. *)
Theorem loop_directives (cfg : Config) (r r' : run Client)
        (ips : list string) :
  loop RunArgs cfg r ips = Ok r' ->
  exists ds,
    sent r' = sent r ++ ds /\
    Forall2 (fun d raw =>
               exists count, 1 <= count /\ is_int count /\
                 d = expected_directive cfg (sanitizeIP raw) count)
            ds (List.filter (counted cfg) ips).
Proof. apply loop_sent_aux. Qed.

(** X6.  What a loop that ends without a panic does to the table: the
    entry of an address with no counted token in the batch is left as it
    is, no key is removed, every key added is the canonical form of an
    address counted in the batch, every address counted in the batch ends
    with a count of at least 1, and a table with ASCII keys and [int]
    counts stays one. *)
Theorem loop_table_frame (cfg : Config) (r r' : run Client)
        (ips : list string) :
  loop RunArgs cfg r ips = Ok r' ->
  (forall k, offenses cfg k ips = 0 ->
             map_lookup (state r') k = map_lookup (state r) k) /\
  (forall k, is_Some (map_lookup (state r) k) ->
             is_Some (map_lookup (state r') k)) /\
  (forall k, is_Some (map_lookup (state r') k) ->
             is_Some (map_lookup (state r) k) \/
             (canonical k /\ 0 < offenses cfg k ips)) /\
  (forall k, 0 < offenses cfg k ips -> 1 <= map_get (state r') k) /\
  (wf_state (state r) -> wf_state (state r')).
Proof.
  intros H. repeat split.
  - intros k. by apply (loop_untouched RunArgs cfg ips k).
  - intros k. by apply (loop_keeps_keys RunArgs cfg ips k).
  - intros k. by apply (loop_new_keys RunArgs cfg ips k).
  - intros k. by apply (loop_counted_positive RunArgs cfg ips k r).
  - by apply (loop_wf_state RunArgs cfg ips).
Qed.



End LoopTheorems.

Lemma process_counts_once_witness :
  exists r',
    process accepting default_config run0 "203.0.113.25" = Ok r' /\
    state r' =
      Some (<[sanitizeIP "203.0.113.25" :=
                default 0 ((∅ : gmap string Z) !! sanitizeIP "203.0.113.25") + 1]>
              ∅) /\
    (forall h,
        Escalation default_config
          !! Z.to_nat (default 0 ((∅ : gmap string Z)
                                    !! sanitizeIP "203.0.113.25")) = Some h ->
        sent r' =
          sent run0 ++ [directive (ListTemp default_config)
                          (sanitizeIP "203.0.113.25")
                          (fmt.Sprintf_02d_00_00 h)]) /\
    (Z.of_nat (length (Escalation default_config))
     <= default 0 ((∅ : gmap string Z) !! sanitizeIP "203.0.113.25") ->
     sent r' =
       sent run0 ++ [directive (ListPerm default_config)
                       (sanitizeIP "203.0.113.25") "0"]).
Proof.
  apply (process_counts_once accepting default_config run0 "203.0.113.25" ∅).
  - reflexivity.
  - vm_compute. discriminate.
  - vm_compute. reflexivity.
  - vm_compute. split; [discriminate|reflexivity].
Defined.

Lemma loop_counts_offenses_witness :
  exists r' m',
    loop accepting default_config run0
         ["203.0.113.25"; "8.8.8.8"; "203.0.113.25"] = Ok r' /\
    state r' = Some m' /\
    forall ip,
      map_get (state r') ip =
      map_get (state run0) ip +
      offenses default_config ip ["203.0.113.25"; "8.8.8.8"; "203.0.113.25"].
Proof.
  apply (loop_counts_offenses accepting default_config run0
           ["203.0.113.25"; "8.8.8.8"; "203.0.113.25"] ∅).
  - reflexivity.
  - vm_compute. discriminate.
  - apply map_Forall_empty.
Defined.

Lemma loop_nil_state_witness :
  (existsb (counted default_config) ["203.0.113.25"] = true ->
   loop accepting default_config
        {| state := None; client := tt; sent := []; logged := [] |}
        ["203.0.113.25"] = Panic NilMapAssignment) /\
  (existsb (counted default_config) ["203.0.113.25"] = false ->
   exists r',
     loop accepting default_config
          {| state := None; client := tt; sent := []; logged := [] |}
          ["203.0.113.25"] = Ok r' /\
     state r' = None /\ sent r' = []) /\
  (forall fs c,
      (loadState fs (StateFile default_config)).1 = None ->
      existsb (counted default_config) ["203.0.113.25"] = true ->
      main accepting default_config fs ["203.0.113.25"] c =
      Panic NilMapAssignment).
Proof.
  apply (loop_nil_state accepting default_config
           {| state := None; client := tt; sent := []; logged := [] |}
           ["203.0.113.25"]).
  reflexivity.
Defined.

Lemma loop_directives_witness :
  exists ds,
    sent run1 = sent run0 ++ ds /\
    Forall2 (fun d raw =>
               exists count, 1 <= count /\ is_int count /\
                 d = expected_directive default_config (sanitizeIP raw) count)
            ds (List.filter (counted default_config) ["203.0.113.25"]).
Proof.
  apply (loop_directives refusing default_config run0 run1 ["203.0.113.25"]).
  vm_compute. reflexivity.
Defined.

Lemma loop_table_frame_witness :
  (forall k, offenses default_config k ["203.0.113.25"] = 0 ->
             map_lookup (state run1) k = map_lookup (state run0) k) /\
  (forall k, is_Some (map_lookup (state run0) k) ->
             is_Some (map_lookup (state run1) k)) /\
  (forall k, is_Some (map_lookup (state run1) k) ->
             is_Some (map_lookup (state run0) k) \/
             (canonical k /\ 0 < offenses default_config k ["203.0.113.25"])) /\
  (forall k, 0 < offenses default_config k ["203.0.113.25"] ->
             1 <= map_get (state run1) k) /\
  (wf_state (state run0) -> wf_state (state run1)).
Proof.
  apply (loop_table_frame refusing default_config run0 run1 ["203.0.113.25"]).
  vm_compute. reflexivity.
Defined.



Lemma default_Some (d x : Z) : default d (Some x) = x.
Proof. reflexivity. Qed.

Section MoreLoopTheorems.

Context {Client : Type}.
Variable RunArgs : Client -> list string -> Client * bool.

Lemma loop_repeat_aux (cfg : Config) (raw : string) :
  counted cfg raw = true ->
  forall (k : nat) (r : run Client) (m : gmap string Z),
    state r = Some m ->
    0 <= default 0 (m !! sanitizeIP raw) ->
    default 0 (m !! sanitizeIP raw) + Z.of_nat k <= maxInt ->
    exists r',
      loop RunArgs cfg r (replicate k raw) = Ok r' /\
      map_get (state r') (sanitizeIP raw) =
        default 0 (m !! sanitizeIP raw) + Z.of_nat k /\
      sent r' =
        sent r ++
        ((fun i => expected_directive cfg (sanitizeIP raw)
                     (default 0 (m !! sanitizeIP raw) + Z.of_nat i))
           <$> seq 1 k).
Proof.
  intros Hcnt. induction k as [|k IH]; intros r m Hs H0 Hmax.
  - exists r. split; [reflexivity|]. rewrite Hs. cbn.
    split; [lia|by rewrite app_nil_r].
  - cbn [replicate loop].
    destruct (process_step RunArgs cfg r raw m Hcnt Hs) as (r1 & -> & Hs1 & Hsent);
      [lia|].
    cbn [mbind result_bind].
    destruct (IH r1 _ Hs1) as (r' & Hl & Hget & Hsent').
    { rewrite lookup_insert_eq, default_Some. lia. }
    { rewrite lookup_insert_eq, default_Some. lia. }
    exists r'. split; [exact Hl|]. rewrite lookup_insert_eq in Hget, Hsent'.
    rewrite default_Some in Hget, Hsent'.
    split; [rewrite Hget; lia|].
    rewrite Hsent', Hsent, <- app_assoc. f_equal.
    cbn [seq fmap list_fmap app]. f_equal.
    rewrite <- (fmap_S_seq 1 k), <- list_fmap_compose.
    apply list_fmap_ext. intros _ i _. cbn [compose]. f_equal. lia.
Qed.

(** X23.  A repeat offender walks through the schedule.  When a batch is
    [k] times the same token, valid and not whitelisted, and the count [c]
    of its address is not negative and stays within [int], the loop ends
    without a panic, the count becomes [c + k], and the directives added
    are, in this order, those expected for the counts [c + 1] to [c + k]:
    the hours of the schedule at the indices [c] and following on the
    temporary list, then timeout 0 on the permanent list once the schedule
    is used up. *)
Theorem loop_repeat_offender (cfg : Config) (r : run Client) (raw : string)
        (m : gmap string Z) (k : nat) :
  state r = Some m ->
  sanitizeIP raw <> "" ->
  isWhitelisted (sanitizeIP raw) (Whitelist cfg) = false ->
  0 <= default 0 (m !! sanitizeIP raw) ->
  default 0 (m !! sanitizeIP raw) + Z.of_nat k <= maxInt ->
  exists r',
    loop RunArgs cfg r (replicate k raw) = Ok r' /\
    map_get (state r') (sanitizeIP raw) =
      default 0 (m !! sanitizeIP raw) + Z.of_nat k /\
    sent r' =
      sent r ++
      ((fun i => expected_directive cfg (sanitizeIP raw)
                   (default 0 (m !! sanitizeIP raw) + Z.of_nat i))
         <$> seq 1 k).
Proof.
  intros Hs Hv Hw. apply loop_repeat_aux; [|exact Hs].
  by apply counted_true.
Qed.

(** X24.  A nil table is never repaired.  When [loadState] gives a nil
    table (the state file cannot be read, is not valid JSON or holds
    [null]) and [main] ends without a panic, the batch held no counted
    token, nothing was sent, and the state file [main] leaves gives a nil
    table again: the next run that counts an address panics as this one
    would have. *)
Theorem main_nil_table_stays (cfg : Config) (fs fs' : os.FS)
        (ips : list string) (c : Client) (r' : run Client) :
  (loadState fs (StateFile cfg)).1 = None ->
  main RunArgs cfg fs ips c = Ok (fs', r') ->
  existsb (counted cfg) ips = false /\
  state r' = None /\ sent r' = [] /\
  (loadState fs' (StateFile cfg)).1 = None.
Proof.
  intros Hload. unfold main.
  destruct (loadState fs (StateFile cfg)) as [state0 e] eqn:El.
  cbn in Hload. subst state0.
  pose proof (loop_nil_aux RunArgs cfg ips
                {| state := None; client := c; sent := []; logged := [] |}
                eq_refl) as H.
  destruct (existsb (counted cfg) ips).
  { rewrite H. discriminate. }
  destruct H as (r1 & -> & Hs & Hsent & _).
  cbn [mbind result_bind]. intros [= <- <-].
  split; [reflexivity|]. split; [exact Hs|]. split; [exact Hsent|].
  rewrite Hs.
  destruct (fs !! StateFile cfg) as [[content|]|] eqn:Hd.
  - rewrite loadState_after_saveState; [done|done|by rewrite Hd].
  - unfold saveState, os.WriteFile. rewrite Hd. by rewrite El.
  - rewrite loadState_after_saveState; [done|done|by rewrite Hd].
Qed.

End MoreLoopTheorems.

Lemma loop_repeat_offender_witness :
  exists r',
    loop accepting default_config run0 (replicate 5 "203.0.113.25") = Ok r' /\
    map_get (state r') (sanitizeIP "203.0.113.25") =
      default 0 ((∅ : gmap string Z) !! sanitizeIP "203.0.113.25") +
      Z.of_nat 5 /\
    sent r' =
      sent run0 ++
      ((fun i => expected_directive default_config
                   (sanitizeIP "203.0.113.25")
                   (default 0 ((∅ : gmap string Z)
                                 !! sanitizeIP "203.0.113.25") + Z.of_nat i))
         <$> seq 1 5).
Proof.
  apply (loop_repeat_offender accepting default_config run0 "203.0.113.25"
           ∅ 5).
  - reflexivity.
  - vm_compute. discriminate.
  - vm_compute. reflexivity.
  - vm_compute. discriminate.
  - vm_compute. discriminate.
Defined.

Lemma main_nil_table_stays_witness :
  existsb (counted default_config) ["not-an-ip"; "192.168.1.50"] = false /\
  state {| state := None; client := tt; sent := [];
           logged := [LogInvalid; LogSkip "192.168.1.50"] |} = None /\
  sent {| state := None; client := tt; sent := [];
          logged := [LogInvalid; LogSkip "192.168.1.50"] |} = [] /\
  (loadState (state_file "null") (StateFile default_config)).1 = None.
Proof.
  apply (main_nil_table_stays accepting default_config
           (state_file "{not json") (state_file "null")
           ["not-an-ip"; "192.168.1.50"] tt
           {| state := None; client := tt; sent := [];
              logged := [LogInvalid; LogSkip "192.168.1.50"] |}).
  - vm_compute. reflexivity.
  - vm_compute. reflexivity.
Defined.

(* --------------------------------------------------------------------- *)
(** ** Further properties of the texts                                    *)
(* --------------------------------------------------------------------- *)

Lemma last_char_app (s : string) (c : ascii) (t : string) :
  last_char (s +:+ String c t) = last_char (String c t).
Proof.
  induction s as [|a s IH]; [reflexivity|].
  rewrite app_String. cbn [last_char]. rewrite IH.
  destruct s; reflexivity.
Qed.

Lemma last_char_get (s : string) :
  String.get (String.length s - 1) s = last_char s.
Proof.
  induction s as [|a s IH]; [reflexivity|].
  destruct s as [|b s]; [reflexivity|].
  cbn [String.length last_char] in *.
  replace (S (S (String.length s)) - 1)%nat with (S (String.length s)) by lia.
  replace (S (String.length s) - 1)%nat with (String.length s) in IH by lia.
  rewrite <- IH. reflexivity.
Qed.

Lemma last_byte_last_char (s : string) :
  strings.last_byte s = byte_of <$> last_char s.
Proof.
  unfold strings.last_byte, utf8.byte_at_end.
  destruct s as [|a s]; [reflexivity|].
  replace (String.length (String a s) <? 1)%nat with false
    by (symmetry; apply Nat.ltb_ge; cbn; lia).
  by rewrite last_char_get.
Qed.

Lemma trimRightAscii_last (s : string) (d : ascii) :
  last_char s = Some d -> strings.asciiSpace d = false ->
  strings.trimRightAscii s = s.
Proof.
  induction s as [|a s IH]; [done|]. intros Hl Hd.
  cbn [strings.trimRightAscii]. destruct s as [|b s].
  - injection Hl as ->. cbn. by rewrite Hd.
  - rewrite (IH Hl Hd). reflexivity.
Qed.

Lemma trimRightAscii_spaces (w : string) :
  all_chars strings.asciiSpace w = true -> strings.trimRightAscii w = "".
Proof.
  induction w as [|a w IH]; [done|]. cbn [all_chars strings.trimRightAscii].
  intros [Ha Hw]%andb_true_iff. by rewrite (IH Hw), Ha.
Qed.

Lemma trimRightAscii_app_spaces (s w : string) :
  all_chars strings.asciiSpace w = true ->
  strings.trimRightAscii (s +:+ w) = strings.trimRightAscii s.
Proof.
  intros Hw. induction s as [|a s IH].
  - rewrite app_Empty. by apply trimRightAscii_spaces.
  - rewrite app_String. cbn [strings.trimRightAscii]. by rewrite IH.
Qed.

Lemma asciiSpace_ascii (c : ascii) :
  strings.asciiSpace c = true -> (utf8.RuneSelf <=? byte_of c) = false.
Proof.
  destruct c as [[] [] [] [] [] [] [] []]; vm_compute; intros H;
    try discriminate H; reflexivity.
Qed.

Lemma solid_facts (c : ascii) :
  solid c = true ->
  (utf8.RuneSelf <=? byte_of c) = false /\ strings.asciiSpace c = false.
Proof.
  unfold solid, is_ascii. intros [H1 H2]%andb_true_iff.
  apply negb_true_iff in H2. split; [|exact H2].
  apply Z.ltb_lt in H1. apply Z.leb_gt. exact H1.
Qed.

Lemma TrimSpace_spaces_app (w s : string) :
  all_chars strings.asciiSpace w = true ->
  strings.TrimSpace (w +:+ s) = strings.TrimSpace s.
Proof.
  induction w as [|a w IH]; [by rewrite app_Empty|].
  cbn [all_chars]. intros [Ha Hw]%andb_true_iff.
  rewrite app_String. cbn [strings.TrimSpace].
  by rewrite (asciiSpace_ascii a Ha), Ha, IH.
Qed.

Lemma TrimSpace_trimmed_app (a w : string) :
  trimmed a = true -> all_chars strings.asciiSpace w = true ->
  strings.TrimSpace (a +:+ w) = a.
Proof.
  intros Ha Hw. destruct a as [|c a]; [done|].
  unfold trimmed in Ha. apply andb_true_iff in Ha as [Hc Hl].
  destruct (last_char (String c a)) as [d|] eqn:El; [|done].
  destruct (solid_facts c Hc) as [Hc1 Hc2].
  destruct (solid_facts d Hl) as [Hd1 Hd2].
  rewrite app_String. cbn [strings.TrimSpace]. rewrite Hc1, Hc2.
  rewrite <- app_String. unfold strings.trimSpaceRight.
  rewrite trimRightAscii_app_spaces by done.
  rewrite (trimRightAscii_last _ d El Hd2).
  rewrite last_byte_last_char, El. cbn. by rewrite Hd1.
Qed.

(** A text with solid ends between two runs of ASCII white space is
    trimmed to itself. *)
Lemma TrimSpace_padded (w1 a w2 : string) :
  all_chars strings.asciiSpace w1 = true -> trimmed a = true ->
  all_chars strings.asciiSpace w2 = true ->
  strings.TrimSpace (w1 +:+ a +:+ w2) = a.
Proof.
  intros H1 Ha H2. rewrite TrimSpace_spaces_app by done.
  by apply TrimSpace_trimmed_app.
Qed.

Lemma TrimSpace_trimmed (a : string) :
  trimmed a = true -> strings.TrimSpace a = a.
Proof.
  intros Ha. rewrite <- (app_Empty_r a) at 1.
  by apply TrimSpace_trimmed_app.
Qed.

Lemma last_char_all (P : ascii -> bool) (s : string) (d : ascii) :
  all_chars P s = true -> last_char s = Some d -> P d = true.
Proof.
  induction s as [|a s IH]; [done|]. cbn [all_chars last_char].
  intros [Ha Hs]%andb_true_iff. destruct s as [|b s].
  - by intros [= <-].
  - by apply IH.
Qed.

Lemma last_char_is_Some (c : ascii) (s : string) :
  is_Some (last_char (String c s)).
Proof.
  revert c. induction s as [|b s IH]; intros c; [by eexists|].
  cbn [last_char]. apply IH.
Qed.

Lemma all_solid_trimmed (s : string) :
  all_chars solid s = true -> s <> "" -> trimmed s = true.
Proof.
  intros Hs Hne. destruct s as [|c s]; [done|]. unfold trimmed.
  destruct (last_char_is_Some c s) as [d Hd]. rewrite Hd.
  rewrite (last_char_all _ _ _ Hs Hd). cbn [all_chars] in Hs.
  apply andb_true_iff in Hs as [-> _]. reflexivity.
Qed.

(** *** Trimming one byte *)

Lemma trimRightByte_all (q : string) (c : ascii) :
  all_chars (fun a => strings.eqb_ascii a c) q = true ->
  strings.trimRightByte q c = "".
Proof.
  induction q as [|a q IH]; [done|]. cbn [all_chars strings.trimRightByte].
  intros [Ha Hq]%andb_true_iff. by rewrite (IH Hq), Ha.
Qed.

Lemma trimRightByte_app_all (s q : string) (c : ascii) :
  all_chars (fun a => strings.eqb_ascii a c) q = true ->
  strings.trimRightByte (s +:+ q) c = strings.trimRightByte s c.
Proof.
  intros Hq. induction s as [|a s IH].
  - rewrite app_Empty. by apply trimRightByte_all.
  - rewrite app_String. cbn [strings.trimRightByte]. by rewrite IH.
Qed.

Lemma trimRightByte_last (s : string) (c d : ascii) :
  last_char s = Some d -> strings.eqb_ascii d c = false ->
  strings.trimRightByte s c = s.
Proof.
  induction s as [|a s IH]; [done|]. intros Hl Hd.
  cbn [strings.trimRightByte]. destruct s as [|b s].
  - injection Hl as ->. cbn. by rewrite Hd.
  - rewrite (IH Hl Hd). reflexivity.
Qed.

Lemma trimRightByte_app_keep (s t : string) (c : ascii) :
  strings.trimRightByte t c <> "" ->
  strings.trimRightByte (s +:+ t) c = s +:+ strings.trimRightByte t c.
Proof.
  intros Ht. induction s as [|a s IH]; [by rewrite !app_Empty|].
  rewrite !app_String. cbn [strings.trimRightByte]. rewrite IH.
  destruct (s +:+ strings.trimRightByte t c) eqn:E; [|reflexivity].
  destruct s; [by rewrite app_Empty in E|by rewrite app_String in E].
Qed.

Lemma trimLeftByte_app_all (q s : string) (c : ascii) :
  all_chars (fun a => strings.eqb_ascii a c) q = true ->
  strings.trimLeftByte (q +:+ s) c = strings.trimLeftByte s c.
Proof.
  induction q as [|a q IH]; [by rewrite app_Empty|].
  cbn [all_chars]. intros [Ha Hq]%andb_true_iff.
  rewrite app_String. cbn [strings.trimLeftByte]. by rewrite Ha, IH.
Qed.

Lemma trimLeftByte_head (a c : ascii) (s : string) :
  strings.eqb_ascii a c = false ->
  strings.trimLeftByte (String a s) c = String a s.
Proof. intros H. cbn. by rewrite H. Qed.

Lemma Contains_app (s t : string) (c : ascii) :
  strings.Contains (s +:+ t) c = strings.Contains s c || strings.Contains t c.
Proof.
  induction s as [|a s IH]; [by rewrite app_Empty|].
  rewrite app_String. cbn [strings.Contains].
  by destruct (strings.eqb_ascii a c).
Qed.

Lemma Split_app (s t : string) (c : ascii) :
  strings.Contains s c = false ->
  strings.Split (s +:+ String c t) c = s :: strings.Split t c.
Proof.
  induction s as [|a s IH].
  - intros _. rewrite app_Empty. cbn [strings.Split].
    unfold strings.eqb_ascii. by rewrite Ascii.eqb_refl.
  - rewrite app_String. cbn [strings.Contains strings.Split].
    destruct (strings.eqb_ascii a c); [done|]. intros H. by rewrite IH.
Qed.

Lemma Split_absent (s : string) (c : ascii) :
  strings.Contains s c = false -> strings.Split s c = [s].
Proof.
  induction s as [|a s IH]; [done|]. cbn [strings.Contains strings.Split].
  destruct (strings.eqb_ascii a c); [done|]. intros H. by rewrite IH.
Qed.

Lemma is_digit_solid (c : ascii) : is_digit c = true -> solid c = true.
Proof.
  destruct c as [[] [] [] [] [] [] [] []]; vm_compute; intros H;
    try discriminate H; reflexivity.
Qed.

Lemma addr_char_solid (c : ascii) : addr_char c = true -> solid c = true.
Proof.
  destruct c as [[] [] [] [] [] [] [] []]; vm_compute; intros H;
    try discriminate H; reflexivity.
Qed.

(* --------------------------------------------------------------------- *)
(** ** The alphabet of the addresses [ParseIP] accepts                    *)
(* --------------------------------------------------------------------- *)

Lemma is_digit_ip_char (c : ascii) : is_digit c = true -> ip_char c = true.
Proof.
  destruct c as [[] [] [] [] [] [] [] []]; vm_compute; intros H;
    try discriminate H; reflexivity.
Qed.

Lemma starts_with_true (s : string) (c : ascii) :
  strings.starts_with s c = true -> s = String c (strings.tail s).
Proof.
  destruct s as [|a s]; [done|]. cbn. unfold strings.eqb_ascii.
  by intros ->%Ascii.eqb_eq.
Qed.

Lemma is_empty_true (s : string) : strings.is_empty s = true -> s = "".
Proof. by destruct s. Qed.

Lemma v4loop_chars (s : string) :
  forall first prevdot val pos digLen fields st,
    netip.v4loop s first prevdot val pos digLen fields = Some st ->
    all_chars ip_char s = true.
Proof.
  induction s as [|c s IH]; intros first prevdot val pos digLen fields st;
    [done|].
  cbn [netip.v4loop all_chars]. destruct (is_digit c) eqn:Ed.
  - rewrite (is_digit_ip_char c Ed).
    destruct (_ && _); [done|]. destruct (255 <? _); [done|]. apply IH.
  - destruct (strings.eqb_ascii c ".") eqn:Edot; [|done].
    unfold ip_char. rewrite Edot, orb_true_r.
    destruct (netip.hexval c); (destruct (_ || _); [done|]);
      (destruct (pos =? 3)%nat; [done|]); apply IH.
Qed.

Lemma parseIPv4Fields_chars (s : string) (fields : list Z) :
  netip.parseIPv4Fields s = Some fields -> all_chars ip_char s = true.
Proof.
  unfold netip.parseIPv4Fields.
  destruct (netip.v4loop s _ _ _ _ _ _) as [st|] eqn:E; [|done].
  intros _. by apply v4loop_chars in E.
Qed.

Lemma hexLoop_chars (s : string) :
  forall off acc acc' off' rest,
    netip.hexLoop s off acc = Some (acc', off', rest) ->
    exists d, s = d +:+ rest /\ all_chars ip_char d = true.
Proof.
  induction s as [|c s IH]; intros off acc acc' off' rest.
  - intros [= <- <- <-]. by exists "".
  - cbn [netip.hexLoop]. destruct (netip.hexval c) as [v|] eqn:Ev.
    + destruct (3 <? off)%nat; [done|]. destruct (65535 <? _); [done|].
      intros H. destruct (IH _ _ _ _ _ H) as (d & -> & Hd).
      exists (String c d). split; [by rewrite app_String|].
      cbn [all_chars]. unfold ip_char at 1. by rewrite Ev, Hd.
    + intros [= <- <- <-]. by exists "".
Qed.

Lemma ip_char_colon : ip_char ":" = true.
Proof. reflexivity. Qed.

Lemma loop6_chars (fuel : nat) :
  forall s i ip e i' ip' e',
    netip.loop6 fuel s i ip e = Some ("", i', ip', e') ->
    all_chars ip_char s = true.
Proof.
  induction fuel as [|fuel IH]; intros s i ip e i' ip' e'.
  - cbn [netip.loop6]. destruct (16 <=? i)%nat; [|done].
    by intros [= -> _ _ _].
  - rewrite loop6_S. destruct (16 <=? i)%nat; [by intros [= -> _ _ _]|].
    destruct (netip.hexLoop s 0 0) as [[[acc off] rest]|] eqn:Eh; [|done].
    destruct (hexLoop_chars _ _ _ _ _ _ Eh) as (d & Hs & Hd).
    destruct (off =? 0)%nat; [done|].
    destruct (strings.starts_with rest ".") eqn:Edot.
    { destruct (_ && _); [done|]. destruct (16 <? i + 4)%nat; [done|].
      destruct (netip.parseIPv4Fields s) as [fields|] eqn:E4; [|done].
      intros _. by apply parseIPv4Fields_chars in E4. }
    cbv zeta.
    destruct (strings.is_empty rest) eqn:Eempty.
    { apply is_empty_true in Eempty. subst rest. intros _.
      by rewrite Hs, all_chars_app, Hd. }
    destruct (strings.starts_with rest ":") eqn:Ecolon; [|done].
    cbn [negb]. apply starts_with_true in Ecolon.
    destruct (strings.is_empty (strings.tail rest)) eqn:Eempty1; [done|].
    destruct (strings.starts_with (strings.tail rest) ":") eqn:Ecolon1.
    + apply starts_with_true in Ecolon1.
      destruct e; [done|].
      destruct (strings.is_empty (strings.tail (strings.tail rest)))
        eqn:Eempty2.
      * apply is_empty_true in Eempty2. intros _.
        rewrite Hs, Ecolon, Ecolon1, Eempty2, all_chars_app, Hd.
        reflexivity.
      * intros H. apply IH in H.
        rewrite Hs, Ecolon, Ecolon1, all_chars_app, Hd.
        cbn [all_chars]. by rewrite ip_char_colon, H.
    + intros H. apply IH in H.
      rewrite Hs, Ecolon, all_chars_app, Hd.
      cbn [all_chars]. by rewrite ip_char_colon, H.
Qed.

Lemma split_zone_None (input s : string) :
  netip.split_zone input = (s, None) -> s = input.
Proof.
  revert s. induction input as [|c input IH]; intros s.
  - by intros [= <-].
  - cbn [netip.split_zone]. destruct (strings.eqb_ascii c "%"); [done|].
    destruct (netip.split_zone input) as [a z]. intros [= <- ->].
    by rewrite (IH a).
Qed.

Lemma parseIPv6_chars (input : string) (ip : list Z) :
  netip.parseIPv6 input = Some (netip.Addr6 ip "") ->
  all_chars ip_char input = true.
Proof.
  unfold netip.parseIPv6.
  destruct (netip.split_zone input) as [s z] eqn:Ez.
  destruct (bool_decide (z = Some "")) eqn:Eb; [done|].
  apply bool_decide_eq_false in Eb. destruct z as [zone|].
  - cbn [default from_option id]. unfold id. intros H. exfalso. apply Eb.
    f_equal.
    repeat match type of H with
           | context [if ?b then _ else _] => destruct b
           | context [match ?x with _ => _ end] => destruct x
           end; try discriminate H; by injection H.
  - apply split_zone_None in Ez. subst s. clear Eb.
    destruct (strings.starts_with input ":" &&
              strings.starts_with (strings.tail input) ":") eqn:El.
    + apply andb_true_iff in El as [E1 E2].
      apply starts_with_true in E1. apply starts_with_true in E2.
      cbn [andb].
      destruct (strings.is_empty (strings.tail (strings.tail input))) eqn:Ee.
      * intros _. rewrite E1, E2, (is_empty_true _ Ee). reflexivity.
      * destruct (netip.loop6 8 _ _ _ _) as [[[[rest i] ip'] e]|] eqn:E6;
          [|done].
        destruct (strings.is_empty rest) eqn:Er; [|done].
        apply is_empty_true in Er. subst rest. intros _.
        apply loop6_chars in E6. rewrite E1, E2. cbn [all_chars].
        by rewrite ip_char_colon, E6.
    + cbn [andb].
      destruct (netip.loop6 8 _ _ _ _) as [[[[rest i] ip'] e]|] eqn:E6;
        [|done].
      destruct (strings.is_empty rest) eqn:Er; [|done].
      apply is_empty_true in Er. subst rest. intros _.
      by apply loop6_chars in E6.
Qed.

Lemma dispatch_chars (s whole : string) (a : netip.Addr) :
  netip.dispatch s whole = Some a -> netip.Zone a = "" ->
  all_chars ip_char whole = true.
Proof.
  induction s as [|c s IH]; [done|]. cbn [netip.dispatch].
  destruct (strings.eqb_ascii c ".").
  { unfold netip.parseIPv4.
    destruct (netip.parseIPv4Fields whole) as [fields|] eqn:E; [|done].
    intros _ _. by apply parseIPv4Fields_chars in E. }
  destruct (strings.eqb_ascii c ":").
  { intros H Hz. destruct a as [fields|ip zone].
    - unfold netip.parseIPv6 in H.
      repeat match type of H with
             | context [if ?b then _ else _] => destruct b
             | context [match ?x with _ => _ end] => destruct x
             | context [let (_, _) := ?x in _] => destruct x
             end; discriminate H.
    - cbn in Hz. subst zone. by apply parseIPv6_chars in H. }
  destruct (strings.eqb_ascii c "%"); [done|]. apply IH.
Qed.

(** Every text [ParseIP] accepts is made of hexadecimal digits, colons and
    dots. *)
Lemma ParseIP_chars (s : string) (ip : list Z) :
  net.ParseIP s = Some ip -> all_chars ip_char s = true.
Proof.
  unfold net.ParseIP, netip.ParseAddr.
  destruct (netip.dispatch s s) as [a|] eqn:E; [|done].
  destruct (bool_decide (netip.Zone a = "")) eqn:Ez; [|done].
  apply bool_decide_eq_true in Ez. intros _.
  by apply (dispatch_chars s s a).
Qed.

Lemma ip_char_plain (c : ascii) :
  ip_char c = true -> plain_char c = true /\ strings.eqb_ascii c "/" = false.
Proof.
  destruct c as [[] [] [] [] [] [] [] []]; vm_compute; intros H;
    try discriminate H; split; reflexivity.
Qed.

Lemma plain_char_facts (c : ascii) :
  plain_char c = true ->
  solid c = true /\ is_quote c = false /\ strings.eqb_ascii c "," = false.
Proof.
  unfold plain_char. intros [[H1 H2]%andb_true_iff H3]%andb_true_iff.
  by apply negb_true_iff in H2, H3.
Qed.

Lemma ParseIP_nonempty (ip : list Z) : net.ParseIP "" <> Some ip.
Proof. done. Qed.

(* --------------------------------------------------------------------- *)
(** ** Further properties of [sanitizeIP]                                 *)
(* --------------------------------------------------------------------- *)

Lemma asciiSpace_facts (c : ascii) :
  strings.asciiSpace c = true ->
  strings.eqb_ascii c "034" = false /\ strings.eqb_ascii c "," = false.
Proof.
  destruct c as [[] [] [] [] [] [] [] []]; vm_compute; intros H;
    try discriminate H; split; reflexivity.
Qed.

Lemma padded_facts (w1 a w2 : string) :
  all_chars strings.asciiSpace w1 = true ->
  all_chars plain_char a = true -> a <> "" ->
  all_chars strings.asciiSpace w2 = true ->
  all_chars (fun c => negb (strings.eqb_ascii c "034")) (w1 +:+ a +:+ w2) = true /\
  all_chars (fun c => negb (strings.eqb_ascii c ",")) (w1 +:+ a +:+ w2) = true /\
  w1 +:+ a +:+ w2 <> "" /\
  strings.TrimSpace (w1 +:+ a +:+ w2) = a.
Proof.
  intros H1 Ha Hne H2.
  assert (forall w, all_chars strings.asciiSpace w = true ->
                    all_chars (fun c => negb (strings.eqb_ascii c "034")) w = true /\
                    all_chars (fun c => negb (strings.eqb_ascii c ",")) w = true)
    as Hw.
  { intros w Hw. split; (eapply all_chars_impl; [|exact Hw]); intros c Hc;
      destruct (asciiSpace_facts c Hc) as [E1 E2]; by rewrite ?E1, ?E2. }
  assert (all_chars (fun c => negb (strings.eqb_ascii c "034")) a = true /\
          all_chars (fun c => negb (strings.eqb_ascii c ",")) a = true /\
          all_chars solid a = true) as (Ha1 & Ha2 & Ha3).
  { repeat split; (eapply all_chars_impl; [|exact Ha]); intros c Hc;
      destruct (plain_char_facts c Hc) as (Hs & Hq & Hcomma);
      unfold is_quote in Hq; by rewrite ?Hq, ?Hcomma. }
  destruct (Hw w1 H1) as [H11 H12]. destruct (Hw w2 H2) as [H21 H22].
  rewrite !all_chars_app, H11, H12, H21, H22, Ha1, Ha2.
  repeat split.
  - destruct w1; [|by rewrite app_String]. rewrite app_Empty.
    destruct a; [done|by rewrite app_String].
  - apply TrimSpace_padded; try done. by apply all_solid_trimmed.
Qed.

Lemma trimLeftByte_absent_app (x t : string) (c : ascii) :
  all_chars (fun a => negb (strings.eqb_ascii a c)) x = true -> x <> "" ->
  strings.trimLeftByte (x +:+ t) c = x +:+ t.
Proof.
  intros Hx Hne. destruct x as [|a x]; [done|]. cbn [all_chars] in Hx.
  apply andb_true_iff in Hx as [Ha _]. apply negb_true_iff in Ha.
  rewrite app_String. by apply trimLeftByte_head.
Qed.

(** The cleaning steps of [sanitizeIP] leave a text of plain characters
    as it is. *)
Lemma sanitizeIP_plain (a : string) :
  all_chars plain_char a = true ->
  sanitizeIP a = match net.ParseIP a with
                 | Some ip => net.String_ ip
                 | None => ""
                 end.
Proof.
  intros Ha. destruct (decide (a = "")) as [->|Hne]; [reflexivity|].
  destruct (padded_facts "" a "" eq_refl Ha Hne eq_refl) as (Hq & Hc & _ & Ht).
  rewrite app_Empty, app_Empty_r in *.
  unfold sanitizeIP, strings.Trim.
  by rewrite trimRightByte_absent, trimLeftByte_absent, Contains_absent, Ht.
Qed.

Lemma sanitizeIP_quoted_padded (q1 w1 a w2 q2 : string) :
  all_chars is_quote q1 = true -> all_chars is_quote q2 = true ->
  all_chars strings.asciiSpace w1 = true ->
  all_chars strings.asciiSpace w2 = true ->
  all_chars plain_char a = true -> a <> "" ->
  sanitizeIP (q1 +:+ (w1 +:+ a +:+ w2) +:+ q2) = sanitizeIP a.
Proof.
  intros Hq1 Hq2 Hw1 Hw2 Ha Hne.
  destruct (padded_facts w1 a w2 Hw1 Ha Hne Hw2) as (Hq & Hc & Hx & Ht).
  rewrite (sanitizeIP_plain a Ha).
  set (x := w1 +:+ a +:+ w2) in *.
  unfold sanitizeIP, strings.Trim.
  rewrite <- app_assoc_s, trimRightByte_app_all by exact Hq2.
  rewrite trimRightByte_app_keep; rewrite trimRightByte_absent by exact Hq;
    [|exact Hx].
  rewrite trimLeftByte_app_all by exact Hq1.
  rewrite trimLeftByte_absent by exact Hq.
  by rewrite Contains_absent, Ht.
Qed.

Lemma sanitizeIP_first_column (q1 w1 a w2 rest : string) :
  all_chars is_quote q1 = true ->
  all_chars strings.asciiSpace w1 = true ->
  all_chars strings.asciiSpace w2 = true ->
  all_chars plain_char a = true -> a <> "" ->
  sanitizeIP (q1 +:+ (w1 +:+ a +:+ w2) +:+ String "," rest) = sanitizeIP a.
Proof.
  intros Hq1 Hw1 Hw2 Ha Hne.
  destruct (padded_facts w1 a w2 Hw1 Ha Hne Hw2) as (Hq & Hc & Hx & Ht).
  rewrite (sanitizeIP_plain a Ha).
  set (x := w1 +:+ a +:+ w2) in *.
  assert (strings.trimRightByte (String "," rest) "034" =
          String "," (strings.trimRightByte rest "034")) as Hr.
  { cbn [strings.trimRightByte].
    by destruct (strings.trimRightByte rest "034"). }
  unfold sanitizeIP, strings.Trim.
  rewrite <- app_assoc_s.
  rewrite trimRightByte_app_keep by (by rewrite Hr).
  rewrite Hr, app_assoc_s, trimLeftByte_app_all by exact Hq1.
  rewrite trimLeftByte_absent_app by done.
  rewrite Contains_app. cbn [strings.Contains].
  replace (strings.eqb_ascii "," ",") with true by reflexivity.
  rewrite orb_true_r, Split_app by (by apply Contains_absent).
  cbn [hd]. by rewrite Ht.
Qed.

Lemma String_nonempty (ip : list Z) : wf_ip ip -> net.String_ ip <> "".
Proof.
  intros Hwf E. pose proof (ParseIP_String ip Hwf) as H.
  rewrite E in H. discriminate H.
Qed.

Lemma String_injective (ip1 ip2 : list Z) :
  wf_ip ip1 -> wf_ip ip2 -> net.String_ ip1 = net.String_ ip2 -> ip1 = ip2.
Proof.
  intros H1 H2 E. pose proof (ParseIP_String ip1 H1) as P1.
  rewrite E, (ParseIP_String ip2 H2) in P1. by injection P1.
Qed.

Lemma ParseIP_plain (s : string) (ip : list Z) :
  net.ParseIP s = Some ip -> all_chars plain_char s = true.
Proof.
  intros H. eapply all_chars_impl; [|exact (ParseIP_chars s ip H)].
  intros c Hc. by destruct (ip_char_plain c Hc).
Qed.

Lemma sanitizeIP_ParseIP (s : string) (ip : list Z) :
  net.ParseIP s = Some ip -> sanitizeIP s = net.String_ ip.
Proof.
  intros H. rewrite (sanitizeIP_plain s (ParseIP_plain s ip H)).
  by rewrite H.
Qed.

Lemma canonical_plain (a : string) :
  canonical a -> all_chars plain_char a = true /\ a <> "".
Proof.
  intros (ip & Hwf & ->). split; [|by apply String_nonempty].
  apply (ParseIP_plain _ ip). by apply ParseIP_String.
Qed.

(** X9.  What [sanitizeIP] returns: the empty text, or the canonical text
    of sixteen bytes, which is not empty, parses back to these bytes and
    is made of decimal digits, the letters [a] to [f], colons and dots
    only. *)
Theorem sanitizeIP_output (raw : string) :
  sanitizeIP raw = "" \/
  exists ip,
    wf_ip ip /\
    sanitizeIP raw = net.String_ ip /\
    sanitizeIP raw <> "" /\
    net.ParseIP (sanitizeIP raw) = Some ip /\
    all_chars addr_char (sanitizeIP raw) = true.
Proof.
  unfold sanitizeIP.
  destruct (net.ParseIP _) as [ip|] eqn:E; [right|by left].
  apply ParseIP_wf in E. exists ip.
  split; [exact E|]. split; [reflexivity|].
  split; [by apply String_nonempty|].
  split; [by apply ParseIP_String|by apply all_chars_String].
Qed.

(** X10.  What surrounds a token does not change the result of
    [sanitizeIP].  For a non-empty text [a] of plain characters (ASCII, no
    white space, no double quote, no comma; every address is one): double
    quotes around it and ASCII white space inside them are dropped, and so
    is everything from the first comma on, when the comma comes after the
    text and its white space. *)
Theorem sanitizeIP_decorated (q1 w1 a w2 q2 rest : string) :
  all_chars is_quote q1 = true -> all_chars is_quote q2 = true ->
  all_chars strings.asciiSpace w1 = true ->
  all_chars strings.asciiSpace w2 = true ->
  all_chars plain_char a = true -> a <> "" ->
  sanitizeIP (q1 +:+ (w1 +:+ a +:+ w2) +:+ q2) = sanitizeIP a /\
  sanitizeIP (q1 +:+ (w1 +:+ a +:+ w2) +:+ String "," rest) = sanitizeIP a.
Proof.
  intros Hq1 Hq2 Hw1 Hw2 Ha Hne. split.
  - by apply sanitizeIP_quoted_padded.
  - by apply sanitizeIP_first_column.
Qed.

Lemma sanitizeIP_decorated_witness :
  sanitizeIP (String "034" "" +:+ (" " +:+ "203.0.113.25" +:+ " ")
                +:+ String "034" "") = sanitizeIP "203.0.113.25" /\
  sanitizeIP (String "034" "" +:+ (" " +:+ "203.0.113.25" +:+ " ")
                +:+ String "," "2024-01-01") = sanitizeIP "203.0.113.25".
Proof.
  apply (sanitizeIP_decorated (String "034" "") " " "203.0.113.25" " "
           (String "034" "") "2024-01-01").
  - reflexivity.
  - reflexivity.
  - reflexivity.
  - reflexivity.
  - reflexivity.
  - discriminate.
Defined.

(** X11.  [sanitizeIP] agrees with [ParseIP] on every text [ParseIP]
    accepts: the cleaning steps leave such a text as it is, and the result
    is the canonical text of the address.  Two such texts get the same
    key in the table exactly when they are the same sixteen bytes. *)
Theorem sanitizeIP_key (s1 s2 : string) (ip1 ip2 : list Z) :
  net.ParseIP s1 = Some ip1 -> net.ParseIP s2 = Some ip2 ->
  sanitizeIP s1 = net.String_ ip1 /\
  (sanitizeIP s1 = sanitizeIP s2 <-> ip1 = ip2).
Proof.
  intros H1 H2.
  rewrite (sanitizeIP_ParseIP s1 ip1 H1), (sanitizeIP_ParseIP s2 ip2 H2).
  split; [reflexivity|]. split.
  - apply String_injective; by eapply ParseIP_wf.
  - by intros ->.
Qed.

Lemma sanitizeIP_key_witness :
  sanitizeIP "2001:DB8:0:0:0:0:0:1" =
    net.String_ [32; 1; 13; 184; 0; 0; 0; 0; 0; 0; 0; 0; 0; 0; 0; 1] /\
  (sanitizeIP "2001:DB8:0:0:0:0:0:1" = sanitizeIP "2001:db8::1" <->
   [32; 1; 13; 184; 0; 0; 0; 0; 0; 0; 0; 0; 0; 0; 0; 1] =
   [32; 1; 13; 184; 0; 0; 0; 0; 0; 0; 0; 0; 0; 0; 0; 1]).
Proof.
  apply (sanitizeIP_key "2001:DB8:0:0:0:0:0:1" "2001:db8::1").
  - vm_compute. reflexivity.
  - vm_compute. reflexivity.
Defined.

Lemma all_chars_false (P : ascii -> bool) (s : string) (c : ascii) (t : string) :
  P c = false -> all_chars P (s +:+ String c t) = false.
Proof.
  intros Hc. rewrite all_chars_app. cbn [all_chars]. rewrite Hc.
  by rewrite andb_false_r.
Qed.

(** X12.  A quoted first column followed by other columns is refused: for
    a non-empty text [a] of plain characters, the token made of a double
    quote, [a], a double quote, a comma and anything else yields the empty
    text, also when [a] is an address.  The closing quote is still there
    when the text is parsed. *)
Theorem sanitizeIP_quoted_column (a rest : string) :
  all_chars plain_char a = true -> a <> "" ->
  sanitizeIP (String "034" (a +:+ String "034" (String "," rest))) = "".
Proof.
  intros Ha Hne.
  assert (all_chars (fun c => negb (strings.eqb_ascii c ",")) a = true /\
          all_chars solid a = true) as (Ha2 & Ha3).
  { split; (eapply all_chars_impl; [|exact Ha]); intros c Hc;
      destruct (plain_char_facts c Hc) as (Hs & Hq & Hcomma);
      by rewrite ?Hcomma. }
  destruct a as [|c a]; [done|]. pose proof Ha as Hc. cbn [all_chars] in Hc.
  apply andb_true_iff in Hc as [Hc _].
  destruct (plain_char_facts c Hc) as (Hcs & Hcq & _). unfold is_quote in Hcq.
  assert (strings.trimRightByte (String "," rest) "034" =
          String "," (strings.trimRightByte rest "034")) as Hr.
  { cbn [strings.trimRightByte].
    by destruct (strings.trimRightByte rest "034"). }
  set (y := String c a +:+ String "034" "").
  assert (strings.Contains y "," = false) as Hy.
  { unfold y. rewrite Contains_app, Contains_absent by exact Ha2.
    reflexivity. }
  assert (strings.TrimSpace y = y) as Ht.
  { apply TrimSpace_trimmed. unfold y, trimmed. rewrite app_String.
    rewrite Hcs. cbn [andb]. rewrite <- app_String, last_char_app.
    reflexivity. }
  assert (net.ParseIP y = None) as Hp.
  { destruct (net.ParseIP y) as [ip|] eqn:E; [|reflexivity].
    apply ParseIP_chars in E. unfold y in E.
    rewrite all_chars_false in E by reflexivity. discriminate E. }
  replace (String "034" (String c a +:+ String "034" (String "," rest)))
    with (String "034" y +:+ String "," rest)
    by (unfold y; by rewrite !app_String, app_assoc_s, app_String, app_Empty).
  unfold sanitizeIP, strings.Trim.
  rewrite trimRightByte_app_keep by (by rewrite Hr).
  rewrite Hr, app_String. cbn [strings.trimLeftByte].
  replace (strings.eqb_ascii "034" "034") with true by reflexivity.
  assert (forall t, strings.trimLeftByte (y +:+ t) "034" = y +:+ t) as Hl.
  { intros t. unfold y. rewrite !app_String. by apply trimLeftByte_head. }
  rewrite Hl, Contains_app. cbn [strings.Contains].
  replace (strings.eqb_ascii "," ",") with true by reflexivity.
  rewrite orb_true_r, Split_app by exact Hy.
  cbn [hd]. by rewrite Ht, Hp.
Qed.

Lemma sanitizeIP_quoted_column_witness :
  sanitizeIP (String "034" ("203.0.113.25" +:+
                            String "034" (String "," "2024-01-01"))) = "".
Proof.
  apply (sanitizeIP_quoted_column "203.0.113.25" "2024-01-01").
  - reflexivity.
  - discriminate.
Defined.

(* --------------------------------------------------------------------- *)
(** ** Further properties of [isWhitelisted]                              *)
(* --------------------------------------------------------------------- *)

Lemma existsb_Permutation {A} (f : A -> bool) (l l' : list A) :
  Permutation l l' -> existsb f l = existsb f l'.
Proof.
  induction 1 as [|x l l' _ IH|x y l|l l' l'' _ IH1 _ IH2]; cbn.
  - reflexivity.
  - by rewrite IH.
  - by destruct (f x), (f y).
  - by rewrite IH1.
Qed.

(** X13.  The whitelist is a set of entries: a list made of two lists
    matches an address exactly when one of the two does, so that adding
    entries never removes a match, and the order of the entries makes no
    difference.  This holds for every text given as the address. *)
Theorem isWhitelisted_order (ip : string) :
  (forall wl1 wl2,
      isWhitelisted ip (wl1 ++ wl2) =
      isWhitelisted ip wl1 || isWhitelisted ip wl2) /\
  (forall wl wl', Permutation wl wl' ->
                  isWhitelisted ip wl = isWhitelisted ip wl').
Proof.
  unfold isWhitelisted. destruct (net.ParseIP ip) as [p|]; [|done]. split.
  - intros wl1 wl2. rewrite !whitelist_loop_existsb. apply existsb_app.
  - intros wl wl' H. rewrite !whitelist_loop_existsb.
    by apply existsb_Permutation.
Qed.

Lemma isWhitelisted_single_plain (a e : string) :
  canonical a -> strings.Contains (strings.TrimSpace e) "/" = false ->
  isWhitelisted a [e] = bool_decide (strings.TrimSpace e = a).
Proof.
  intros Ha He. destruct (isWhitelisted_canonical a Ha) as (p & _ & _ & ->).
  cbn [existsb]. unfold entry_matches. rewrite He. apply orb_false_r.
Qed.

Lemma canonical_no_slash (b : string) :
  canonical b -> strings.Contains b "/" = false.
Proof.
  intros (ip & Hwf & ->). apply Contains_absent.
  eapply all_chars_impl; [|exact (all_chars_String ip Hwf)].
  intros c Hc. by destruct (addr_char_plain c Hc) as (_ & _ & _ & _ & -> & _).
Qed.

Lemma canonical_trimmed (b : string) : canonical b -> trimmed b = true.
Proof.
  intros Hb. destruct (canonical_plain b Hb) as [Hp Hne].
  apply all_solid_trimmed; [|exact Hne].
  eapply all_chars_impl; [|exact Hp]. intros c Hc.
  by destruct (plain_char_facts c Hc).
Qed.

(** X14.  A whitelist entry without a slash is compared as a text with the
    canonical form of the address.  For a canonical address [a]: the entry
    matches exactly when its text, white space trimmed, is [a]; an entry
    that is a canonical address between runs of ASCII white space matches
    [a] exactly when it is [a]; and an entry whose trimmed text is not the
    canonical form of any address matches nothing. *)
Theorem isWhitelisted_plain_entry (a : string) :
  canonical a ->
  (forall e, strings.Contains (strings.TrimSpace e) "/" = false ->
             (isWhitelisted a [e] = true <-> strings.TrimSpace e = a)) /\
  (forall w1 b w2,
      all_chars strings.asciiSpace w1 = true ->
      all_chars strings.asciiSpace w2 = true ->
      canonical b ->
      (isWhitelisted a [w1 +:+ b +:+ w2] = true <-> b = a)) /\
  (forall e, strings.Contains (strings.TrimSpace e) "/" = false ->
             ~ canonical (strings.TrimSpace e) ->
             isWhitelisted a [e] = false).
Proof.
  intros Ha. split; [|split].
  - intros e He. rewrite (isWhitelisted_single_plain a e Ha He).
    apply bool_decide_eq_true.
  - intros w1 b w2 H1 H2 Hb.
    assert (strings.TrimSpace (w1 +:+ b +:+ w2) = b) as Ht.
    { apply TrimSpace_padded; try done. by apply canonical_trimmed. }
    rewrite (isWhitelisted_single_plain a _ Ha), Ht.
    + apply bool_decide_eq_true.
    + rewrite Ht. by apply canonical_no_slash.
  - intros e He Hn. rewrite (isWhitelisted_single_plain a e Ha He).
    apply bool_decide_eq_false_2. intros E. apply Hn. by rewrite E.
Qed.

Lemma isWhitelisted_plain_entry_witness :
  (forall e, strings.Contains (strings.TrimSpace e) "/" = false ->
             (isWhitelisted "2001:db8::1" [e] = true <->
              strings.TrimSpace e = "2001:db8::1")) /\
  (forall w1 b w2,
      all_chars strings.asciiSpace w1 = true ->
      all_chars strings.asciiSpace w2 = true ->
      canonical b ->
      (isWhitelisted "2001:db8::1" [w1 +:+ b +:+ w2] = true <->
       b = "2001:db8::1")) /\
  (forall e, strings.Contains (strings.TrimSpace e) "/" = false ->
             ~ canonical (strings.TrimSpace e) ->
             isWhitelisted "2001:db8::1" [e] = false).
Proof.
  apply (isWhitelisted_plain_entry "2001:db8::1").
  exists [32; 1; 13; 184; 0; 0; 0; 0; 0; 0; 0; 0; 0; 0; 0; 1].
  split; [|reflexivity].
  split; [reflexivity|]. repeat constructor; unfold is_byte; lia.
Defined.

(** *** CIDR entries for IPv4 *)

Lemma cut_slash_app (s t : string) :
  strings.Contains s "/" = false ->
  net.cut_slash (s +:+ String "/" t) = Some (s, t).
Proof.
  induction s as [|a s IH].
  - intros _. by rewrite app_Empty.
  - rewrite app_String. cbn [strings.Contains net.cut_slash].
    destruct (strings.eqb_ascii a "/"); [done|]. intros H. by rewrite IH.
Qed.

Lemma mask_bytes_length (l : nat) : forall n, length (net.mask_bytes l n) = l.
Proof.
  induction l as [|l IH]; intros n; [reflexivity|].
  cbn [net.mask_bytes]. destruct (8 <=? n); cbn [length]; by rewrite IH.
Qed.

Lemma mask_bytes_four (n : Z) :
  exists m0 m1 m2 m3, net.mask_bytes 4 n = [m0; m1; m2; m3].
Proof.
  pose proof (mask_bytes_length 4 n) as H.
  destruct (net.mask_bytes 4 n) as [|m0 [|m1 [|m2 [|m3 [|]]]]]; try done.
  by exists m0, m1, m2, m3.
Qed.

Lemma string4_String (b0 b1 b2 b3 : Z) :
  net.String_ (netip.v4InV6Prefix ++ [b0; b1; b2; b3]) =
  netip.string4 [b0; b1; b2; b3].
Proof. reflexivity. Qed.

Lemma wf_ip_v4 (b0 b1 b2 b3 : Z) :
  is_byte b0 -> is_byte b1 -> is_byte b2 -> is_byte b3 ->
  wf_ip (netip.v4InV6Prefix ++ [b0; b1; b2; b3]).
Proof.
  intros H0 H1 H2 H3. split; [reflexivity|].
  unfold netip.v4InV6Prefix. cbn [app].
  repeat (constructor; [first [assumption | unfold is_byte; lia]|]).
  constructor.
Qed.

(** An IPv4 CIDR entry against an IPv4 address: the loop of [Contains]
    over the four bytes. *)
Lemma isWhitelisted_cidr4_bytes (n0 n1 n2 n3 p0 p1 p2 p3 l : Z)
      (dec : string) :
  is_byte n0 -> is_byte n1 -> is_byte n2 -> is_byte n3 ->
  is_byte p0 -> is_byte p1 -> is_byte p2 -> is_byte p3 ->
  all_digits dec = true ->
  net.dtoi dec = (l, String.length dec, true) ->
  0 <= l <= 32 ->
  isWhitelisted (netip.string4 [p0; p1; p2; p3])
                [netip.string4 [n0; n1; n2; n3] +:+ String "/" dec] =
  net.same_network
    (zip_with Z.land [n0; n1; n2; n3] (net.mask_bytes 4 l))
    (net.mask_bytes 4 l) [p0; p1; p2; p3].
Proof.
  intros Hn0 Hn1 Hn2 Hn3 Hp0 Hp1 Hp2 Hp3 Hdec Hdtoi Hl.
  pose proof (all_chars_string4 [n0; n1; n2; n3]) as Hchars.
  specialize (Hchars ltac:(repeat (constructor; [assumption|]); constructor)
                      eq_refl).
  assert (dec <> "") as Hne by (intros ->; discriminate Hdtoi).
  set (entry := netip.string4 [n0; n1; n2; n3] +:+ String "/" dec).
  assert (strings.TrimSpace entry = entry) as Ht.
  { apply TrimSpace_trimmed, all_solid_trimmed.
    - unfold entry. rewrite all_chars_app. cbn [all_chars].
      rewrite (all_chars_impl _ _ _ addr_char_solid Hchars).
      by rewrite (all_chars_impl _ _ _ is_digit_solid Hdec).
    - unfold entry. destruct (netip.string4 _); [by rewrite app_Empty|].
      by rewrite app_String. }
  assert (strings.Contains (netip.string4 [n0; n1; n2; n3]) "/" = false)
    as Hslash.
  { apply Contains_absent. eapply all_chars_impl; [|exact Hchars].
    intros c Hc.
    by destruct (addr_char_plain c Hc) as (_ & _ & _ & _ & -> & _). }
  unfold isWhitelisted. rewrite <- string4_String.
  rewrite ParseIP_String by (by apply wf_ip_v4).
  cbn [whitelist_loop]. rewrite Ht.
  replace (strings.Contains entry "/") with true
    by (unfold entry; rewrite Contains_app; cbn;
        by rewrite orb_true_r).
  cbn [negb]. unfold net.ParseCIDR, entry.
  rewrite (cut_slash_app _ _ Hslash), string4_roundtrip by assumption.
  cbn [netip.Zone netip.BitLen netip.As16]. rewrite Hdtoi.
  rewrite Nat.eqb_refl.
  replace (l <? 0) with false by (symmetry; apply Z.ltb_ge; lia).
  replace (32 <? l) with false by (symmetry; apply Z.ltb_ge; lia).
  rewrite bool_decide_eq_true_2 by reflexivity. cbn [negb orb].
  unfold net.CIDRMask.
  replace (l <? 0) with false by (symmetry; apply Z.ltb_ge; lia).
  replace (32 <? l) with false by (symmetry; apply Z.ltb_ge; lia).
  cbn [Z.eqb negb andb orb].
  change (Z.to_nat (32 / 8)) with 4%nat.
  destruct (mask_bytes_four l) as (m0 & m1 & m2 & m3 & ->).
  cbn [Pos.eqb negb andb].
  assert (net.Mask (netip.v4InV6Prefix ++ [n0; n1; n2; n3]) [m0; m1; m2; m3]
          = Some (zip_with Z.land [n0; n1; n2; n3] [m0; m1; m2; m3])) as ->.
  { unfold net.Mask. cbn [length Nat.eqb andb net.IPv4len net.IPv6len].
    rewrite bool_decide_eq_true_2 by reflexivity. reflexivity. }
  unfold net.Contains, net.networkNumberAndMask. cbn -[Z.land net.same_network].
  by destruct (net.same_network _ _ _).
Qed.

Lemma below_33 (P : Z -> Prop) :
  Forall P [0; 1; 2; 3; 4; 5; 6; 7; 8; 9; 10; 11; 12; 13; 14; 15; 16; 17; 18; 19; 20; 21; 22; 23; 24; 25; 26; 27; 28; 29; 30; 31; 32] ->
  forall l, 0 <= l <= 32 -> P l.
Proof.
  intros H l Hl.
  assert (exists n, (n < 33)%nat /\ l = Z.of_nat n) as (n & Hn & ->)
    by (exists (Z.to_nat l); lia).
  clear Hl. rewrite Forall_lookup in H. apply (H n).
  do 33 (destruct n as [|n]; [reflexivity|]). lia.
Qed.

Lemma land_255 (x : Z) : is_byte x -> Z.land x 255 = x / 1 * 1.
Proof.
  intros Hx. apply Z.eqb_eq.
  exact (check_below (fun x => Z.land x 255 =? x / 1 * 1) 256 eq_refl x Hx).
Qed.

Lemma land_254 (x : Z) : is_byte x -> Z.land x 254 = x / 2 * 2.
Proof.
  intros Hx. apply Z.eqb_eq.
  exact (check_below (fun x => Z.land x 254 =? x / 2 * 2) 256 eq_refl x Hx).
Qed.

Lemma land_252 (x : Z) : is_byte x -> Z.land x 252 = x / 4 * 4.
Proof.
  intros Hx. apply Z.eqb_eq.
  exact (check_below (fun x => Z.land x 252 =? x / 4 * 4) 256 eq_refl x Hx).
Qed.

Lemma land_248 (x : Z) : is_byte x -> Z.land x 248 = x / 8 * 8.
Proof.
  intros Hx. apply Z.eqb_eq.
  exact (check_below (fun x => Z.land x 248 =? x / 8 * 8) 256 eq_refl x Hx).
Qed.

Lemma land_240 (x : Z) : is_byte x -> Z.land x 240 = x / 16 * 16.
Proof.
  intros Hx. apply Z.eqb_eq.
  exact (check_below (fun x => Z.land x 240 =? x / 16 * 16) 256 eq_refl x Hx).
Qed.

Lemma land_224 (x : Z) : is_byte x -> Z.land x 224 = x / 32 * 32.
Proof.
  intros Hx. apply Z.eqb_eq.
  exact (check_below (fun x => Z.land x 224 =? x / 32 * 32) 256 eq_refl x Hx).
Qed.

Lemma land_192 (x : Z) : is_byte x -> Z.land x 192 = x / 64 * 64.
Proof.
  intros Hx. apply Z.eqb_eq.
  exact (check_below (fun x => Z.land x 192 =? x / 64 * 64) 256 eq_refl x Hx).
Qed.

Lemma land_128 (x : Z) : is_byte x -> Z.land x 128 = x / 128 * 128.
Proof.
  intros Hx. apply Z.eqb_eq.
  exact (check_below (fun x => Z.land x 128 =? x / 128 * 128) 256 eq_refl x Hx).
Qed.

Lemma land_0 (x : Z) : is_byte x -> Z.land x 0 = x / 256 * 256.
Proof.
  intros Hx. apply Z.eqb_eq.
  exact (check_below (fun x => Z.land x 0 =? x / 256 * 256) 256 eq_refl x Hx).
Qed.

Lemma same_network_four (a0 a1 a2 a3 m0 m1 m2 m3 b0 b1 b2 b3 : Z) :
  net.same_network [a0; a1; a2; a3] [m0; m1; m2; m3] [b0; b1; b2; b3] = true
  <-> Z.land a0 m0 = Z.land b0 m0 /\ Z.land a1 m1 = Z.land b1 m1 /\
      Z.land a2 m2 = Z.land b2 m2 /\ Z.land a3 m3 = Z.land b3 m3.
Proof.
  cbn -[Z.land].
  destruct (Z.eqb_spec (Z.land a0 m0) (Z.land b0 m0)); cbn [negb]; [|split; [done|tauto]].
  destruct (Z.eqb_spec (Z.land a1 m1) (Z.land b1 m1)); cbn [negb]; [|split; [done|tauto]].
  destruct (Z.eqb_spec (Z.land a2 m2) (Z.land b2 m2)); cbn [negb]; [|split; [done|tauto]].
  destruct (Z.eqb_spec (Z.land a3 m3) (Z.land b3 m3)); cbn [negb]; [|split; [done|tauto]].
  tauto.
Qed.

Ltac cidr4_case :=
  match goal with
  | |- isWhitelisted _ [_ +:+ String "/" (strconv.FormatInt ?l)] = true <-> _ =>
      rewrite (isWhitelisted_cidr4_bytes _ _ _ _ _ _ _ _ l
                 (strconv.FormatInt l));
      [|assumption|assumption|assumption|assumption
       |assumption|assumption|assumption|assumption
       |reflexivity|reflexivity|lia];
      let m := fresh "m" in
      set (m := net.mask_bytes 4 l); vm_compute in m; subst m;
      let d := fresh "d" in
      set (d := 2 ^ (32 - l)); vm_compute in d; subst d;
      cbn [zip_with]; rewrite same_network_four;
      rewrite <- !Z.land_assoc, !Z.land_diag;
      rewrite ?land_255, ?land_254, ?land_252, ?land_248, ?land_240, ?land_224, ?land_192, ?land_128, ?land_0 by assumption;
      unfold v4_number; cbn [foldl]; unfold is_byte in *;
      Z.div_mod_to_equations; lia
  end.

(** X15.  An IPv4 CIDR entry, written as a dotted quad, a slash and a
    prefix length [l] from 0 to 32, matches an IPv4 address exactly when
    the first [l] bits of the address are those of the entry: the two
    32-bit numbers agree once their last [32 - l] bits are dropped.  The
    bits of the entry after the prefix play no role. *)
Theorem isWhitelisted_cidr4 (n0 n1 n2 n3 p0 p1 p2 p3 l : Z) :
  is_byte n0 -> is_byte n1 -> is_byte n2 -> is_byte n3 ->
  is_byte p0 -> is_byte p1 -> is_byte p2 -> is_byte p3 ->
  0 <= l <= 32 ->
  (isWhitelisted (netip.string4 [p0; p1; p2; p3])
                 [netip.string4 [n0; n1; n2; n3] +:+
                  String "/" (strconv.FormatInt l)] = true
   <-> v4_number [n0; n1; n2; n3] / 2 ^ (32 - l) =
       v4_number [p0; p1; p2; p3] / 2 ^ (32 - l)).
Proof.
  intros Hn0 Hn1 Hn2 Hn3 Hp0 Hp1 Hp2 Hp3. revert l.
  apply (below_33 (fun l => _ <-> _)).
  repeat (apply List.Forall_cons; [cbv beta; cidr4_case|]).
  apply List.Forall_nil.
Qed.

Lemma isWhitelisted_cidr4_witness :
  isWhitelisted (netip.string4 [192; 168; 1; 50])
                [netip.string4 [192; 168; 1; 0] +:+
                 String "/" (strconv.FormatInt 24)] = true
  <-> v4_number [192; 168; 1; 0] / 2 ^ (32 - 24) =
      v4_number [192; 168; 1; 50] / 2 ^ (32 - 24).
Proof.
  apply (isWhitelisted_cidr4 192 168 1 0 192 168 1 50 24);
    unfold is_byte; lia.
Defined.

(* --------------------------------------------------------------------- *)
(** ** [strconv.Atoi]                                                     *)
(* --------------------------------------------------------------------- *)

Lemma atoi_digits_value (s : string) :
  forall n, strconv.atoi_digits s n = strconv.digits_value s n.
Proof.
  induction s as [|c s IH]; intros n; [reflexivity|].
  cbn [strconv.atoi_digits strconv.digits_value].
  destruct (is_digit c); [apply IH|reflexivity].
Qed.

Lemma is_digit_value (c : ascii) :
  is_digit c = true -> 0 <= byte_of c - 48 <= 9.
Proof.
  unfold is_digit. intros [H1 H2]%andb_true_iff.
  apply Z.leb_le in H1, H2. lia.
Qed.

Lemma digits_value_ge (s : string) :
  forall n u, strconv.digits_value s n = Some u -> 0 <= n -> n <= u.
Proof.
  induction s as [|c s IH]; intros n u.
  - intros [= <-]. lia.
  - cbn [strconv.digits_value]. destruct (is_digit c) eqn:Ed; [|done].
    intros H Hn. pose proof (is_digit_value c Ed).
    apply IH in H; lia.
Qed.

(** The loop of [ParseUint] over digits whose value fits 64 bits. *)
Lemma ParseUint_loop_digits (ds : string) :
  forall (t : string) (n u : Z),
    strconv.digits_value ds n = Some u -> 0 <= n -> u < 2 ^ 64 ->
    strconv.ParseUint_loop (ds +:+ t) n = strconv.ParseUint_loop t u.
Proof.
  induction ds as [|c ds IH]; intros t n u.
  - intros [= <-] _ _. by rewrite app_Empty.
  - cbn [strconv.digits_value]. destruct (is_digit c) eqn:Ed; [|done].
    intros H Hn Hu. pose proof (is_digit_value c Ed) as Hd.
    pose proof (digits_value_ge _ _ _ H ltac:(lia)) as Hge.
    rewrite app_String. cbn [strconv.ParseUint_loop]. rewrite Ed.
    cbn [negb].
    replace (2 ^ 64 / 10 + 1 <=? n) with false
      by (symmetry; apply Z.leb_gt;
          change (2 ^ 64 / 10 + 1) with 1844674407370955162;
          change (2 ^ 64) with 18446744073709551616 in Hu; lia).
    cbv zeta.
    replace (2 ^ 64 - 1 <? n * 10 + (byte_of c - 48)) with false
      by (symmetry; apply Z.ltb_ge; lia).
    apply IH; [exact H|lia|exact Hu].
Qed.

Lemma FormatInt_digits (v : Z) :
  is_int v ->
  exists c ds,
    fmt.digits10 20 (Z.abs v) "" = String c ds /\
    is_digit c = true /\
    all_digits (String c ds) = true /\
    strconv.digits_value (String c ds) 0 = Some (Z.abs v) /\
    strconv.FormatInt v =
      if v <? 0 then String "-" (String c ds) else String c ds.
Proof.
  intros Hv. pose proof (is_int_digits v Hv) as Hr.
  destruct (digits10_spec 20 (Z.abs v) "" Hr) as (c & ds & Hd & Hall & Hval & _).
  rewrite app_Empty_r in Hd. exists c, ds. split; [exact Hd|].
  split.
  { unfold all_digits in Hall. cbn [all_chars] in Hall.
    by apply andb_true_iff in Hall as [-> _]. }
  split; [exact Hall|]. split.
  { by rewrite Hval. }
  unfold strconv.FormatInt. destruct (Z.ltb_spec v 0).
  - replace (- v) with (Z.abs v) by lia. by rewrite Hd.
  - replace v with (Z.abs v) at 1 by lia. by rewrite Hd.
Qed.

(** The value [Atoi] gives for a decimal numeral followed by a text [t]
    that does not start with a digit: the number when [t] is empty, and 0
    with an error otherwise. *)
Lemma Atoi_FormatInt_app (v : Z) (t : string) :
  is_int v ->
  match t with
  | "" => True
  | String c _ => is_digit c = false
  end ->
  strconv.Atoi (strconv.FormatInt v +:+ t) =
  if strings.is_empty t then (v, false) else (0, true).
Proof.
  intros Hv Ht.
  destruct (FormatInt_digits v Hv) as (c & ds & _ & Hc & Hall & Hval & ->).
  destruct (is_digit_not_sign c Hc) as [Hplus Hminus].
  assert (Z.abs v < 2 ^ 64) as Hu
      by (unfold is_int, minInt, maxInt in Hv;
          change (2 ^ 63) with 9223372036854775808 in Hv;
          change (2 ^ 64) with 18446744073709551616; lia).
  assert (strconv.digits_value (String c ds +:+ t) 0 =
          if strings.is_empty t then Some (Z.abs v) else None) as Hdv.
  { rewrite digits_value_app, Hval. destruct t as [|d t]; [reflexivity|].
    cbn [strconv.digits_value strings.is_empty]. by rewrite Ht. }
  assert (strconv.ParseUint_loop (String c ds +:+ t) 0 =
          if strings.is_empty t then strconv.UintOk (Z.abs v)
          else strconv.UintSyntax) as Hpu.
  { rewrite (ParseUint_loop_digits _ t 0 (Z.abs v) Hval) by lia.
    destruct t as [|d t]; [reflexivity|].
    cbn [strconv.ParseUint_loop strings.is_empty]. by rewrite Ht. }
  unfold strconv.Atoi.
  destruct ((0 <? _)%nat && (_ <? 19)%nat).
  - (* the fast path *)
    destruct (Z.ltb_spec v 0) as [Hneg|Hpos].
    + rewrite app_String.
      replace (strings.eqb_ascii "-" "-") with true by reflexivity.
      cbn [orb andb]. rewrite app_String. cbn [strings.is_empty].
      rewrite <- app_String, atoi_digits_value, Hdv.
      destruct (strings.is_empty t); [|reflexivity].
      f_equal. lia.
    + rewrite app_String, Hplus, Hminus. cbn [orb andb].
      rewrite <- app_String, atoi_digits_value, Hdv.
      destruct (strings.is_empty t); [|reflexivity].
      f_equal. lia.
  - (* [ParseInt] *)
    unfold strconv.ParseInt_value.
    destruct (Z.ltb_spec v 0) as [Hneg|Hpos].
    + rewrite app_String.
      replace (strings.eqb_ascii "-" "-") with true by reflexivity.
      rewrite orb_true_r. rewrite app_String, <- app_String, Hpu.
      destruct (strings.is_empty t); [|reflexivity].
      cbn [negb andb].
      replace (2 ^ 63 <? Z.abs v) with false
        by (symmetry; apply Z.ltb_ge; unfold is_int, minInt in Hv; lia).
      f_equal. lia.
    + rewrite app_String, Hplus, Hminus. cbn [orb].
      rewrite <- app_String, Hpu.
      destruct (strings.is_empty t); [|reflexivity].
      cbn [negb andb].
      replace (2 ^ 63 <=? Z.abs v) with false
        by (symmetry; apply Z.leb_gt; unfold is_int, maxInt in Hv; lia).
      f_equal. lia.
Qed.

Lemma Atoi_FormatInt (v : Z) :
  is_int v -> strconv.Atoi (strconv.FormatInt v) = (v, false).
Proof.
  intros Hv. rewrite <- (app_Empty_r (strconv.FormatInt v)).
  by rewrite (Atoi_FormatInt_app v "" Hv I).
Qed.

(* --------------------------------------------------------------------- *)
(** ** [loadConfig]                                                       *)
(* --------------------------------------------------------------------- *)

Example loadConfig_defaultCfg :
  loadConfig {[ "/opt/htb_blocker/config.env" := os.Regular defaultCfg ]}
             "/opt/htb_blocker/config.env" = inl default_config.
Proof. vm_compute. reflexivity. Qed.

Lemma Split_nonempty (s : string) (c : ascii) : strings.Split s c <> [].
Proof.
  destruct s as [|a s]; [done|]. cbn [strings.Split].
  destruct (strings.eqb_ascii a c); [done|].
  by destruct (strings.Split s c).
Qed.

Lemma Split_app_sep (s t : string) (c : ascii) :
  strings.Split (s +:+ String c t) c = strings.Split s c ++ strings.Split t c.
Proof.
  induction s as [|a s IH].
  - rewrite app_Empty. cbn [strings.Split].
    unfold strings.eqb_ascii. by rewrite Ascii.eqb_refl.
  - rewrite app_String. cbn [strings.Split].
    destruct (strings.eqb_ascii a c); [by rewrite IH|].
    rewrite IH. pose proof (Split_nonempty s c).
    by destruct (strings.Split s c).
Qed.

Lemma SplitN2_app (key val : string) (c : ascii) :
  strings.Contains key c = false ->
  strings.SplitN2 (key +:+ String c val) c = [key; val].
Proof.
  induction key as [|a key IH].
  - intros _. rewrite app_Empty. cbn [strings.SplitN2].
    unfold strings.eqb_ascii. by rewrite Ascii.eqb_refl.
  - rewrite app_String. cbn [strings.Contains strings.SplitN2].
    destruct (strings.eqb_ascii a c); [done|]. intros H. by rewrite IH.
Qed.

Lemma SplitN2_absent (s : string) (c : ascii) :
  strings.Contains s c = false -> strings.SplitN2 s c = [s].
Proof.
  induction s as [|a s IH]; [done|].
  cbn [strings.Contains strings.SplitN2].
  destruct (strings.eqb_ascii a c); [done|]. intros H. by rewrite IH.
Qed.

(** A line whose trimmed text is [key=val]: the [switch] is reached with
    the text before the first equals sign and the text after it. *)
Lemma config_line_assign (cfg : Config) (ln key val : string) :
  strings.TrimSpace ln = key +:+ String "=" val ->
  strings.Contains key "=" = false ->
  strings.starts_with key "#" = false ->
  config_line cfg ln = assign cfg key val.
Proof.
  intros Ht Hk Hc. unfold config_line. rewrite Ht.
  rewrite (SplitN2_app _ _ _ Hk).
  destruct key as [|a key]; [by rewrite app_Empty|].
  rewrite app_String. cbn [strings.is_empty strings.HasPrefix orb].
  cbn [strings.starts_with] in Hc. by rewrite Hc.
Qed.

Lemma assign_unknown (cfg : Config) (key val : string) :
  key ∉ known_keys -> assign cfg key val = cfg.
Proof.
  intros H. unfold known_keys, escalate_keys in H. cbn [app] in H.
  repeat (apply not_elem_of_cons in H as [? H]).
  unfold assign. by rewrite !bool_decide_eq_false_2 by done.
Qed.

Lemma assign_escalate (cfg : Config) (key val : string) :
  key ∈ escalate_keys ->
  assign cfg key val = add_tier cfg (strconv.Atoi val).1.
Proof.
  intros H. unfold escalate_keys in H.
  apply elem_of_cons in H as [-> | H];
    [|apply elem_of_cons in H as [-> | H];
      [|apply list_elem_of_singleton in H as ->]];
    unfold assign;
    rewrite ?bool_decide_eq_false_2 by done;
    rewrite ?bool_decide_eq_true_2 by done; cbn [orb];
    by destruct (strconv.Atoi val).
Qed.

Lemma config_line_ignorable (cfg : Config) (ln : string) :
  ignorable ln -> config_line cfg ln = cfg.
Proof.
  unfold ignorable. cbv zeta. intros [H|[H|[H|(key & val & Ht & Hk & Hn)]]].
  - unfold config_line. by rewrite H.
  - unfold config_line. rewrite H. by rewrite orb_true_r.
  - unfold config_line. rewrite (SplitN2_absent _ _ H).
    by destruct (_ || _).
  - unfold config_line. rewrite Ht, (SplitN2_app _ _ _ Hk).
    rewrite (assign_unknown _ _ _ Hn). by destruct (_ || _).
Qed.

Lemma loadConfig_text (fs : os.FS) (path text : string) :
  fs !! path = Some (os.Regular text) ->
  loadConfig fs path =
  inl (foldl config_line empty_config (strings.Split text newline)).
Proof. intros H. unfold loadConfig, os.ReadFile. by rewrite H. Qed.

Lemma Split_unlines (lines : list string) :
  Forall (fun ln => strings.Contains ln newline = false) lines ->
  strings.Split (unlines lines) newline = lines ++ [""].
Proof.
  induction 1 as [|ln lines Hln _ IH]; [reflexivity|].
  cbn [unlines foldr]. fold (unlines lines).
  by rewrite (Split_app _ _ _ Hln), IH.
Qed.

Lemma config_line_empty (cfg : Config) : config_line cfg "" = cfg.
Proof. reflexivity. Qed.

Lemma FormatInt_solid (v : Z) :
  is_int v -> all_chars solid (strconv.FormatInt v) = true.
Proof.
  intros Hv.
  destruct (FormatInt_digits v Hv) as (c & ds & _ & _ & Hall & _ & ->).
  pose proof (all_chars_impl _ _ _ is_digit_solid Hall) as Hs.
  destruct (v <? 0); [|exact Hs].
  change (solid "-" && all_chars solid (String c ds) = true).
  by rewrite Hs.
Qed.

Lemma FormatInt_head (v : Z) :
  is_int v -> exists c s, strconv.FormatInt v = String c s.
Proof.
  intros Hv.
  destruct (FormatInt_digits v Hv) as (c & ds & _ & _ & _ & _ & ->).
  destruct (v <? 0); by eexists _, _.
Qed.

Lemma escalate_key_facts (key : string) :
  key ∈ escalate_keys ->
  all_chars solid key = true /\ key <> "" /\
  strings.Contains key "=" = false /\ strings.starts_with key "#" = false /\
  strings.Contains key newline = false.
Proof.
  intros H. unfold escalate_keys in H.
  apply elem_of_cons in H as [-> | H];
    [|apply elem_of_cons in H as [-> | H];
      [|apply list_elem_of_singleton in H as ->]];
    by vm_compute.
Qed.

Lemma config_line_escalate (cfg : Config) (kv : string * Z) :
  kv.1 ∈ escalate_keys -> is_int kv.2 ->
  config_line cfg (escalate_line kv) = add_tier cfg kv.2.
Proof.
  destruct kv as [key h]. cbn [fst snd]. intros Hk Hh.
  destruct (escalate_key_facts key Hk) as (Hs & Hne & Heq & Hc & _).
  unfold escalate_line. cbn [fst snd].
  rewrite (config_line_assign cfg _ key (strconv.FormatInt h)); try done.
  - by rewrite (assign_escalate _ _ _ Hk), Atoi_FormatInt.
  - apply TrimSpace_trimmed, all_solid_trimmed.
    + rewrite all_chars_app, Hs. cbn [all_chars].
      by rewrite FormatInt_solid.
    + destruct key; [done|by rewrite app_String].
Qed.

Lemma escalate_line_no_newline (kv : string * Z) :
  kv.1 ∈ escalate_keys -> is_int kv.2 ->
  strings.Contains (escalate_line kv) newline = false.
Proof.
  destruct kv as [key h]. cbn [fst snd]. intros Hk Hh.
  destruct (escalate_key_facts key Hk) as (_ & _ & _ & _ & Hn).
  unfold escalate_line. cbn [fst snd].
  rewrite Contains_app, Hn. cbn [strings.Contains orb].
  replace (strings.eqb_ascii "=" newline) with false by reflexivity.
  apply Contains_absent.
  eapply all_chars_impl; [|exact (FormatInt_solid h Hh)].
  intros c Hc. destruct (solid_facts c Hc) as [_ Hsp].
  destruct (strings.eqb_ascii c newline) eqn:E; [|reflexivity].
  unfold strings.eqb_ascii in E. apply Ascii.eqb_eq in E. subst c.
  discriminate Hsp.
Qed.

Lemma foldl_escalate (entries : list (string * Z)) :
  Forall (fun kv => kv.1 ∈ escalate_keys /\ is_int kv.2) entries ->
  forall cfg,
    foldl config_line cfg (escalate_line <$> entries) =
    foldl add_tier cfg entries.*2.
Proof.
  induction 1 as [|kv entries [Hk Hh] _ IH]; intros cfg; [reflexivity|].
  cbn [fmap list_fmap foldl]. rewrite (config_line_escalate _ _ Hk Hh).
  apply IH.
Qed.

Lemma foldl_add_tier (hs : list Z) :
  forall cfg,
    foldl add_tier cfg hs =
    {| MtHost := MtHost cfg; MtUser := MtUser cfg; MtPass := MtPass cfg;
       ListTemp := ListTemp cfg; ListPerm := ListPerm cfg;
       Whitelist := Whitelist cfg; StateFile := StateFile cfg;
       Escalation := Escalation cfg ++ hs |}.
Proof.
  induction hs as [|h hs IH]; intros cfg.
  - cbn [foldl]. rewrite app_nil_r. by destruct cfg.
  - cbn [foldl]. rewrite IH. cbn. by rewrite <- app_assoc.
Qed.

(** X19.  Lines [loadConfig] passes over.  A line whose text, white space
    trimmed, is empty, starts with [#], holds no equals sign or has before
    its first equals sign a key the program does not know (a key followed
    by a space is one) changes nothing; and a file gives the same
    configuration with or without such a line between two of its lines. *)
Theorem loadConfig_ignores (fs : os.FS) (path a ln b : string) :
  ignorable ln ->
  strings.Contains ln newline = false ->
  fs !! path = Some (os.Regular (a +:+ String newline (ln +:+ String newline b))) ->
  (forall cfg, config_line cfg ln = cfg) /\
  loadConfig fs path =
  loadConfig (<[path := os.Regular (a +:+ String newline b)]> fs) path.
Proof.
  intros Hi Hn Hfs. split; [intros cfg; by apply config_line_ignorable|].
  rewrite (loadConfig_text fs path _ Hfs).
  rewrite (loadConfig_text _ path (a +:+ String newline b))
    by (unfold os.FS; by rewrite lookup_insert_eq).
  rewrite !Split_app_sep, (Split_absent _ _ Hn).
  rewrite !foldl_app. cbn [foldl].
  by rewrite config_line_ignorable.
Qed.

Lemma loadConfig_ignores_witness :
  (forall cfg, config_line cfg "MT_HOST = 10.0.0.1" = cfg) /\
  loadConfig {[ "config.env" :=
                  os.Regular ("MT_USER=admin" +:+
                              String newline ("MT_HOST = 10.0.0.1" +:+
                              String newline "MT_PASS=secret")) ]}
             "config.env" =
  loadConfig (<["config.env" :=
                  os.Regular ("MT_USER=admin" +:+
                              String newline "MT_PASS=secret")]>
                {[ "config.env" :=
                     os.Regular ("MT_USER=admin" +:+
                                 String newline ("MT_HOST = 10.0.0.1" +:+
                                 String newline "MT_PASS=secret")) ]})
             "config.env".
Proof.
  apply (loadConfig_ignores _ "config.env" "MT_USER=admin"
           "MT_HOST = 10.0.0.1" "MT_PASS=secret").
  - right. right. right. exists "MT_HOST ", " 10.0.0.1".
    split; [reflexivity|]. split; [reflexivity|].
    vm_compute. intros H.
    repeat (apply elem_of_cons in H as [H|H]; [discriminate H|]).
    by apply elem_of_nil in H.
  - reflexivity.
  - reflexivity.
Defined.

(** X20.  The schedule is read in the order of the file.  Lines of the
    form [ESCALATE_n=h], with [n] one of 1, 2 and 3 and [h] the decimal
    text of an [int], each add the hour [h] at the end of the schedule
    whatever [n] is: the digit of the key neither orders the tiers nor
    replaces an earlier line with the same key, and more than three such
    lines give more than three tiers.  A file made of such lines loads as
    the configuration whose schedule is the hours in file order, the other
    fields being empty. *)
Theorem loadConfig_schedule_order (entries : list (string * Z))
        (cfg : Config) (fs : os.FS) (path : string) :
  Forall (fun kv => kv.1 ∈ escalate_keys /\ is_int kv.2) entries ->
  fs !! path = Some (os.Regular (unlines (escalate_line <$> entries))) ->
  Escalation (foldl config_line cfg (escalate_line <$> entries)) =
    Escalation cfg ++ entries.*2 /\
  loadConfig fs path =
  inl {| MtHost := ""; MtUser := ""; MtPass := ""; ListTemp := "";
         ListPerm := ""; Whitelist := []; StateFile := "";
         Escalation := entries.*2 |}.
Proof.
  intros H Hfs. split.
  - by rewrite (foldl_escalate _ H), foldl_add_tier.
  - rewrite (loadConfig_text fs path _ Hfs).
    rewrite Split_unlines.
    2: { apply Forall_fmap. eapply Forall_impl; [exact H|].
         intros kv [Hk Hh]. by apply escalate_line_no_newline. }
    rewrite foldl_app. cbn [foldl]. rewrite config_line_empty.
    by rewrite (foldl_escalate _ H), foldl_add_tier.
Qed.

Lemma loadConfig_schedule_order_witness :
  Escalation (foldl config_line default_config
                (escalate_line <$> [("ESCALATE_3", 24); ("ESCALATE_1", 1);
                                    ("ESCALATE_1", 48); ("ESCALATE_2", 72)])) =
    Escalation default_config ++
    [("ESCALATE_3", 24); ("ESCALATE_1", 1); ("ESCALATE_1", 48);
     ("ESCALATE_2", 72)].*2 /\
  loadConfig
    {[ "config.env" :=
         os.Regular (unlines (escalate_line <$>
                                [("ESCALATE_3", 24); ("ESCALATE_1", 1);
                                 ("ESCALATE_1", 48); ("ESCALATE_2", 72)])) ]}
    "config.env" =
  inl {| MtHost := ""; MtUser := ""; MtPass := ""; ListTemp := "";
         ListPerm := ""; Whitelist := []; StateFile := "";
         Escalation := [("ESCALATE_3", 24); ("ESCALATE_1", 1);
                        ("ESCALATE_1", 48); ("ESCALATE_2", 72)].*2 |}.
Proof.
  apply (loadConfig_schedule_order
           [("ESCALATE_3", 24); ("ESCALATE_1", 1); ("ESCALATE_1", 48);
            ("ESCALATE_2", 72)] default_config).
  - repeat (apply List.Forall_cons;
            [split; [unfold escalate_keys; cbn [fst]; set_solver
                    |by vm_compute]|]).
    apply List.Forall_nil.
  - reflexivity.
Defined.



(** X22.  The value of a key is the text after the first equals sign of
    the trimmed line, as it is: white space after the equals sign, [#]
    and further equals signs are part of it.  The last line with a key
    decides, and the whitelist is the value cut at its commas. *)
Theorem config_line_value (cfg : Config) (ln val : string) :
  (strings.TrimSpace ln = "MT_HOST" +:+ String "=" val ->
   MtHost (config_line cfg ln) = val) /\
  (strings.TrimSpace ln = "MT_USER" +:+ String "=" val ->
   MtUser (config_line cfg ln) = val) /\
  (strings.TrimSpace ln = "MT_PASS" +:+ String "=" val ->
   MtPass (config_line cfg ln) = val) /\
  (strings.TrimSpace ln = "LIST_TEMP" +:+ String "=" val ->
   ListTemp (config_line cfg ln) = val) /\
  (strings.TrimSpace ln = "LIST_PERM" +:+ String "=" val ->
   ListPerm (config_line cfg ln) = val) /\
  (strings.TrimSpace ln = "STATE_FILE" +:+ String "=" val ->
   StateFile (config_line cfg ln) = val) /\
  (strings.TrimSpace ln = "WHITELIST" +:+ String "=" val ->
   Whitelist (config_line cfg ln) = strings.Split val ",").
Proof.
  repeat split; intros H;
    by rewrite (config_line_assign cfg ln _ val H eq_refl eq_refl).
Qed.

(* --------------------------------------------------------------------- *)
(** ** [loadIPsFromCSV]                                                   *)
(* --------------------------------------------------------------------- *)

Lemma scan_lines_S (c : ascii) (data cur : string) (len : Z) :
  bufio.scan_lines (String c data) cur len =
  if strings.eqb_ascii c "010"
  then bufio.dropCR cur :: bufio.scan_lines data "" 0
  else if bufio.MaxScanTokenSize <=? len + 1 then []
       else bufio.scan_lines data (cur +:+ String c "") (len + 1).
Proof. reflexivity. Qed.

Lemma Contains_cons_false (c a : ascii) (s : string) :
  strings.Contains (String a s) c = false ->
  strings.eqb_ascii a c = false /\ strings.Contains s c = false.
Proof.
  cbn [strings.Contains]. by destruct (strings.eqb_ascii a c).
Qed.

(** A line that fits the buffer, up to its line feed. *)
Lemma scan_lines_row (r : string) :
  forall (rest cur : string) (len : Z),
    strings.Contains r newline = false ->
    len + Z.of_nat (String.length r) < bufio.MaxScanTokenSize ->
    bufio.scan_lines (r +:+ String newline rest) cur len =
    bufio.dropCR (cur +:+ r) :: bufio.scan_lines rest "" 0.
Proof.
  induction r as [|a r IH]; intros rest cur len Hn Hlen.
  - rewrite app_Empty, app_Empty_r. reflexivity.
  - apply Contains_cons_false in Hn as [Ha Hn].
    rewrite app_String, scan_lines_S. unfold newline in Ha. rewrite Ha.
    cbn [String.length] in Hlen.
    replace (bufio.MaxScanTokenSize <=? len + 1) with false
      by (symmetry; apply Z.leb_gt; lia).
    rewrite IH by (try done; lia).
    by rewrite app_assoc_s, app_String, app_Empty.
Qed.

(** The last line, when no line feed ends it. *)
Lemma scan_lines_last (r : string) :
  forall (cur : string) (len : Z),
    strings.Contains r newline = false ->
    0 <= len ->
    len + Z.of_nat (String.length r) < bufio.MaxScanTokenSize ->
    bufio.scan_lines r cur len =
    if len + Z.of_nat (String.length r) =? 0 then []
    else [bufio.dropCR (cur +:+ r)].
Proof.
  induction r as [|a r IH]; intros cur len Hn Hpos Hlen.
  - cbn [bufio.scan_lines String.length]. rewrite Z.add_0_r, app_Empty_r.
    reflexivity.
  - apply Contains_cons_false in Hn as [Ha Hn].
    rewrite scan_lines_S. unfold newline in Ha. rewrite Ha.
    cbn [String.length] in *.
    replace (bufio.MaxScanTokenSize <=? len + 1) with false
      by (symmetry; apply Z.leb_gt; lia).
    rewrite IH by (try done; lia).
    replace (len + 1 + Z.of_nat (String.length r) =? 0) with false
      by (symmetry; apply Z.eqb_neq; lia).
    replace (len + Z.of_nat (S (String.length r)) =? 0) with false
      by (symmetry; apply Z.eqb_neq; lia).
    by rewrite app_assoc_s, app_String, app_Empty.
Qed.

(** A line that does not fit the buffer ends the scan. *)
Lemma scan_lines_too_long (r : string) :
  forall (rest cur : string) (len : Z),
    strings.Contains r newline = false ->
    len < bufio.MaxScanTokenSize ->
    bufio.MaxScanTokenSize <= len + Z.of_nat (String.length r) ->
    bufio.scan_lines (r +:+ rest) cur len = [].
Proof.
  induction r as [|a r IH]; intros rest cur len Hn Hlt Hlen.
  - cbn [String.length] in Hlen. lia.
  - apply Contains_cons_false in Hn as [Ha Hn].
    rewrite app_String, scan_lines_S. unfold newline in Ha. rewrite Ha.
    cbn [String.length] in Hlen.
    destruct (Z.leb_spec bufio.MaxScanTokenSize (len + 1)); [reflexivity|].
    apply IH; [exact Hn|lia|lia].
Qed.

Lemma lines_unlines (rows : list string) (last : string) :
  Forall csv_row rows -> csv_row last ->
  bufio.lines (unlines rows +:+ last) =
  (bufio.dropCR <$> rows) ++
  (if strings.is_empty last then [] else [bufio.dropCR last]).
Proof.
  unfold bufio.lines. induction 1 as [|r rows [Hn Hlen] _ IH]; intros [Hln Hll].
  - cbn [unlines foldr fmap list_fmap app]. rewrite app_Empty.
    rewrite scan_lines_last by (try done; lia). rewrite app_Empty.
    destruct last as [|c last]; [reflexivity|].
    cbn [String.length]. cbn [strings.is_empty].
    by replace (0 + Z.of_nat (S (String.length last)) =? 0) with false
      by (symmetry; apply Z.eqb_neq; lia).
  - cbn [unlines foldr]. fold (unlines rows).
    replace ((r +:+ String newline (unlines rows)) +:+ last)
      with (r +:+ String newline (unlines rows +:+ last))
      by (by rewrite app_assoc_s, app_String).
    rewrite scan_lines_row by (try done; lia).
    rewrite app_Empty, IH by done. reflexivity.
Qed.

Lemma dropCR_app (s : string) (c : ascii) (t : string) :
  bufio.dropCR (s +:+ String c t) = s +:+ bufio.dropCR (String c t).
Proof.
  induction s as [|a s IH]; [by rewrite !app_Empty|].
  rewrite !app_String. cbn [bufio.dropCR]. rewrite IH.
  destruct s; [by rewrite app_Empty|by rewrite app_String].
Qed.

Lemma dropCR_spaces (w : string) :
  all_chars strings.asciiSpace w = true ->
  all_chars strings.asciiSpace (bufio.dropCR w) = true.
Proof.
  induction w as [|a w IH]; [done|]. cbn [all_chars bufio.dropCR].
  intros [Ha Hw]%andb_true_iff.
  destruct (_ && _); [reflexivity|]. cbn [all_chars]. by rewrite Ha, IH.
Qed.

Lemma dropCR_last (s : string) (d : ascii) :
  last_char s = Some d -> strings.eqb_ascii d "013" = false ->
  bufio.dropCR s = s.
Proof.
  induction s as [|a s IH]; [done|]. intros Hl Hd. cbn [bufio.dropCR].
  destruct s as [|b s].
  - injection Hl as ->. cbn. by rewrite Hd.
  - cbn [strings.is_empty andb]. by rewrite (IH Hl Hd).
Qed.

Lemma solid_not_CR (c : ascii) :
  solid c = true -> strings.eqb_ascii c "013" = false.
Proof.
  destruct c as [[] [] [] [] [] [] [] []]; vm_compute; intros H;
    try discriminate H; reflexivity.
Qed.

Lemma is_quote_solid (c : ascii) : is_quote c = true -> solid c = true.
Proof.
  unfold is_quote, strings.eqb_ascii. by intros ->%Ascii.eqb_eq.
Qed.

(** The text between the white space of a row: solid at both ends, and
    trimmed of its quotes to the text it holds. *)
Lemma quoted_facts (q1 a q2 : string) :
  all_chars is_quote q1 = true -> all_chars is_quote q2 = true ->
  all_chars plain_char a = true -> a <> "" ->
  all_chars solid (q1 +:+ a +:+ q2) = true /\
  q1 +:+ a +:+ q2 <> "" /\
  strings.Trim (q1 +:+ a +:+ q2) "034" = a.
Proof.
  intros H1 H2 Ha Hne.
  assert (all_chars solid a = true /\
          all_chars (fun c => negb (strings.eqb_ascii c "034")) a = true)
    as [Has Haq].
  { split; (eapply all_chars_impl; [|exact Ha]); intros c Hc;
      destruct (plain_char_facts c Hc) as (Hs & Hq & _);
      unfold is_quote in Hq; by rewrite ?Hq. }
  split; [|split].
  - rewrite !all_chars_app, Has.
    rewrite (all_chars_impl _ _ _ is_quote_solid H1).
    by rewrite (all_chars_impl _ _ _ is_quote_solid H2).
  - destruct q1; [|by rewrite app_String]. rewrite app_Empty.
    destruct a; [done|by rewrite app_String].
  - unfold strings.Trim. rewrite <- app_assoc_s.
    rewrite trimRightByte_app_all by exact H2.
    rewrite trimRightByte_app_keep; rewrite trimRightByte_absent by exact Haq;
      [|exact Hne].
    rewrite trimLeftByte_app_all by exact H1.
    by apply trimLeftByte_absent.
Qed.

Lemma dropCR_padded (w1 x w2 : string) :
  all_chars solid x = true -> x <> "" ->
  all_chars strings.asciiSpace w2 = true ->
  exists w2',
    all_chars strings.asciiSpace w2' = true /\
    bufio.dropCR ((w1 +:+ x) +:+ w2) = w1 +:+ x +:+ w2'.
Proof.
  intros Hsolid Hne Hw2. destruct w2 as [|c w2].
  - exists "". split; [reflexivity|]. rewrite !app_Empty_r.
    destruct x as [|c x]; [done|].
    destruct (last_char_is_Some c x) as [d Hd].
    rewrite (dropCR_last _ d).
    + reflexivity.
    + by rewrite last_char_app.
    + apply solid_not_CR. by apply (last_char_all _ _ _ Hsolid Hd).
  - exists (bufio.dropCR (String c w2)).
    split; [by apply dropCR_spaces|].
    by rewrite dropCR_app, app_assoc_s.
Qed.

Lemma csv_value_row (row a : string) :
  holds_address row a -> csv_value (bufio.dropCR row) = Some a.
Proof.
  intros (w1 & q1 & q2 & w2 & -> & Hw1 & Hq1 & Hq2 & Hw2 & Ha & Hne).
  destruct (quoted_facts q1 a q2 Hq1 Hq2 Ha Hne) as (Hsolid & Hne' & Htrim).
  destruct (dropCR_padded w1 _ w2 Hsolid Hne' Hw2) as (w2' & Hw2' & Hdrop).
  unfold decorated.
  replace (w1 +:+ q1 +:+ a +:+ q2 +:+ w2)
    with ((w1 +:+ (q1 +:+ a +:+ q2)) +:+ w2) by (by rewrite !app_assoc_s).
  rewrite Hdrop. unfold csv_value.
  rewrite TrimSpace_padded by (try done; by apply all_solid_trimmed).
  rewrite Htrim. by destruct a.
Qed.

Lemma omap_csv_value_rows (rows addrs : list string) :
  Forall2 holds_address rows addrs ->
  omap csv_value (bufio.dropCR <$> rows) = addrs.
Proof.
  induction 1 as [|row a rows addrs Hrow _ IH]; [reflexivity|].
  cbn [fmap list_fmap omap list_omap].
  rewrite (csv_value_row row a Hrow). cbn. f_equal. exact IH.
Qed.

Lemma loadIPsFromCSV_text (fs : os.FS) (path header : string)
      (rows : list string) (last : string) :
  csv_row header -> Forall csv_row rows -> csv_row last ->
  fs !! path = Some (os.Regular (csv_text header rows +:+ last)) ->
  loadIPsFromCSV fs path =
  inl (omap csv_value
            (bufio.dropCR <$>
               rows ++ (if strings.is_empty last then [] else [last]))).
Proof.
  intros Hh Hrows Hlast Hfs. unfold loadIPsFromCSV. rewrite Hfs.
  unfold csv_text. rewrite lines_unlines by (try done; by constructor).
  cbn [fmap list_fmap app]. rewrite fmap_app.
  by destruct (strings.is_empty last).
Qed.

Lemma scan_unlines (rows : list string) (tail : string) :
  Forall csv_row rows ->
  bufio.scan_lines (unlines rows +:+ tail) "" 0 =
  (bufio.dropCR <$> rows) ++ bufio.scan_lines tail "" 0.
Proof.
  induction 1 as [|r rows [Hn Hlen] _ IH].
  - cbn [unlines foldr fmap list_fmap app]. by rewrite app_Empty.
  - cbn [unlines foldr]. fold (unlines rows).
    replace ((r +:+ String newline (unlines rows)) +:+ tail)
      with (r +:+ String newline (unlines rows +:+ tail))
      by (by rewrite app_assoc_s, app_String).
    rewrite scan_lines_row by (try done; lia).
    rewrite app_Empty, IH. reflexivity.
Qed.

(** X16.  What [loadIPsFromCSV] returns for a file of lines that fit the
    buffer of the scanner: the first line is skipped whatever it holds (a
    file without a header loses its first address), and every later line,
    the last one also when no line feed ends it, gives one entry: the
    line without the carriage return at its end, white space trimmed and
    then the double quotes at its ends, dropped when nothing is left.
    Nothing else is done to a line: further columns stay in the entry. *)
Theorem loadIPsFromCSV_rows (fs : os.FS) (path header : string)
        (rows : list string) (last : string) :
  csv_row header -> Forall csv_row rows -> csv_row last ->
  fs !! path = Some (os.Regular (csv_text header rows +:+ last)) ->
  loadIPsFromCSV fs path =
  inl (omap csv_value
            (bufio.dropCR <$>
               rows ++ (if strings.is_empty last then [] else [last]))).
Proof. apply loadIPsFromCSV_text. Qed.

Lemma loadIPsFromCSV_rows_witness :
  loadIPsFromCSV
    {[ "attackers.csv" :=
         os.Regular (csv_text "203.0.113.25"
                       ["198.51.100.50,2024-01-01"; ""] +:+ "2001:db8::1") ]}
    "attackers.csv" =
  inl (omap csv_value
            (bufio.dropCR <$>
               ["198.51.100.50,2024-01-01"; ""] ++
               (if strings.is_empty "2001:db8::1" then []
                else ["2001:db8::1"]))).
Proof.
  apply (loadIPsFromCSV_rows _ "attackers.csv" "203.0.113.25"
           ["198.51.100.50,2024-01-01"; ""] "2001:db8::1").
  - split; [reflexivity|by vm_compute].
  - repeat (apply List.Forall_cons; [split; [reflexivity|by vm_compute]|]).
    apply List.Forall_nil.
  - split; [reflexivity|by vm_compute].
  - reflexivity.
Defined.

(** X17.  A CSV file in the format of the README is read back exactly.
    When every row after the header holds one address, between optional
    double quotes and optional ASCII white space (the carriage return of a
    CRLF line end is such white space), [loadIPsFromCSV] returns the list
    of these addresses, in the order of the file and with no error; and
    [sanitizeIP] then leaves each canonical address as it is. *)
Theorem loadIPsFromCSV_addresses (fs : os.FS) (path header : string)
        (rows addrs : list string) :
  csv_row header -> Forall csv_row rows ->
  Forall2 holds_address rows addrs ->
  fs !! path = Some (os.Regular (csv_text header rows)) ->
  loadIPsFromCSV fs path = inl addrs /\
  (Forall canonical addrs -> sanitizeIP <$> addrs = addrs).
Proof.
  intros Hh Hrows Hholds Hfs. split.
  - rewrite (loadIPsFromCSV_text fs path header rows "");
      [|done|done|split; [reflexivity|by vm_compute]
       |by rewrite app_Empty_r].
    cbn [strings.is_empty]. rewrite app_nil_r.
    f_equal. by apply omap_csv_value_rows.
  - clear. induction 1 as [|a addrs (ip & Hwf & ->) _ IH]; [reflexivity|].
    cbn [fmap list_fmap]. rewrite sanitizeIP_String by done.
    f_equal. exact IH.
Qed.

Lemma loadIPsFromCSV_addresses_witness :
  loadIPsFromCSV
    {[ "attackers.csv" :=
         os.Regular (csv_text "src_ip"
                       [String "034" ("203.0.113.25" +:+ String "034" "");
                        "2001:db8::1" +:+ String "013" ""]) ]}
    "attackers.csv" = inl ["203.0.113.25"; "2001:db8::1"] /\
  (Forall canonical ["203.0.113.25"; "2001:db8::1"] ->
   sanitizeIP <$> ["203.0.113.25"; "2001:db8::1"] =
   ["203.0.113.25"; "2001:db8::1"]).
Proof.
  apply (loadIPsFromCSV_addresses _ "attackers.csv" "src_ip"
           [String "034" ("203.0.113.25" +:+ String "034" "");
            "2001:db8::1" +:+ String "013" ""]).
  - split; [reflexivity|by vm_compute].
  - repeat (apply List.Forall_cons; [split; [reflexivity|by vm_compute]|]).
    apply List.Forall_nil.
  - constructor.
    { exists "", (String "034" ""), (String "034" ""), "".
      repeat split; discriminate. }
    constructor; [|constructor].
    exists "", "", "", (String "013" ""). repeat split; discriminate.
  - reflexivity.
Defined.

(** X18.  A line that does not fit the buffer of the scanner ends the
    reading without an error: when a line of [MaxScanTokenSize] bytes or
    more follows the header and some rows, [loadIPsFromCSV] returns the
    entries of the rows before it and a nil error, and whatever comes
    after the long line is never read. *)
Theorem loadIPsFromCSV_long_line (fs : os.FS) (path header : string)
        (rows : list string) (long rest : string) :
  csv_row header -> Forall csv_row rows ->
  strings.Contains long newline = false ->
  bufio.MaxScanTokenSize <= Z.of_nat (String.length long) ->
  fs !! path = Some (os.Regular (csv_text header rows +:+ long +:+ rest)) ->
  loadIPsFromCSV fs path = inl (omap csv_value (bufio.dropCR <$> rows)).
Proof.
  intros Hh Hrows Hn Hlen Hfs. unfold loadIPsFromCSV. rewrite Hfs.
  unfold bufio.lines, csv_text.
  rewrite scan_unlines by (by constructor).
  rewrite scan_lines_too_long by (try done; by vm_compute).
  rewrite app_nil_r. reflexivity.
Qed.

Lemma loadIPsFromCSV_long_line_witness :
  loadIPsFromCSV
    {[ "attackers.csv" :=
         os.Regular (csv_text "src_ip" ["203.0.113.25"] +:+
                     repeat_char "x" (Z.to_nat 65536) +:+
                     String newline "198.51.100.50") ]}
    "attackers.csv" =
  inl (omap csv_value (bufio.dropCR <$> ["203.0.113.25"])).
Proof.
  apply (loadIPsFromCSV_long_line _ "attackers.csv" "src_ip"
           ["203.0.113.25"] (repeat_char "x" (Z.to_nat 65536))
           (String newline "198.51.100.50")).
  - split; [reflexivity|by vm_compute].
  - repeat (apply List.Forall_cons; [split; [reflexivity|by vm_compute]|]).
    apply List.Forall_nil.
  - vm_compute. reflexivity.
  - vm_compute. discriminate.
  - reflexivity.
Defined.

(* --------------------------------------------------------------------- *)
(** ** From the CSV file to the state file                                *)
(* --------------------------------------------------------------------- *)


Section Program.

Context {Client : Type}.
Variable RunArgs : Client -> list string -> Client * bool.


End Program.


(* --------------------------------------------------------------------- *)
(** ** Counts that make a round panic, entries that match nothing         *)
(* --------------------------------------------------------------------- *)

Section PanicTheorems.

Context {Client : Type}.
Variable RunArgs : Client -> list string -> Client * bool.




End PanicTheorems.


Lemma dtoi_loop_stops (s : string) :
  forall (n : Z) (i : nat),
    all_digits s = false ->
    (net.dtoi_loop s n i).2 = false \/
    ((net.dtoi_loop s n i).1.2 < i + String.length s)%nat.
Proof.
  induction s as [|c s IH]; intros n i; [done|].
  unfold all_digits. cbn [all_chars net.dtoi_loop String.length].
  destruct (is_digit c) eqn:Ed.
  - cbn [andb]. intros Hs. destruct (net.big <=? _); [by left|].
    destruct (IH (n * 10 + (byte_of c - 48)) (S i) Hs) as [H|H];
      [by left|right; lia].
  - intros _. destruct (i =? 0)%nat; [by left|]. right. cbn. lia.
Qed.

Lemma ParseCIDR_bad_mask (addr mask : string) :
  strings.Contains addr "/" = false ->
  all_digits mask = false \/ mask = "" ->
  net.ParseCIDR (addr +:+ String "/" mask) = None.
Proof.
  intros Ha Hm. unfold net.ParseCIDR. rewrite (cut_slash_app _ _ Ha).
  destruct (netip.ParseAddr addr) as [a|]; [|reflexivity].
  destruct (negb _); [reflexivity|].
  unfold net.dtoi. destruct Hm as [Hm| ->].
  - pose proof (dtoi_loop_stops mask 0 0 Hm) as H.
    destruct (net.dtoi_loop mask 0 0) as [[n i] ok]. cbn [fst snd] in H.
    destruct H as [->|H]; [reflexivity|].
    replace (i =? String.length mask)%nat with false
      by (symmetry; apply Nat.eqb_neq; lia).
    by rewrite orb_true_r.
  - reflexivity.
Qed.

(** X27.  A CIDR entry with anything but a number after the slash matches
    nothing.  When the text of a whitelist entry, white space trimmed, has
    after its first slash an empty text or a text with a character that is
    no decimal digit (a comment after the value of [WHITELIST], as in the
    sample of the README, makes the last entry such a text), [ParseCIDR]
    fails and the entry is passed over for every address. *)
Theorem isWhitelisted_bad_prefix_length (ip e addr mask : string) :
  strings.TrimSpace e = addr +:+ String "/" mask ->
  strings.Contains addr "/" = false ->
  all_digits mask = false \/ mask = "" ->
  isWhitelisted ip [e] = false /\
  forall wl, isWhitelisted ip (e :: wl) = isWhitelisted ip wl.
Proof.
  intros He Ha Hm.
  assert (forall p wl, whitelist_loop ip p (e :: wl) = whitelist_loop ip p wl)
    as Hloop.
  { intros p wl. cbn [whitelist_loop]. rewrite He.
    rewrite Contains_app. cbn [strings.Contains].
    replace (strings.eqb_ascii "/" "/") with true by reflexivity.
    rewrite orb_true_r. cbn [negb].
    by rewrite (ParseCIDR_bad_mask _ _ Ha Hm). }
  unfold isWhitelisted. destruct (net.ParseIP ip) as [p|]; [|done].
  split; [by rewrite Hloop|intros wl; apply Hloop].
Qed.

Lemma isWhitelisted_bad_prefix_length_witness :
  isWhitelisted "192.168.1.50"
                ["192.168.1.0/24    # IPs/networks to never block"] = false /\
  forall wl,
    isWhitelisted "192.168.1.50"
                  ("192.168.1.0/24    # IPs/networks to never block" :: wl) =
    isWhitelisted "192.168.1.50" wl.
Proof.
  apply (isWhitelisted_bad_prefix_length "192.168.1.50"
           "192.168.1.0/24    # IPs/networks to never block"
           "192.168.1.0" "24    # IPs/networks to never block").
  - vm_compute. reflexivity.
  - reflexivity.
  - left. reflexivity.
Defined.
